(** * Internet Agent chain: a shallow embedding of [backend/Intenet agent.py]

    The development follows the Python module top to bottom:
    - [Py]: the fragment of Python's [str] and exception machinery the module uses;
    - [Json]: JSON values and a reader for JSON text (what [resp.json()] and
      [model_validate_json] see);
    - [Field], [SearchQuery], [AgentPlan], [ExtractedFact], [AgentAnswer],
      [FactList]: the pydantic models declared by the module and their
      validation;
    - [Agent]: the LLM helper, the internet tools, the four chain steps and
      [run_agent], in a state-and-exception monad over a log of provider calls;
    - the properties of the specification, and their proofs or refutations;
    - [Tastefind]: the restaurant API of [backend/main.py], its search, its
      parser and its routes, with further properties of both modules.

    A Python [str] is a [string] whose characters are the code points
    0..255; a finite Python [float] is carried as the rational it denotes. *)

From Stdlib Require Import String Ascii ZArith QArith List Lia Bool DecimalString.
From stdpp Require Import gmap strings.
Import ListNotations.

Set Warnings "-register-all".

Local Open Scope string_scope.
Local Open Scope list_scope.
Local Open Scope Z_scope.

(* ====================================================================== *)
(** ** Python runtime fragment *)
(* ====================================================================== *)

Module Py.

(** Exception classes raised along the paths of the module.  All of them
    derive from [Exception], so an [except Exception] clause catches each. *)
Inductive exn_class :=
| ValidationError   (* pydantic: the text does not fit the schema *)
| JSONDecodeError   (* resp.json() on a body that is not JSON *)
| AttributeError    (* .get / .strip on a value that has none *)
| TypeError         (* iterating a value that is not iterable *)
| IndexError        (* choices[0] on an empty list *)
| TransportError    (* httpx: timeout, connection refused, ... *)
| APIError          (* groq: the completion request failed *)
| GroqError.        (* groq: client constructed without a key *)

Record exn := Exn { exn_cls : exn_class; exn_msg : string }.

(** [str(e)] as interpolated by an f-string. *)
Definition str_of_exn (e : exn) : string := exn_msg e.

Inductive result (A : Type) :=
| Ok (a : A)
| Raise (e : exn).
Arguments Ok {A} a.
Arguments Raise {A} e.

Definition is_ok {A} (r : result A) : bool :=
  match r with Ok _ => true | Raise _ => false end.

(** *** [float]

    A Python [float]: a finite value, carried as the rational it denotes,
    NaN or an infinity. *)
Inductive pyfloat :=
| Finite (q : Q)
| Nan
| PosInf
| NegInf.

(** [b < a] on floats; every comparison with NaN is false. *)
Definition float_lt (b a : pyfloat) : bool :=
  match b, a with
  | Nan, _ | _, Nan => false
  | Finite x, Finite y => negb (Qle_bool y x)
  | NegInf, NegInf => false
  | NegInf, _ => true
  | _, PosInf => match b with PosInf => false | _ => true end
  | _, _ => false
  end.

(** *** [str] methods *)

Definition code (c : ascii) : Z := Z.of_N (N_of_ascii c).

(** [str.isspace] on code points below 256: TAB..CR, FS..US, SPACE, NEL, NBSP. *)
Definition isspace (c : ascii) : bool :=
  let n := code c in
  ((9 <=? n) && (n <=? 13)) || ((28 <=? n) && (n <=? 32))
  || (n =? 133) || (n =? 160).

Fixpoint lstrip (s : string) : string :=
  match s with
  | EmptyString => EmptyString
  | String c r => if isspace c then lstrip r else s
  end.

(** Removes trailing whitespace: a character is kept when something that is
    not whitespace follows it or it is not whitespace itself. *)
Fixpoint rstrip (s : string) : string :=
  match s with
  | EmptyString => EmptyString
  | String c r =>
      match rstrip r with
      | EmptyString => if isspace c then EmptyString else String c EmptyString
      | r' => String c r'
      end
  end.

(** [s.strip()] *)
Definition strip (s : string) : string := rstrip (lstrip s).

(** ASCII letters in lower case, other characters unchanged. *)
Definition ascii_lower_char (c : ascii) : ascii :=
  let n := code c in
  if (65 <=? n) && (n <=? 90) then ascii_of_N (Z.to_N (n + 32)) else c.

Fixpoint ascii_lower (s : string) : string :=
  match s with
  | EmptyString => EmptyString
  | String c r => String (ascii_lower_char c) (ascii_lower r)
  end.

(** [s.startswith(p)] *)
Definition startswith (s p : string) : bool := String.prefix p s.

Fixpoint drop (n : nat) (s : string) : string :=
  match n, s with
  | O, _ => s
  | S _, EmptyString => EmptyString
  | S n', String _ r => drop n' r
  end.

Fixpoint take (n : nat) (s : string) : string :=
  match n, s with
  | O, _ => EmptyString
  | S _, EmptyString => EmptyString
  | S n', String c r => String c (take n' r)
  end.

(** [s[:k]] for an [int] k: a negative k counts from the end, and both
    ends are clamped to the string. *)
Definition slice_to (s : string) (k : Z) : string :=
  let n := Z.of_nat (String.length s) in
  let stop := if k <? 0 then Z.max 0 (n + k) else Z.min k n in
  take (Z.to_nat stop) s.

(** [s[k:]] for a literal k >= 0. *)
Definition slice_from (s : string) (k : nat) : string := drop k s.

(** First occurrence of [sep] in [s]: the text before it and the text after. *)
Fixpoint partition (sep s : string) : option (string * string) :=
  if String.prefix sep s then Some (EmptyString, drop (String.length sep) s)
  else match s with
       | EmptyString => None
       | String c r =>
           match partition sep r with
           | Some (b, a) => Some (String c b, a)
           | None => None
           end
       end.

(** [s.split(sep)] for a non-empty [sep]; every round consumes at least one
    character, so [fuel] = length of [s] is enough. *)
Fixpoint split_fuel (fuel : nat) (sep s : string) : list string :=
  match fuel with
  | O => [s]
  | S fuel' =>
      match partition sep s with
      | None => [s]
      | Some (b, a) => b :: split_fuel fuel' sep a
      end
  end.

Definition split (s sep : string) : list string :=
  split_fuel (String.length s) sep s.

(** [l[i]] *)
Definition index {A} (l : list A) (i : nat) : result A :=
  match nth_error l i with
  | Some x => Ok x
  | None => Raise (Exn IndexError "list index out of range")
  end.

End Py.

Import Py.

(** The line feed character, written [\n] in the Python source. *)
Definition nl : string := String (ascii_of_nat 10) EmptyString.

(* ====================================================================== *)
(** ** JSON values and JSON text *)
(* ====================================================================== *)

Module Json.

(** The number constants that Python's reader and pydantic's accept besides
    decimal literals. *)
Inductive constant :=
| NaN
| Infinity
| NegInfinity.

(** The float a constant is read as. *)
Definition float_of_constant (c : constant) : pyfloat :=
  match c with
  | NaN => Nan
  | Infinity => PosInf
  | NegInfinity => NegInf
  end.

(** A parsed JSON document.  Numbers carry the exact value of their decimal
    literal; objects keep their members in document order. *)
Inductive json :=
| JNull
| JBool (b : bool)
| JNum (q : Q)
| JConst (c : constant)
| JStr (s : string)
| JArr (items : list json)
| JObj (members : list (string * json)).

(** Member lookup; when a key is repeated the last occurrence wins, as in
    the dict built by Python's reader. *)
Fixpoint lookup (k : string) (ms : list (string * json)) : option json :=
  match ms with
  | [] => None
  | (k', v) :: rest =>
      match lookup k rest with
      | Some v' => Some v'
      | None => if String.eqb k k' then Some v else None
      end
  end.

(** *** Reader *)

(** The double quote that delimits JSON strings. *)
Definition dquote : ascii := ascii_of_nat 34.

(** JSON text written with ['] where the document has a double quote, to
    keep example documents readable. *)
Fixpoint js (s : string) : string :=
  match s with
  | EmptyString => EmptyString
  | String c r => String (if Ascii.eqb c "'" then dquote else c) (js r)
  end.

Definition is_ws (c : ascii) : bool :=
  let n := code c in (n =? 32) || (n =? 9) || (n =? 10) || (n =? 13).

Fixpoint skip_ws (s : string) : string :=
  match s with
  | String c r => if is_ws c then skip_ws r else s
  | EmptyString => s
  end.

Definition digit (c : ascii) : option Z :=
  let n := code c in
  if (48 <=? n) && (n <=? 57) then Some (n - 48) else None.

Definition hexdigit (c : ascii) : option Z :=
  let n := code c in
  if (48 <=? n) && (n <=? 57) then Some (n - 48)
  else if (65 <=? n) && (n <=? 70) then Some (n - 55)
  else if (97 <=? n) && (n <=? 102) then Some (n - 87)
  else None.

(** Reads a maximal run of decimal digits: its value on top of [acc], how
    many digits were read, and the rest of the text. *)
Fixpoint digits (s : string) (acc : Z) (cnt : nat) : Z * nat * string :=
  match s with
  | String c r =>
      match digit c with
      | Some d => digits r (10 * acc + d) (S cnt)
      | None => (acc, cnt, s)
      end
  | EmptyString => (acc, cnt, s)
  end.

Definition pow10 (e : Z) : Q :=
  if e <? 0 then 1 # Z.to_pos (10 ^ (- e)) else inject_Z (10 ^ e).

(** number = [-] int [frac] [exp]; no leading zeros, at least one digit
    after the point and in the exponent. *)
Definition parse_number (s : string) : option (Q * string) :=
  let '(neg, s1) :=
    match s with
    | String c r => if Ascii.eqb c "-" then (true, r) else (false, s)
    | EmptyString => (false, s)
    end in
  let '(ip, n_int, s2) := digits s1 0 0%nat in
  let leading_zero :=
    match s1 with
    | String c _ => Ascii.eqb c "0" && (1 <? n_int)%nat
    | EmptyString => false
    end in
  if (n_int =? 0)%nat || leading_zero then None else
  let frac :=
    match s2 with
    | String c r =>
        if Ascii.eqb c "." then
          let '(m, n_frac, s3) := digits r ip 0%nat in
          if (n_frac =? 0)%nat then None else Some (m, Z.of_nat n_frac, s3)
        else Some (ip, 0, s2)
    | EmptyString => Some (ip, 0, s2)
    end in
  match frac with
  | None => None
  | Some (m, scale, s3) =>
      let expo :=
        match s3 with
        | String c r =>
            if Ascii.eqb c "e" || Ascii.eqb c "E" then
              let '(eneg, r1) :=
                match r with
                | String c' r' =>
                    if Ascii.eqb c' "-" then (true, r')
                    else if Ascii.eqb c' "+" then (false, r')
                    else (false, r)
                | EmptyString => (false, r)
                end in
              let '(ev, n_exp, s4) := digits r1 0 0%nat in
              if (n_exp =? 0)%nat then None
              else Some (if eneg then - ev else ev, s4)
            else Some (0, s3)
        | EmptyString => Some (0, s3)
        end in
      match expo with
      | None => None
      | Some (e, s4) =>
          let v := Qred (inject_Z m * pow10 (e - scale)) in
          Some (if neg then Qred (- v) else v, s4)
      end
  end.

(** Four hexadecimal digits, as after [\u]. *)
Definition hex4 (s : string) : option (Z * string) :=
  match s with
  | String h1 (String h2 (String h3 (String h4 r))) =>
      match hexdigit h1, hexdigit h2, hexdigit h3, hexdigit h4 with
      | Some a, Some b, Some c, Some d =>
          Some (((a * 16 + b) * 16 + c) * 16 + d, r)
      | _, _, _, _ => None
      end
  | _ => None
  end.

(** The character a [\u] escape of code point [cp] stands for, and the text
    after it.  A code point above 255 has no counterpart in [string]: it is
    read as the single character [?], and so is a surrogate pair, whose
    second escape is consumed with the first. *)
Definition escaped_char (cp : Z) (rest : string) : ascii * string :=
  if cp <? 256 then (ascii_of_N (Z.to_N cp), rest)
  else if (55296 <=? cp) && (cp <=? 56319) then
    match rest with
    | String b (String u r) =>
        if Ascii.eqb b "\" && Ascii.eqb u "u" then
          match hex4 r with
          | Some (lo, r') =>
              if (56320 <=? lo) && (lo <=? 57343) then ("?"%char, r')
              else ("?"%char, rest)
          | None => ("?"%char, rest)
          end
        else ("?"%char, rest)
    | _ => ("?"%char, rest)
    end
  else ("?"%char, rest).

(** The characters of a string literal after its opening quote, up to and
    including the closing quote.  Control characters must be escaped.  The
    recursion takes [fuel], since an escape hands over the text that
    follows it; the length of the text is enough. *)
Fixpoint parse_chars (fuel : nat) (s : string) : option (string * string) :=
  match fuel with
  | O => None
  | S fuel' =>
      let continue (ch : ascii) (rest : string) :=
        match parse_chars fuel' rest with
        | Some (t, rest') => Some (String ch t, rest')
        | None => None
        end in
      match s with
      | EmptyString => None
      | String c r =>
          if Ascii.eqb c dquote then Some (EmptyString, r)
          else if code c <? 32 then None
          else if Ascii.eqb c "\" then
            match r with
            | String e r1 =>
                if Ascii.eqb e dquote then continue dquote r1
                else if Ascii.eqb e "\" then continue "\"%char r1
                else if Ascii.eqb e "/" then continue "/"%char r1
                else if Ascii.eqb e "b" then continue (ascii_of_nat 8) r1
                else if Ascii.eqb e "f" then continue (ascii_of_nat 12) r1
                else if Ascii.eqb e "n" then continue (ascii_of_nat 10) r1
                else if Ascii.eqb e "r" then continue (ascii_of_nat 13) r1
                else if Ascii.eqb e "t" then continue (ascii_of_nat 9) r1
                else if Ascii.eqb e "u" then
                  match hex4 r1 with
                  | Some (cp, r2) =>
                      let '(ch, r3) := escaped_char cp r2 in continue ch r3
                  | None => None
                  end
                else None
            | EmptyString => None
            end
          else continue c r
      end
  end.

(** Recursive descent over value, array elements and object members. *)
Fixpoint parse_value (fuel : nat) (s : string) : option (json * string) :=
  match fuel with
  | O => None
  | S fuel' =>
      match skip_ws s with
      | EmptyString => None
      | String c r =>
          if Ascii.eqb c "{" then
            match skip_ws r with
            | String c' r' =>
                if Ascii.eqb c' "}" then Some (JObj [], r')
                else parse_members fuel' r []
            | EmptyString => None
            end
          else if Ascii.eqb c "[" then
            match skip_ws r with
            | String c' r' =>
                if Ascii.eqb c' "]" then Some (JArr [], r')
                else parse_elements fuel' r []
            | EmptyString => None
            end
          else if Ascii.eqb c dquote then
            match parse_chars (String.length r) r with
            | Some (t, rest) => Some (JStr t, rest)
            | None => None
            end
          else if String.prefix "true" (String c r) then Some (JBool true, drop 4 (String c r))
          else if String.prefix "false" (String c r) then Some (JBool false, drop 5 (String c r))
          else if String.prefix "null" (String c r) then Some (JNull, drop 4 (String c r))
          else if String.prefix "NaN" (String c r) then
            Some (JConst NaN, drop 3 (String c r))
          else if String.prefix "Infinity" (String c r) then
            Some (JConst Infinity, drop 8 (String c r))
          else if String.prefix "-Infinity" (String c r) then
            Some (JConst NegInfinity, drop 9 (String c r))
          else
            match parse_number (String c r) with
            | Some (q, rest) => Some (JNum q, rest)
            | None => None
            end
      end
  end
with parse_elements (fuel : nat) (s : string) (acc : list json)
  : option (json * string) :=
  match fuel with
  | O => None
  | S fuel' =>
      match parse_value fuel' s with
      | None => None
      | Some (v, r) =>
          match skip_ws r with
          | String c r' =>
              if Ascii.eqb c "," then parse_elements fuel' r' (v :: acc)
              else if Ascii.eqb c "]" then Some (JArr (rev (v :: acc)), r')
              else None
          | EmptyString => None
          end
      end
  end
with parse_members (fuel : nat) (s : string) (acc : list (string * json))
  : option (json * string) :=
  match fuel with
  | O => None
  | S fuel' =>
      match skip_ws s with
      | String q r0 =>
          if Ascii.eqb q dquote then
            match parse_chars (String.length r0) r0 with
            | None => None
            | Some (k, r1) =>
                match skip_ws r1 with
                | String c r2 =>
                    if Ascii.eqb c ":" then
                      match parse_value fuel' r2 with
                      | None => None
                      | Some (v, r3) =>
                          match skip_ws r3 with
                          | String c' r4 =>
                              if Ascii.eqb c' "," then
                                parse_members fuel' r4 ((k, v) :: acc)
                              else if Ascii.eqb c' "}" then
                                Some (JObj (rev ((k, v) :: acc)), r4)
                              else None
                          | EmptyString => None
                          end
                      end
                    else None
                | EmptyString => None
                end
            end
          else None
      | EmptyString => None
      end
  end.

(** A whole document: one value, then nothing but whitespace. *)
Definition loads (s : string) : option json :=
  match parse_value (2 * String.length s + 2) s with
  | Some (v, rest) =>
      match skip_ws rest with
      | EmptyString => Some v
      | String _ _ => None
      end
  | None => None
  end.

End Json.

Import Json.

(* ====================================================================== *)
(** ** Structured output schemas *)
(* ====================================================================== *)

#[export] Instance result_ret : MRet result := @Ok.
#[export] Instance result_bind : MBind result := fun A B f r =>
  match r with
  | Ok a => f a
  | Raise e => Raise e
  end.

(** How a [float] is read off a document: the float a decimal literal
    denotes, which is an infinity when the literal overflows, and the float
    a string denotes for the validation, if it denotes one. *)
Record Floats := {
  of_literal : Q → pyfloat;
  of_string : string → option pyfloat
}.

(** Field-level validation, as pydantic applies it to a parsed document in
    its default, lax mode.  A [str] field takes a JSON string only.  A
    [float] field takes a number, a boolean, or a string that denotes a
    float.  A [bool] field takes a boolean, a number equal to 0 or 1, or one
    of the strings below.  Members the model does not declare are ignored. *)
Module Field.

Definition invalid {A} (msg : string) : result A :=
  Raise (Exn ValidationError msg).

Definition as_str (j : json) : result string :=
  match j with
  | JStr s => Ok s
  | _ => invalid "Input should be a valid string"
  end.

(** The strings read as a boolean, whatever the case of their letters. *)
Definition false_strings : list string := ["0"; "off"; "f"; "false"; "n"; "no"].
Definition true_strings : list string := ["1"; "on"; "t"; "true"; "y"; "yes"].

Definition str_as_bool (s : string) : result bool :=
  let l := ascii_lower s in
  if existsb (String.eqb l) false_strings then Ok false
  else if existsb (String.eqb l) true_strings then Ok true
  else invalid "Input should be a valid boolean, unable to interpret input".

Definition as_bool (F : Floats) (j : json) : result bool :=
  match j with
  | JBool b => Ok b
  | JStr s => str_as_bool s
  | JNum q =>
      match of_literal F q with
      | Finite x =>
          if Qeq_bool x 0 then Ok false
          else if Qeq_bool x 1 then Ok true
          else invalid "Input should be a valid boolean, unable to interpret input"
      | _ => invalid "Input should be a valid boolean"
      end
  | _ => invalid "Input should be a valid boolean"
  end.

Definition as_float (F : Floats) (j : json) : result pyfloat :=
  match j with
  | JNum q => Ok (of_literal F q)
  | JConst c => Ok (float_of_constant c)
  | JBool b => Ok (Finite (if b then 1 else 0))
  | JStr s =>
      match of_string F s with
      | Some x => Ok x
      | None => invalid "Input should be a valid number, unable to parse string as a number"
      end
  | _ => invalid "Input should be a valid number"
  end.

(** [Field(..., ge=lo, le=hi)] on a [float]: the value read is refused when
    it is above [hi] or below [lo].  Both comparisons are false on NaN. *)
Definition bounded (F : Floats) (lo hi : Q) (j : json) : result pyfloat :=
  x ← as_float F j;
  if float_lt (Finite hi) x then invalid "Input should be less than or equal to the bound"
  else if float_lt x (Finite lo) then invalid "Input should be greater than or equal to the bound"
  else Ok x.

(** [list[T]] *)
Definition as_list {A} (item : json → result A) (j : json) : result (list A) :=
  match j with
  | JArr items => mapM item items
  | _ => invalid "Input should be a valid list"
  end.

(** [Optional[T]]: [null] is accepted and gives [None]. *)
Definition as_optional {A} (item : json → result A) (j : json) : result (option A) :=
  match j with
  | JNull => Ok None
  | _ => a ← item j; Ok (Some a)
  end.

Definition as_object (j : json) : result (list (string * json)) :=
  match j with
  | JObj ms => Ok ms
  | _ => invalid "Input should be an object"
  end.

(** A field declared with [Field(...)]: it must be present. *)
Definition required {A} (ms : list (string * json)) (name : string)
    (conv : json → result A) : result A :=
  match lookup name ms with
  | Some v => conv v
  | None => invalid ("Field required: " +:+ name)
  end.

(** A field declared with a default. *)
Definition defaulted {A} (ms : list (string * json)) (name : string)
    (conv : json → result A) (default : A) : result A :=
  match lookup name ms with
  | Some v => conv v
  | None => Ok default
  end.

End Field.

Module SearchQuery.
(** A single search the agent wants to run. *)
Record t := { query : string; reason : string }.

Definition validate (j : json) : result t :=
  ms ← Field.as_object j;
  query ← Field.required ms "query" Field.as_str;
  reason ← Field.required ms "reason" Field.as_str;
  Ok {| query := query; reason := reason |}.
End SearchQuery.

Module AgentPlan.
(** Step 1: planner output. *)
Record t := {
  goal : string;
  search_queries : list SearchQuery.t;
  needs_url_fetch : bool;
  target_url : option string
}.

Definition validate (F : Floats) (j : json) : result t :=
  ms ← Field.as_object j;
  goal ← Field.required ms "goal" Field.as_str;
  search_queries ← Field.required ms "search_queries"
                     (Field.as_list SearchQuery.validate);
  needs_url_fetch ← Field.defaulted ms "needs_url_fetch" (Field.as_bool F) false;
  target_url ← Field.defaulted ms "target_url"
                 (Field.as_optional Field.as_str) None;
  Ok {| goal := goal; search_queries := search_queries;
        needs_url_fetch := needs_url_fetch; target_url := target_url |}.
End AgentPlan.

Module ExtractedFact.
(** A single fact extracted from a source. *)
Record t := { fact : string; source : string; confidence : pyfloat }.

Definition validate (F : Floats) (j : json) : result t :=
  ms ← Field.as_object j;
  fact ← Field.required ms "fact" Field.as_str;
  source ← Field.required ms "source" Field.as_str;
  confidence ← Field.required ms "confidence" (Field.bounded F 0 1);
  Ok {| fact := fact; source := source; confidence := confidence |}.
End ExtractedFact.

Module AgentAnswer.
(** Final structured answer returned to the caller. *)
Record t := {
  query : string;
  summary : string;
  key_facts : list ExtractedFact.t;
  sources : list string;
  confidence : pyfloat;
  follow_up_questions : list string
}.

Definition validate (F : Floats) (j : json) : result t :=
  ms ← Field.as_object j;
  query ← Field.required ms "query" Field.as_str;
  summary ← Field.required ms "summary" Field.as_str;
  key_facts ← Field.required ms "key_facts"
                (Field.as_list (ExtractedFact.validate F));
  sources ← Field.required ms "sources" (Field.as_list Field.as_str);
  confidence ← Field.required ms "confidence" (Field.bounded F 0 1);
  follow_up_questions ← Field.defaulted ms "follow_up_questions"
                          (Field.as_list Field.as_str) [];
  Ok {| query := query; summary := summary; key_facts := key_facts;
        sources := sources; confidence := confidence;
        follow_up_questions := follow_up_questions |}.
End AgentAnswer.

Module FactList.
(** The wrapper model declared inside [step_extract]. *)
Record t := { facts : list ExtractedFact.t }.

Definition validate (F : Floats) (j : json) : result t :=
  ms ← Field.as_object j;
  facts ← Field.required ms "facts" (Field.as_list (ExtractedFact.validate F));
  Ok {| facts := facts |}.
End FactList.

(** A [type[BaseModel]] as [llm_structured] uses it: a name, under which the
    runtime renders [model_json_schema()], and the validation of a document. *)
Record Model (T : Type) := {
  model_name : string;
  model_validate : json → result T
}.
Arguments model_name {T} _.
Arguments model_validate {T} _ _.

(** [cls.model_validate_json(raw)] *)
Definition model_validate_json {T} (cls : Model T) (raw : string) : result T :=
  match loads raw with
  | Some j => model_validate cls j
  | None => Field.invalid "Invalid JSON"
  end.

Definition AgentPlan_model (F : Floats) : Model AgentPlan.t :=
  {| model_name := "AgentPlan"; model_validate := AgentPlan.validate F |}.
Definition FactList_model (F : Floats) : Model FactList.t :=
  {| model_name := "FactList"; model_validate := FactList.validate F |}.
Definition AgentAnswer_model (F : Floats) : Model AgentAnswer.t :=
  {| model_name := "AgentAnswer"; model_validate := AgentAnswer.validate F |}.
Definition ExtractedFact_model (F : Floats) : Model ExtractedFact.t :=
  {| model_name := "ExtractedFact"; model_validate := ExtractedFact.validate F |}.

(* ====================================================================== *)
(** ** The agent module *)
(* ====================================================================== *)

Module Agent.

(** *** Outside world *)

(** One entry per network request the module issues, in order. *)
Inductive event :=
| LlmCall (api_key model : string) (temperature : Q) (max_tokens : Z)
          (system user : string)
| SearchCall (api_key q : string) (num : Z)
| FetchCall (url : string).

Definition is_llm (ev : event) : bool :=
  match ev with LlmCall _ _ _ _ _ _ => true | _ => false end.

(** One search result as [search_web] builds it.  The three values come out
    of the provider's document unchecked, so they are JSON values. *)
Record Hit := { title : json; snippet : json; link : json }.

(** The libraries and services the module talks to.  A provider sees the
    requests issued before the present one, so its answers may change from
    call to call. *)
Record World := {
  (** [client.chat.completions.create(...)]: raises, or returns the
      [message.content] of each choice. *)
  chat_create : list event → string → string → result (list (option string));
  (** [httpx.post] to the search endpoint: raises, or returns the body. *)
  httpx_post : list event → string → Z → result string;
  (** [httpx.get]: raises, or returns [resp.text]. *)
  httpx_get : list event → string → result string;
  (** The BeautifulSoup pipeline of [fetch_url]; [None] when [bs4] is not
      installed and the import raises [ImportError]. *)
  bs4_get_text : option (string → result string);
  (** The floats the validation reads off number literals and strings. *)
  floats : Floats;
  (** [json.dumps(cls.model_json_schema(), indent=2)], by model name. *)
  schema_json_of : string → string;
  (** [json.dumps([f.model_dump() for f in facts], indent=2)] *)
  dumps_facts : list ExtractedFact.t → string;
  (** [str(v)] for a value that is not a [str]. *)
  str_of_json : json → string;
  (** [str(l)] for a list of strings and for a list of results. *)
  str_of_strings : list string → string;
  str_of_hits : list Hit → string
}.

(** *** Computations: a log of requests, and exceptions

    A computation takes the log of the requests issued so far and gives a
    value or an exception together with the log extended by its own
    requests.  The [print] statements of the module are not part of it. *)

Definition M (A : Type) : Type := list event → result A * list event.

#[export] Instance M_ret : MRet M := fun A a log => (Ok a, log).
#[export] Instance M_bind : MBind M := fun A B f m log =>
  match m log with
  | (Ok a, log') => f a log'
  | (Raise e, log') => (Raise e, log')
  end.

Definition lift {A} (r : result A) : M A := fun log => (r, log).

(** [try: body  except Exception as e: handler e] *)
Definition try_except {A} (body : M A) (handler : exn → M A) : M A :=
  fun log =>
    match body log with
    | (Ok a, log') => (Ok a, log')
    | (Raise e, log') => handler e log'
    end.

(** [for x in xs: acc = body acc x] *)
Fixpoint for_each {A B} (xs : list A) (acc : B) (body : B → A → M B) : M B :=
  match xs with
  | [] => mret acc
  | x :: rest => acc' ← body acc x; for_each rest acc' body
  end.

(** *** Module globals *)

Definition GROQ_MODEL : string := "llama3-70b-8192".
Definition MAX_STEPS : Z := 5.

Record Client := { client_api_key : string }.

(** [Groq(api_key=...)]: the constructor refuses a missing key. *)
Definition Groq (api_key : option string) : result Client :=
  match api_key with
  | Some k => Ok {| client_api_key := k |}
  | None => Raise (Exn GroqError "The api_key client option must be set")
  end.

Record Globals := {
  GROQ_API_KEY : string;
  SERPER_API_KEY : string;
  client : Client
}.

(** [os.getenv(name, default)] *)
Definition getenv (environ : gmap string string) (name default : string) : string :=
  match environ !! name with
  | Some v => v
  | None => default
  end.

(** The statements the module runs when it is loaded; [environ] is the
    process environment after [load_dotenv()]. *)
Definition module_init (environ : gmap string string) : result Globals :=
  let GROQ_API_KEY := getenv environ "GROQ_API_KEY" "YOUR_GROQ_API_KEY_HERE" in
  let SERPER_API_KEY := getenv environ "SERPER_API_KEY" EmptyString in
  client ← Groq (Some GROQ_API_KEY);
  Ok {| GROQ_API_KEY := GROQ_API_KEY; SERPER_API_KEY := SERPER_API_KEY;
        client := client |}.

(** The insertion-ordered [dict[str, Any]] of raw results: a value is a
    list of search results or the text of a fetched page. *)
Inductive raw_value :=
| Results (hits : list Hit)
| Page (text : string).

Definition raw_dict := list (string * raw_value).

(** [d[k] = v]: replaces the value in place when [k] is present, else
    appends the entry. *)
Fixpoint dict_set (d : raw_dict) (k : string) (v : raw_value) : raw_dict :=
  match d with
  | [] => [(k, v)]
  | (k', v') :: rest =>
      if String.eqb k k' then (k', v) :: rest
      else (k', v') :: dict_set rest k v
  end.

Fixpoint dict_get (d : raw_dict) (k : string) : option raw_value :=
  match d with
  | [] => None
  | (k', v') :: rest => if String.eqb k k' then Some v' else dict_get rest k
  end.

Definition dict_keys (d : raw_dict) : list string := map fst d.

(** [sep.join(lines)] *)
Fixpoint join (sep : string) (lines : list string) : string :=
  match lines with
  | [] => EmptyString
  | [l] => l
  | l :: rest => l +:+ sep +:+ join sep rest
  end.

(** *** Dynamic operations on a decoded document *)

(** The keys of the dict a JSON object decodes to: each once, in the order
    of first appearance. *)
Fixpoint object_keys (ms : list (string * json)) (seen : list string) : list string :=
  match ms with
  | [] => []
  | (k, _) :: rest =>
      if existsb (String.eqb k) seen then object_keys rest seen
      else k :: object_keys rest (k :: seen)
  end.

Fixpoint chars (s : string) : list string :=
  match s with
  | EmptyString => []
  | String c r => String c EmptyString :: chars r
  end.

(** [v.get(key, default)]: only a dict has the method. *)
Definition py_get (v : json) (key : string) (default : json) : result json :=
  match v with
  | JObj ms =>
      Ok (match lookup key ms with Some x => x | None => default end)
  | _ => Raise (Exn AttributeError "object has no attribute 'get'")
  end.

(** [for r in v]: a list yields its items, a dict its keys, a string its
    characters; nothing else can be iterated. *)
Definition py_iter (v : json) : result (list json) :=
  match v with
  | JArr items => Ok items
  | JObj ms => Ok (map JStr (object_keys ms []))
  | JStr s => Ok (map JStr (chars s))
  | _ => Raise (Exn TypeError "object is not iterable")
  end.

(** [resp.json()] *)
Definition resp_json (body : string) : result json :=
  match loads body with
  | Some v => Ok v
  | None => Raise (Exn JSONDecodeError "Expecting value")
  end.

(** [re.sub(r"<[^>]+>", " ", text)].  [tag_end s false] is called just after
    a [<]: the pattern matches when at least one character other than [>]
    follows and the run of such characters ends at a [>]. *)
Fixpoint tag_end (s : string) (seen : bool) : option string :=
  match s with
  | EmptyString => None
  | String c r =>
      if Ascii.eqb c ">" then (if seen then Some r else None)
      else tag_end r true
  end.

Fixpoint re_sub_tags_fuel (fuel : nat) (s : string) : string :=
  match fuel, s with
  | O, _ => s
  | _, EmptyString => EmptyString
  | S fuel', String c r =>
      if Ascii.eqb c "<" then
        match tag_end r false with
        | Some rest => String " " (re_sub_tags_fuel fuel' rest)
        | None => String c (re_sub_tags_fuel fuel' r)
        end
      else String c (re_sub_tags_fuel fuel' r)
  end.

Definition re_sub_tags (s : string) : string :=
  re_sub_tags_fuel (String.length s) s.

Section WithWorld.

Variable W : World.
Variable G : Globals.

(** *** Requests *)

Definition chat_completions_create (temperature : Q) (max_tokens : Z)
    (system user : string) : M (list (option string)) :=
  fun log =>
    (chat_create W log system user,
     log ++ [LlmCall (client_api_key (client G)) GROQ_MODEL temperature
                     max_tokens system user]).

Definition post_search (q : string) (num : Z) : M string :=
  fun log =>
    (httpx_post W log q num, log ++ [SearchCall (SERPER_API_KEY G) q num]).

Definition get_url (url : string) : M string :=
  fun log => (httpx_get W log url, log ++ [FetchCall url]).

(** *** LLM helper *)

(** Default values of keyword parameters; a call that leaves the parameter
    out passes the default. *)
Definition default_temperature : Q := 2 # 10.
Definition default_text_temperature : Q := 3 # 10.
Definition default_num_results : Z := 5.
Definition default_max_chars : Z := 4000.

(** [response.choices[0].message.content] *)
Definition first_content (choices : list (option string)) : result string :=
  c ← index choices 0;
  match c with
  | Some text => Ok text
  | None => Raise (Exn AttributeError "'NoneType' object has no attribute 'strip'")
  end.

(** The two fence-stripping statements between the request and the
    validation. *)
Definition strip_fences (content : string) : result string :=
  let raw := strip content in
  raw ← (if startswith raw "```" then
           raw ← index (split raw "```") 1;
           Ok (if startswith raw "json" then slice_from raw 4 else raw)
         else Ok raw);
  Ok (strip raw).

(** The system message: the caller's instruction followed by the output
    directive and the schema.  The dash of the directive lies outside the
    code points of [string] and stands here as its UTF-8 bytes. *)
Definition full_system {T} (system_prompt : string) (output_schema : Model T) : string :=
  let schema_json := schema_json_of W (model_name output_schema) in
  system_prompt +:+ nl +:+ nl
  +:+ "You MUST respond with ONLY a valid JSON object — no markdown, no explanation, no backticks."
  +:+ nl +:+ "The JSON must exactly match this schema:" +:+ nl
  +:+ schema_json.

Definition llm_structured {T} (system_prompt user_prompt : string)
    (output_schema : Model T) (temperature : Q) : M T :=
  response ← chat_completions_create temperature 2048
               (full_system system_prompt output_schema) user_prompt;
  content ← lift (first_content response);
  raw ← lift (strip_fences content);
  lift (model_validate_json output_schema raw).

(** Plain text LLM call (no schema enforcement). *)
Definition llm_text (system_prompt user_prompt : string) (temperature : Q) : M string :=
  response ← chat_completions_create temperature 1024 system_prompt user_prompt;
  content ← lift (first_content response);
  mret (strip content).

(** *** Internet tools *)

Definition mock_result (query : string) : Hit :=
  {| title := JStr "Mock Result";
     snippet := JStr ("Mock search result for '" +:+ query +:+ "'");
     link := JStr "https://example.com" |}.

(** The dict appended for one item of the provider's result list. *)
Definition hit_of (r : json) : result Hit :=
  t ← py_get r "title" (JStr EmptyString);
  s ← py_get r "snippet" (JStr EmptyString);
  l ← py_get r "link" (JStr EmptyString);
  Ok {| title := t; snippet := s; link := l |}.

Definition search_web (query : string) (num_results : Z) : M (list Hit) :=
  if String.eqb (SERPER_API_KEY G) EmptyString then mret [mock_result query]
  else
    try_except
      (body ← post_search query num_results;
       data ← lift (resp_json body);
       organic ← lift (py_get data "organic" (JArr []));
       items ← lift (py_iter organic);
       for_each items [] (fun results r =>
         hit ← lift (hit_of r);
         mret (results ++ [hit])))
      (fun e => mret []).

(** The text of a fetched page: BeautifulSoup when it can be imported, else
    the regular expression. *)
Definition extract_text (resp_text : string) : result string :=
  match bs4_get_text W with
  | Some get_text => get_text resp_text
  | None => Ok (re_sub_tags resp_text)
  end.

(** [f"[ERROR fetching {url}: {e}]"] *)
Definition error_placeholder (url : string) (e : exn) : string :=
  "[ERROR fetching " +:+ url +:+ ": " +:+ str_of_exn e +:+ "]".

Definition fetch_url (url : string) (max_chars : Z) : M string :=
  try_except
    (resp_text ← get_url url;
     text ← lift (extract_text resp_text);
     mret (slice_to text max_chars))
    (fun e => mret (error_placeholder url e)).

(** *** Chain steps *)

Definition step_plan (query : string) : M AgentPlan.t :=
  llm_structured
    ("You are a research planning agent. "
     +:+ "Given a user query, decide what web searches to run to answer it thoroughly.")
    ("User query: " +:+ query)
    (AgentPlan_model (floats W)) default_temperature.

(** Python truth value of an [Optional[str]]. *)
Definition truthy (s : option string) : bool :=
  match s with
  | Some t => negb (String.eqb t EmptyString)
  | None => false
  end.

(** One round of the loop of [step_execute]. *)
Definition search_task (raw_results : raw_dict) (sq : SearchQuery.t) : M raw_dict :=
  results ← search_web (SearchQuery.query sq) default_num_results;
  mret (dict_set raw_results (SearchQuery.query sq) (Results results)).

(** [plan.needs_url_fetch and plan.target_url] *)
Definition fetch_planned (plan : AgentPlan.t) : bool :=
  AgentPlan.needs_url_fetch plan && truthy (AgentPlan.target_url plan).

Definition step_execute (plan : AgentPlan.t) : M raw_dict :=
  raw_results ← for_each (AgentPlan.search_queries plan) [] search_task;
  if fetch_planned plan then
    page ← fetch_url (default EmptyString (AgentPlan.target_url plan)) default_max_chars;
    mret (dict_set raw_results "__url_fetch__" (Page page))
  else mret raw_results.

(** [f"{v}"] *)
Definition fmt (v : json) : string :=
  match v with
  | JStr s => s
  | _ => str_of_json W v
  end.

Definition fmt_raw (v : raw_value) : string :=
  match v with
  | Results hits => str_of_hits W hits
  | Page text => text
  end.

(** The loop of [step_extract] over the collected results; the state is
    [(context_lines, all_sources)].  Under another key than the fetch key
    the value is iterated: a list of results gives its results, a string its
    characters, and subscripting a character with ['link'] is a type error. *)
Definition extract_context (raw_results : raw_dict) : result (list string * list json) :=
  foldl (fun (st : result (list string * list json)) (entry : string * raw_value) =>
           '(context_lines, all_sources) ← st;
           let '(search_q, results) := entry in
           if String.eqb search_q "__url_fetch__" then
             Ok (context_lines
                   ++ ["[WEBPAGE CONTENT]" +:+ nl +:+ fmt_raw results +:+ nl],
                 all_sources)
           else
             match results with
             | Results hits =>
                 Ok (context_lines
                       ++ map (fun r => "Source: " +:+ fmt (link r) +:+ nl
                                        +:+ "Title: " +:+ fmt (title r) +:+ nl
                                        +:+ fmt (snippet r) +:+ nl) hits,
                     all_sources ++ map link hits)
             | Page EmptyString => Ok (context_lines, all_sources)
             | Page (String _ _) =>
                 Raise (Exn TypeError "string indices must be integers")
             end)
        (Ok ([], [])) raw_results.

Definition step_extract (query : string) (raw_results : raw_dict)
  : M (list ExtractedFact.t) :=
  '(context_lines, all_sources) ← lift (extract_context raw_results);
  let context := join (nl +:+ "---" +:+ nl) context_lines in
  fact_list ← llm_structured
    ("You are a fact extraction agent. "
     +:+ "Extract the most relevant, verifiable facts from the provided search results. "
     +:+ "Always include the source URL for each fact.")
    ("Original question: " +:+ query +:+ nl +:+ nl
     +:+ "Search results:" +:+ nl +:+ context)
    (FactList_model (floats W)) default_temperature;
  mret (FactList.facts fact_list).

(** [list({f.source for f in facts})]: the distinct sources, each once. *)
Definition known_sources (facts : list ExtractedFact.t) : list string :=
  elements (list_to_set (map ExtractedFact.source facts) : gset string).

Definition synthesize_prompt (query : string) (facts : list ExtractedFact.t) : string :=
  let facts_text := dumps_facts W facts in
  let sources := known_sources facts in
  "Original question: " +:+ query +:+ nl +:+ nl
  +:+ "Extracted facts:" +:+ nl +:+ facts_text +:+ nl +:+ nl
  +:+ "Known sources: " +:+ str_of_strings W sources.

Definition step_synthesize (query : string) (facts : list ExtractedFact.t)
    (raw_results : raw_dict) : M AgentAnswer.t :=
  answer ← llm_structured
    ("You are a research synthesis agent. "
     +:+ "Given extracted facts, produce a clear, accurate, well-sourced answer. "
     +:+ "Include follow-up questions the user might want to explore.")
    (synthesize_prompt query facts)
    (AgentAnswer_model (floats W)) default_temperature;
  mret answer.

(** *** Main agent *)

Definition run_agent (query : string) : M AgentAnswer.t :=
  plan ← step_plan query;
  raw_results ← step_execute plan;
  facts ← step_extract query raw_results;
  answer ← step_synthesize query facts raw_results;
  mret answer.

End WithWorld.

(** Loading the module and running its entry point under [__main__]. *)
Definition main_query : string := "What are the latest AI models released in 2025?".

Definition program (W : World) (environ : gmap string string)
  : result AgentAnswer.t * list event :=
  match module_init environ with
  | Ok G => run_agent W G main_query []
  | Raise e => (Raise e, [])
  end.

End Agent.

Import Agent.

(* ====================================================================== *)
(** ** Scripted worlds *)
(* ====================================================================== *)

(** Number of requests of one kind in a log. *)
Definition count (p : event → bool) (log : list event) : nat :=
  length (List.filter p log).

(** A world whose completion provider answers its n-th request with the
    n-th text of [completions] (one choice each) and fails once the script
    is exhausted, whose search endpoint always answers [search] and whose
    pages always load as [page].  [bs4] is not installed; number literals
    are read as they stand, and of the strings only those listed denote a
    float. *)
Definition sample_floats : Floats :=
  {| of_literal := Finite;
     of_string := fun s =>
       if String.eqb s "0.5" then Some (Finite (1 # 2))
       else if String.eqb s "1.5" then Some (Finite (3 # 2))
       else if String.eqb s "NaN" then Some Nan
       else None |}.

Definition scripted (completions : list string) (search page : result string) : World :=
  {| chat_create := fun log _ _ =>
       match nth_error completions (count is_llm log) with
       | Some text => Ok [Some text]
       | None => Raise (Exn APIError "no completion left")
       end;
     httpx_post := fun _ _ _ => search;
     httpx_get := fun _ _ => page;
     bs4_get_text := None;
     floats := sample_floats;
     schema_json_of := fun name => name;
     dumps_facts := fun facts => join "," (map ExtractedFact.fact facts);
     str_of_json := fun _ => "<value>";
     str_of_strings := fun l => "[" +:+ join ", " l +:+ "]";
     str_of_hits := fun _ => "<results>" |}.

Definition unreachable : result string :=
  Raise (Exn TransportError "connection refused").

(** Globals as [module_init] leaves them when only [SERPER_API_KEY] and
    [GROQ_API_KEY] are set to the given values. *)
Definition globals (groq serper : string) : Globals :=
  {| GROQ_API_KEY := groq; SERPER_API_KEY := serper;
     client := {| client_api_key := groq |} |}.

Definition plan_text : string :=
  js "{'goal':'g','search_queries':[{'query':'capital of France','reason':'r'}]}".
Definition facts_text : string :=
  js "{'facts':[{'fact':'Paris is the capital of France','source':'https://x.test','confidence':0.95}]}".

(* ====================================================================== *)
(** ** Properties under study *)
(* ====================================================================== *)

(** What [llm_structured] makes of the provider's reply to its request. *)
Definition structured_reply {T} (W : World) (system user : string)
    (cls : Model T) (log : list event) : result T :=
  choices ← chat_create W log system user;
  content ← first_content choices;
  raw ← strip_fences content;
  model_validate_json cls raw.

(** The request [llm_structured] issues for a schema, and what it makes of
    the provider's reply to that request. *)
Definition completion_request {T} (W : World) (G : Globals) (system user : string)
    (cls : Model T) : event :=
  LlmCall (client_api_key (client G)) GROQ_MODEL default_temperature 2048
          (full_system W system cls) user.

Definition completion_reply {T} (W : World) (system user : string) (cls : Model T)
    (log : list event) : result T :=
  structured_reply W (full_system W system cls) user cls log.

(** The prompts of the three steps that ask for a completion. *)
Definition planner_system : string :=
  "You are a research planning agent. "
  +:+ "Given a user query, decide what web searches to run to answer it thoroughly.".

Definition planner_user (query : string) : string := "User query: " +:+ query.

Definition extractor_system : string :=
  "You are a fact extraction agent. "
  +:+ "Extract the most relevant, verifiable facts from the provided search results. "
  +:+ "Always include the source URL for each fact.".

(** The extractor's user prompt for a mapping of raw results; building it
    fails when a value under a search key cannot be read as results. *)
Definition extractor_user (W : World) (query : string) (raw_results : raw_dict)
  : result string :=
  '(context_lines, all_sources) ← extract_context W raw_results;
  Ok ("Original question: " +:+ query +:+ nl +:+ nl
      +:+ "Search results:" +:+ nl +:+ join (nl +:+ "---" +:+ nl) context_lines).

Definition synthesizer_system : string :=
  "You are a research synthesis agent. "
  +:+ "Given extracted facts, produce a clear, accurate, well-sourced answer. "
  +:+ "Include follow-up questions the user might want to explore.".

(** Only [ValidationError] comes out of a validation. *)
Definition raises_validation {A} (r : result A) : Prop :=
  ∀ e, r = Raise e → exn_cls e = ValidationError.





(** The request [search_web] logs when it reaches the network. *)
Definition search_request (G : Globals) (query : string) (num_results : Z) : event :=
  SearchCall (SERPER_API_KEY G) query num_results.

(** The shape [search_web] expects of the provider's document: an object
    whose [organic] member, when present, is a list of objects. *)
Definition is_object (j : json) : bool :=
  match j with JObj _ => true | _ => false end.

Definition well_formed_results (data : json) : bool :=
  match data with
  | JObj ms =>
      match lookup "organic" ms with
      | None => true
      | Some (JArr items) => forallb is_object items
      | Some _ => false
      end
  | _ => false
  end.

(** A response body that is not JSON or not of that shape. *)
Definition malformed_body (body : string) : bool :=
  match loads body with
  | None => true
  | Some data => negb (well_formed_results data)
  end.

(** The queries of a plan, in task order. *)
Definition planned_queries (plan : AgentPlan.t) : list string :=
  map SearchQuery.query (AgentPlan.search_queries plan).

(** [J] between an opening fence, with or without a language tag, and a
    closing fence, each on a line of its own. *)
Definition fenced (tag J : string) : string :=
  "```" +:+ tag +:+ nl +:+ J +:+ nl +:+ "```".


(** A synthesizer reply that names the same source twice. *)
Definition repeated_sources_text : string :=
  js "{'query':'q','summary':'s','key_facts':[],'sources':['https://x.test','https://x.test'],'confidence':0.9}".

(** The fence marker. *)
Definition fence : string := "```".

(** A fact whose text quotes a shell command between fence markers. *)
Definition quoted_command_text : string :=
  js "{'fact':'run ```ls``` first','source':'https://x.test','confidence':0.5}".

(** What [llm_structured] returns for [ExtractedFact] when the provider's
    reply is [content]. *)
Definition fact_reply (content : string) : result ExtractedFact.t :=
  fst (llm_structured (scripted [content] unreachable unreachable)
         (globals "k" "s") "sys" "user" (ExtractedFact_model sample_floats)
         default_temperature []).

(** Every character of [p] differs from [x]. *)
Fixpoint avoids (x : ascii) (p : string) : Prop :=
  match p with
  | EmptyString => True
  | String a p' => a ≠ x ∧ avoids x p'
  end.

(** A computation only appends to the log of requests. *)
Definition extends {A} (m : M A) : Prop :=
  ∀ log r log', m log = (r, log') → ∃ suffix, log' = log ++ suffix.

(** *** The claims that the code does not meet, as stated *)

(** C1: whenever the first reply does not validate, a second request follows. *)
Definition retries_once_on_invalid_reply : Prop :=
  ∀ (W : World) (G : Globals) (system user : string) log,
    is_ok (structured_reply W (full_system W system (AgentPlan_model (floats W))) user
             (AgentPlan_model (floats W)) log) = false →
    count is_llm (snd (llm_structured W G system user (AgentPlan_model (floats W))
                         default_temperature log))
    = (count is_llm log + 2)%nat.


(** C5: a document that validates gives the same object whether the reply
    is the document or the document between fences. *)
Definition fences_are_transparent : Prop :=
  ∀ (J : string) (f : ExtractedFact.t),
    model_validate_json (ExtractedFact_model sample_floats) J = Ok f →
    ∀ tag, tag = EmptyString ∨ tag = "json" →
      (raw ← strip_fences J; model_validate_json (ExtractedFact_model sample_floats) raw) = Ok f
      ∧ (raw ← strip_fences (fenced tag J);
         model_validate_json (ExtractedFact_model sample_floats) raw) = Ok f.

(** C6: whatever [fetch_url] returns is at most [max_chars] long. *)
Definition fetch_url_always_truncated : Prop :=
  ∀ (W : World) (url : string) (max_chars : Z) log text log',
    fetch_url W url max_chars log = (Ok text, log') →
    Z.of_nat (String.length text) <= max_chars.

(** C7: the sources of a synthesized answer are pairwise distinct. *)
Definition synthesized_sources_distinct : Prop :=
  ∀ (W : World) (G : Globals) query facts raw log a log',
    step_synthesize W G query facts raw log = (Ok a, log') →
    NoDup (AgentAnswer.sources a).

(** C8: without [GROQ_API_KEY] in the environment the program stops with an
    error before any request is issued. *)
Definition fails_fast_without_credential : Prop :=
  ∀ (W : World) (environ : gmap string string),
    environ !! "GROQ_API_KEY" = None →
    ∃ e, program W environ = (Raise e, []).



(* ====================================================================== *)
(** ** Further properties of the agent module *)
(* ====================================================================== *)

Definition is_search (ev : event) : bool :=
  match ev with SearchCall _ _ _ => true | _ => false end.

Definition is_fetch (ev : event) : bool :=
  match ev with FetchCall _ => true | _ => false end.

(** The requests of the Execute step for a plan: with a search credential
    one search per task, in plan order, then the fetch when one is planned. *)
Definition execute_requests (G : Globals) (plan : AgentPlan.t) : list event :=
  (if String.eqb (SERPER_API_KEY G) EmptyString then []
   else map (fun sq => SearchCall (SERPER_API_KEY G) (SearchQuery.query sq)
                         default_num_results)
            (AgentPlan.search_queries plan))
  ++ (if fetch_planned plan
      then [FetchCall (default EmptyString (AgentPlan.target_url plan))]
      else []).

(** A completion request as [llm_structured] issues it. *)
Definition structured_request (G : Globals) (ev : event) : Prop :=
  match ev with
  | LlmCall key model temperature max_tokens _ _ =>
      key = client_api_key (client G) ∧ model = GROQ_MODEL
      ∧ temperature = default_temperature ∧ max_tokens = 2048
  | _ => True
  end.

(** Every value stored under a key other than the fetch key is a list of
    search results. *)
Definition results_entry (entry : string * raw_value) : Prop :=
  fst entry = "__url_fetch__" ∨ ∃ hits, snd entry = Results hits.


(** Occurrence of a character in a text. *)
Fixpoint has_char (x : ascii) (s : string) : bool :=
  match s with
  | EmptyString => false
  | String c r => Ascii.eqb c x || has_char x r
  end.

(** Whether the pattern of [fetch_url]'s regular expression, a [<], at
    least one character other than [>], and a [>], matches somewhere. *)
Fixpoint has_tag (s : string) : bool :=
  match s with
  | EmptyString => false
  | String c r =>
      (Ascii.eqb c "<" && match tag_end r false with Some _ => true | None => false end)
      || has_tag r
  end.

(* ====================================================================== *)
(** ** The restaurant API ([backend/main.py]) *)
(* ====================================================================== *)

Module Tastefind.

(** The handlers run in a state-and-exception monad over the log of their
    network requests.  The two keys of the module are fields of [Config];
    the providers and the conversions of the Python runtime that depend on
    floating point or on text rendering are fields of [Services], and every
    property below holds for all of them.  A number of a decoded document
    is the rational it denotes, so a conversion acts on that value. *)

(** *** Python values *)

(** [min(a, b)]: the first argument unless the second is smaller. *)
Definition py_min (a b : pyfloat) : pyfloat := if float_lt b a then b else a.

(** Truth value of a decoded JSON value. *)
Definition json_truthy (v : json) : bool :=
  match v with
  | JNull => false
  | JBool b => b
  | JNum q => negb (Qeq_bool q 0)
  | JConst _ => true
  | JStr s => negb (String.eqb s EmptyString)
  | JArr items => match items with [] => false | _ => true end
  | JObj ms => match ms with [] => false | _ => true end
  end.

(** [str(n)] for a natural number and for an [int]. *)
Definition str_of_nat (n : nat) : string := NilEmpty.string_of_uint (Nat.to_uint n).

Definition str_of_int (z : Z) : string :=
  if z <? 0 then "-" +:+ str_of_nat (Z.to_nat (- z)) else str_of_nat (Z.to_nat z).

(** [s.lower()] on the code points below 256. *)
Definition lower_char (c : ascii) : ascii :=
  let n := code c in
  if ((65 <=? n) && (n <=? 90))
     || ((192 <=? n) && (n <=? 222) && negb (n =? 215))
  then ascii_of_N (Z.to_N (n + 32)) else c.

Fixpoint lower (s : string) : string :=
  match s with
  | EmptyString => EmptyString
  | String c r => String (lower_char c) (lower r)
  end.

(** [\w] on the code points below 256: letters, digits and numeric
    characters, and the underscore. *)
Definition is_word (c : ascii) : bool :=
  let n := code c in
  ((48 <=? n) && (n <=? 57)) || ((65 <=? n) && (n <=? 90)) || (n =? 95)
  || ((97 <=? n) && (n <=? 122))
  || (n =? 170) || (n =? 178) || (n =? 179) || (n =? 181) || (n =? 185) || (n =? 186)
  || ((188 <=? n) && (n <=? 190))
  || ((192 <=? n) && (n <=? 214)) || ((216 <=? n) && (n <=? 246))
  || ((248 <=? n) && (n <=? 255)).

(** [re.sub(r'\W+', '', s)] *)
Fixpoint remove_non_word (s : string) : string :=
  match s with
  | EmptyString => EmptyString
  | String c r => if is_word c then String c (remove_non_word r) else remove_non_word r
  end.

(** [s.replace(old, new)] for a non-empty [old]. *)
Definition replace (s old new : string) : string := join new (split s old).

(** [l[:k]] on a list, for an [int] k. *)
Definition list_slice_to {A} (l : list A) (k : Z) : list A :=
  let n := Z.of_nat (length l) in
  let stop := if k <? 0 then Z.max 0 (n + k) else Z.min k n in
  firstn (Z.to_nat stop) l.

(** [str.splitlines()] on the code points below 256: LF, VT, FF, CR, FS, GS,
    RS and NEL end a line, and CR LF ends one line.  [after_cr] tells that
    the previous character was a CR. *)
Definition is_linebreak (c : ascii) : bool :=
  let n := code c in
  ((10 <=? n) && (n <=? 13)) || ((28 <=? n) && (n <=? 30)) || (n =? 133).

Fixpoint lines_from (after_cr : bool) (s : string) : list string :=
  match s with
  | EmptyString => []
  | String c r =>
      if after_cr && (code c =? 10) then lines_from false r
      else if is_linebreak c then EmptyString :: lines_from (code c =? 13) r
      else match lines_from false r with
           | [] => [String c EmptyString]
           | l :: ls => String c l :: ls
           end
  end.

Definition splitlines (s : string) : list string := lines_from false s.

(** *** Exceptions and computations *)

(** What a handler of the API can raise: FastAPI's [HTTPException], or
    another exception, given by the name of its class. *)
Inductive error :=
| HTTPException (status_code : Z) (detail : string)
| Exception (cls : string) (message : string).

Definition class_name (c : exn_class) : string :=
  match c with
  | ValidationError => "ValidationError"
  | JSONDecodeError => "JSONDecodeError"
  | AttributeError => "AttributeError"
  | TypeError => "TypeError"
  | IndexError => "IndexError"
  | TransportError => "TransportError"
  | APIError => "APIError"
  | GroqError => "GroqError"
  end.

Definition error_of_exn (e : exn) : error :=
  Exception (class_name (exn_cls e)) (exn_msg e).

Inductive outcome (A : Type) :=
| Return (a : A)
| Throw (err : error).
Arguments Return {A} a.
Arguments Throw {A} err.

Definition is_return {A} (o : outcome A) : bool :=
  match o with Return _ => true | Throw _ => false end.

(** One entry per network request of the API. *)
Inductive call :=
| SerperPost (path q : string) (num : Z)
| GroqCreate (max_tokens : Z) (prompt : string).

Definition is_completion (c : call) : bool :=
  match c with GroqCreate _ _ => true | SerperPost _ _ _ => false end.

Definition Act (A : Type) : Type := list call → outcome A * list call.

#[export] Instance Act_ret : MRet Act := fun A a log => (Return a, log).
#[export] Instance Act_bind : MBind Act := fun A B f m log =>
  match m log with
  | (Return a, log') => f a log'
  | (Throw err, log') => (Throw err, log')
  end.

Definition throw {A} (err : error) : Act A := fun log => (Throw err, log).

(** An operation of the Python runtime inside a handler. *)
Definition py {A} (r : result A) : Act A :=
  fun log => (match r with Ok a => Return a | Raise e => Throw (error_of_exn e) end, log).

(** [try: body  except HTTPException: raise  except Exception as e: handler e];
    without the first clause when [reraise_http] is false. *)
Definition try_except_exception {A} (reraise_http : bool) (body : Act A)
    (handler : error → Act A) : Act A :=
  fun log =>
    match body log with
    | (Return a, log') => (Return a, log')
    | (Throw (HTTPException s d), log') =>
        if reraise_http then (Throw (HTTPException s d), log')
        else handler (HTTPException s d) log'
    | (Throw err, log') => handler err log'
    end.

(** *** Models *)

Module Restaurant.
Record t := {
  id : string;
  name : string;
  rating : pyfloat;
  review_count : Z;
  price : option string;
  categories : list string;
  address : string;
  phone : option string;
  maps_url : string;
  image_url : option string;
  distance_meters : option pyfloat
}.
End Restaurant.

Module RecommendationRequest.
Record t := {
  location : string;
  cuisine : option string;
  budget : option string;
  occasion : option string;
  dietary_restrictions : option string;
  radius_meters : option Z;
  limit : option Z;
  lat : option pyfloat;
  lng : option pyfloat
}.
End RecommendationRequest.

Module RecommendationResponse.
Record t := {
  restaurants : list Restaurant.t;
  ai_recommendation : string;
  top_pick : option string
}.
End RecommendationResponse.

(** One entry of [ReviewsResponse.reviews], a plain dict: the reviewer's
    name and the text come out of the provider's document unchecked. *)
Record Review := {
  user_name : json;
  review_rating : Z;
  text : json;
  time_created : option string
}.

Module ReviewsResponse.
Record t := { reviews : list Review; ai_summary : string }.
End ReviewsResponse.

(** *** Configuration and services *)

(** The two keys of the module, which assigns them non-empty literals. *)
Record Config := { SERPER_API_KEY : string; GROQ_API_KEY : string }.

Definition SERPER_URL : string := "https://google.serper.dev".
Definition GROQ_MODEL : string := "llama-3.3-70b-versatile".

(** [BUDGET_PRICE.get(k)] *)
Definition BUDGET_PRICE (k : string) : option string :=
  if String.eqb k "low" then Some "$"
  else if String.eqb k "medium" then Some "$$"
  else if String.eqb k "high" then Some "$$$"
  else None.

(** The services and the library functions the handlers rely on. *)
Record Services := {
  (** [client.post(SERPER_URL + path, json={"q": q, "num": num})]: raises, or
      returns the status code and the body. *)
  serper_post : list call → string → string → Z → result (Z * string);
  (** [client.chat.completions.create(...)] with one user message: raises,
      or returns the [message.content] of each choice. *)
  groq_create : list call → Z → string → result (list (option string));
  (** [resp.json()]: raises, or returns the decoded document. *)
  response_json : string → result json;
  (** [float(v)] and [int(v)] for a number [v] of a document, and for a
      string; [None] where the conversion raises. *)
  float_of_number : Q → option pyfloat;
  float_of_str : string → option pyfloat;
  int_of_number : Q → option Z;
  int_of_str : string → option Z;
  (** [f"{v}"] for a value that is not a [str], [f"{x:.4f}"], and
      [json.dumps([r.model_dump(exclude=...) for r in restaurants], indent=2)]. *)
  str_of_value : json → string;
  str_of_coord : pyfloat → string;
  dumps_restaurants : list Restaurant.t → string;
  (** [str(e)] *)
  str_of_error : error → string
}.

Section Handlers.

Variable S : Services.
Variable C : Config.

(** *** Helpers *)

Definition get_groq_client : outcome string :=
  if String.eqb (GROQ_API_KEY C) EmptyString
  then Throw (HTTPException 500 "GROQ_API_KEY not configured.")
  else Return (GROQ_API_KEY C).

Definition post (path q : string) (num : Z) : Act (Z * string) :=
  fun log =>
    (match serper_post S log path q num with
     | Ok r => Return r
     | Raise e => Throw (error_of_exn e)
     end,
     log ++ [SerperPost path q num]).

Definition create (max_tokens : Z) (prompt : string) : Act (list (option string)) :=
  fun log =>
    (match groq_create S log max_tokens prompt with
     | Ok r => Return r
     | Raise e => Throw (error_of_exn e)
     end,
     log ++ [GroqCreate max_tokens prompt]).

(** [f"{v}"] *)
Definition fmt (v : json) : string :=
  match v with
  | JStr s => s
  | _ => str_of_value S v
  end.

(** [m.get(k, default)] on the members of a dict. *)
Definition member (ms : list (string * json)) (k : string) (default : json) : json :=
  match lookup k ms with Some v => v | None => default end.

(** [float(v or 0)]; [None] stands for the exception [float] raises. *)
Definition float_or_zero (v : json) : option pyfloat :=
  if json_truthy v then
    match v with
    | JNum q => float_of_number S q
    | JConst c => Some (float_of_constant c)
    | JBool b => Some (Finite (if b then 1 else 0))
    | JStr s => float_of_str S s
    | _ => None
    end
  else Some (Finite 0).

(** [int(v or 0)] *)
Definition int_or_zero (v : json) : option Z :=
  if json_truthy v then
    match v with
    | JNum q => int_of_number S q
    | JBool b => Some (if b then 1 else 0)
    | JStr s => int_of_str S s
    | _ => None
    end
  else Some 0.

Definition as_string (v : json) : option string :=
  match v with JStr s => Some s | _ => None end.

(** An [Optional[str]] field given [v]. *)
Definition as_optional_string (v : json) : option (option string) :=
  match v with
  | JNull => Some None
  | JStr s => Some (Some s)
  | _ => None
  end.

Definition maps_search (name : string) : string :=
  "https://www.google.com/maps/search/" +:+ replace name " " "+".

(** *** [parse_serper_results] *)

(** The values an iteration computes before it looks at [seen].  [None]
    stands for an exception, which the [except] clause turns into a skip. *)
Record Draft := {
  d_name : json;
  d_address : json;
  d_rating : pyfloat;
  d_review_count : Z;
  d_phone : json;
  d_category : json;
  d_maps_url : string
}.

(** [v == s] for a string literal [s]. *)
Definition is_str (v : json) (s : string) : bool :=
  match v with JStr t => String.eqb t s | _ => false end.

Definition draft (i : nat) (ms : list (string * json)) : option Draft :=
  let rtype := member ms "_type" (JStr "place") in
  let name := member ms "title" (JStr ("Restaurant " +:+ str_of_nat (i + 1))) in
  if is_str rtype "organic" then
      let address := member ms "snippet" (JStr EmptyString) in
      n ← as_string name;
      Some {| d_name := name; d_address := address; d_rating := Finite 0;
              d_review_count := 0; d_phone := JNull;
              d_category := JStr "Restaurant"; d_maps_url := maps_search n |}
  else if is_str rtype "local" then
      let address := member ms "address" (JStr EmptyString) in
      rating ← float_or_zero (member ms "rating" (JNum 0));
      review_count ← int_or_zero (member ms "ratingCount" (JNum 0));
      let phone := member ms "phoneNumber" JNull in
      let category := member ms "category" (JStr "Restaurant") in
      n ← as_string name;
      a ← as_string address;
      Some {| d_name := name; d_address := address; d_rating := rating;
              d_review_count := review_count; d_phone := phone;
              d_category := category;
              d_maps_url := maps_search n +:+ "+" +:+ replace a " " "+" |}
  else
      let address := member ms "address" (JStr EmptyString) in
      rating ← float_or_zero (member ms "rating" (JNum 0));
      review_count ← int_or_zero (member ms "ratingCount" (JNum 0));
      let phone := member ms "phoneNumber" JNull in
      let category := member ms "category" (JStr "Restaurant") in
      let cid := member ms "cid" (JStr EmptyString) in
      maps_url ← (if json_truthy cid
                  then Some ("https://www.google.com/maps?cid=" +:+ fmt cid)
                  else n ← as_string name; Some (maps_search n));
      Some {| d_name := name; d_address := address; d_rating := rating;
              d_review_count := review_count; d_phone := phone;
              d_category := category; d_maps_url := maps_url |}.

(** [name.lower().strip()] *)
Definition name_key (name : string) : string := strip (lower name).

(** [Restaurant(...)] for a draft whose name is [name], at index [i]; [None]
    when a field does not validate. *)
Definition build (i : nat) (name : string) (d : Draft) : option Restaurant.t :=
  let rid := slice_to (remove_non_word (lower name)) 24 +:+ str_of_nat i in
  category ← as_string (d_category d);
  address ← as_string (d_address d);
  phone ← as_optional_string (d_phone d);
  Some {| Restaurant.id := rid;
          Restaurant.name := name;
          Restaurant.rating := py_min (d_rating d) (Finite 5);
          Restaurant.review_count := d_review_count d;
          Restaurant.price := BUDGET_PRICE "medium";
          Restaurant.categories := [category];
          Restaurant.address := address;
          Restaurant.phone := phone;
          Restaurant.maps_url := d_maps_url d;
          Restaurant.image_url := None;
          Restaurant.distance_meters := None |}.

(** One iteration of the loop: the new [seen], and the restaurant appended,
    if any.  The name enters [seen] before the restaurant is built, so it
    stays there when the construction fails. *)
Definition parse_place (i : nat) (p : json) (seen : gset string)
  : gset string * option Restaurant.t :=
  match p with
  | JObj ms =>
      match draft i ms with
      | None => (seen, None)
      | Some d =>
          match as_string (d_name d) with
          | None => (seen, None)
          | Some name =>
              let key := name_key name in
              if bool_decide (key ∈ seen) || String.eqb key EmptyString
              then (seen, None)
              else ({[key]} ∪ seen, build i name d)
          end
      end
  | _ => (seen, None)
  end.

Fixpoint parse_loop (limit : Z) (places : list json) (i : nat)
    (seen : gset string) (restaurants : list Restaurant.t) : list Restaurant.t :=
  match places with
  | [] => restaurants
  | p :: rest =>
      match parse_place i p seen with
      | (seen', None) => parse_loop limit rest (Datatypes.S i) seen' restaurants
      | (seen', Some r) =>
          let restaurants' := restaurants ++ [r] in
          if limit <=? Z.of_nat (length restaurants') then restaurants'
          else parse_loop limit rest (Datatypes.S i) seen' restaurants'
      end
  end.

(** [places] is what the search returned, a list in the expected case;
    anything that cannot be iterated raises before the loop. *)
Definition parse_serper_results (places : json) (limit : Z)
  : result (list Restaurant.t) :=
  items ← py_iter places;
  Ok (parse_loop limit items 0 ∅ []).

(** *** [ask_llama] *)

(** [f"{v}"] for an [Optional[str]] and an [Optional[int]]. *)
Definition str_of_optional (o : option string) : string :=
  match o with Some s => s | None => "None" end.

Definition str_of_optional_int (o : option Z) : string :=
  match o with Some z => str_of_int z | None => "None" end.

(** [o or default] for an [Optional[str]]. *)
Definition or_else (o : option string) (default : string) : string :=
  match o with
  | Some s => if String.eqb s EmptyString then default else s
  | None => default
  end.

Definition recommendation_prompt (restaurants : list Restaurant.t)
    (request : RecommendationRequest.t) : string :=
  let summary := dumps_restaurants S restaurants in
  "You are a warm, knowledgeable restaurant recommendation assistant." +:+ nl
  +:+ nl
  +:+ "User preferences:" +:+ nl
  +:+ "- Location: " +:+ RecommendationRequest.location request +:+ nl
  +:+ "- Cuisine: " +:+ or_else (RecommendationRequest.cuisine request) "No preference" +:+ nl
  +:+ "- Budget: " +:+ str_of_optional (RecommendationRequest.budget request) +:+ nl
  +:+ "- Occasion: " +:+ str_of_optional (RecommendationRequest.occasion request) +:+ nl
  +:+ "- Dietary restrictions: "
  +:+ or_else (RecommendationRequest.dietary_restrictions request) "None" +:+ nl
  +:+ nl
  +:+ "Here are " +:+ str_of_nat (length restaurants) +:+ " restaurants to evaluate:" +:+ nl
  +:+ summary +:+ nl
  +:+ nl
  +:+ "Instructions:" +:+ nl
  +:+ "1. Recommend the top " +:+ str_of_optional_int (RecommendationRequest.limit request)
  +:+ " restaurants that best match the preferences." +:+ nl
  +:+ "2. For each, give a 1-2 sentence explanation of why it fits." +:+ nl
  +:+ "3. Declare a single TOP PICK with a brief reason." +:+ nl
  +:+ "4. Format the response in clear Markdown with headers." +:+ nl
  +:+ "5. On the very last line, write exactly: TOP_PICK: <exact restaurant name>" +:+ nl.

(** The loop over the lines of the reply, last line first: the first line
    that starts with the marker, once stripped, gives the pick. *)
Definition top_pick_of (full_text : string) : option string :=
  match List.find (fun line => startswith (strip line) "TOP_PICK:")
                  (rev (splitlines full_text)) with
  | Some line => Some (strip (replace (strip line) "TOP_PICK:" EmptyString))
  | None => None
  end.

(** [completion.choices[0].message.content], used as a [str]. *)
Definition message_content (choices : list (option string)) : result string :=
  c ← index choices 0;
  match c with
  | Some content => Ok content
  | None => Raise (Exn AttributeError "'NoneType' object has no attribute 'splitlines'")
  end.

Definition ask_llama (restaurants : list Restaurant.t)
    (request : RecommendationRequest.t) : Act (string * option string) :=
  let prompt := recommendation_prompt restaurants request in
  client ← (fun log => (get_groq_client, log));
  choices ← create 1200 prompt;
  full_text ← py (message_content choices);
  mret (full_text, top_pick_of full_text).

(** *** [search_restaurants_serper] *)

Definition float_truthy (x : pyfloat) : bool :=
  match x with
  | Finite q => negb (Qeq_bool q 0)
  | _ => true
  end.

(** [lat and lng], as a truth value. *)
Definition has_coordinates (lat lng : option pyfloat) : bool :=
  match lat, lng with
  | Some a, Some b => float_truthy a && float_truthy b
  | _, _ => false
  end.

Definition search_query (location : string) (cuisine : option string)
    (lat lng : option pyfloat) : string :=
  let parts := (match cuisine with
                | Some c => if String.eqb c EmptyString then [] else [c]
                | None => []
                end) ++ ["restaurants"] in
  let location_str :=
    match lat, lng with
    | Some a, Some b =>
        if has_coordinates lat lng then str_of_coord S a +:+ "," +:+ str_of_coord S b
        else location
    | _, _ => location
    end in
  join " " parts +:+ " in " +:+ location_str.

(** [r[k] = v] on the members of a dict: the value of [k] is replaced where
    it stands, or the member is appended. *)
Definition obj_set (ms : list (string * json)) (k : string) (v : json)
  : list (string * json) :=
  if existsb (fun m => String.eqb k (fst m)) ms
  then map (fun m => if String.eqb k (fst m) then (fst m, v) else m) ms
  else ms ++ [(k, v)].

(** [r["_type"] = tag]: only a dict takes a string subscript. *)
Definition set_type (tag : string) (r : json) : result json :=
  match r with
  | JObj ms => Ok (JObj (obj_set ms "_type" (JStr tag)))
  | _ => Raise (Exn TypeError "object does not support item assignment")
  end.

(** One of the two loops of the fallback. *)
Definition tagged (data : json) (key tag : string) : result (list json) :=
  v ← py_get data key (JArr []);
  items ← py_iter v;
  mapM (set_type tag) items.

(** [len(v)]: a string, a list and a dict have a length. *)
Definition py_len (v : json) : result nat :=
  match v with
  | JStr s => Ok (String.length s)
  | JArr items => Ok (length items)
  | JObj ms => Ok (length (object_keys ms []))
  | _ => Raise (Exn TypeError "object has no len()")
  end.

Definition no_limit {A} : Act A :=
  throw (Exception "TypeError" "unsupported operand type(s) for *: 'NoneType' and 'int'").

(** The first attempt, once [/places] has answered: the places to return,
    or [None] when the fallback is to be tried. *)
Definition found_places (status : Z) (body : string) : result (option json) :=
  if status =? 200 then
    data ← response_json S body;
    places ← py_get data "places" (JArr []);
    count ← py_len places;
    Ok (if json_truthy places then Some places else None)
  else Ok None.

(** The results of the fallback, read off the body of [/search]. *)
Definition combined_results (body : string) (l : Z) : result json :=
  data ← response_json S body;
  locals ← tagged data "localResults" "local";
  organics ← tagged data "organic" "organic";
  Ok (JArr (list_slice_to (locals ++ organics) (l * 3))).

Definition fallback_search (query : string) (l : Z) : Act json :=
  '(status2, body2) ← post "/search" query (Z.min (l * 3) 20);
  if negb (status2 =? 200)
  then throw (HTTPException 503 ("Serper API error: " +:+ body2))
  else py (combined_results body2 l).

Definition search_restaurants_serper (location : string) (cuisine budget : option string)
    (limit : option Z) (lat lng : option pyfloat) : Act json :=
  let query := search_query location cuisine lat lng in
  match limit with
  | None => no_limit
  | Some l =>
      '(status, body) ← post "/places" query (Z.min (l * 3) 20);
      found ← py (found_places status body);
      match found with
      | Some places => mret places
      | None => fallback_search query l
      end
  end.

(** *** Routes *)

Definition recommend_restaurants (req : RecommendationRequest.t)
  : Act RecommendationResponse.t :=
  places ← try_except_exception true
    (search_restaurants_serper (RecommendationRequest.location req)
       (RecommendationRequest.cuisine req) (RecommendationRequest.budget req)
       (RecommendationRequest.limit req) (RecommendationRequest.lat req)
       (RecommendationRequest.lng req))
    (fun e => throw (HTTPException 500 ("Search failed: " +:+ str_of_error S e)));
  if negb (json_truthy places)
  then throw (HTTPException 404 "No restaurants found. Try a different location or cuisine.")
  else
    all_restaurants ← try_except_exception false
      (match RecommendationRequest.limit req with
       | Some l => py (parse_serper_results places (l * 2))
       | None => no_limit
       end)
      (fun e => throw (HTTPException 500 ("Parse failed: " +:+ str_of_error S e)));
    match all_restaurants with
    | [] => throw (HTTPException 404 "Could not parse restaurant results. Try a different search.")
    | _ =>
        '(ai_text, top_pick) ← try_except_exception false
          (ask_llama all_restaurants req)
          (fun e => throw (HTTPException 500 ("AI step failed: " +:+ str_of_error S e)));
        mret {| RecommendationResponse.restaurants :=
                  match RecommendationRequest.limit req with
                  | Some l => list_slice_to all_restaurants l
                  | None => all_restaurants
                  end;
                RecommendationResponse.ai_recommendation := ai_text;
                RecommendationResponse.top_pick := top_pick |}
    end.

(** [GET /api/search]: the restaurants whose dumps the route returns. *)
Definition search_restaurants (location : string) (cuisine budget : option string)
    (limit : Z) : Act (list Restaurant.t) :=
  places ← search_restaurants_serper location cuisine budget (Some limit) None None;
  restaurants ← py (parse_serper_results places limit);
  mret restaurants.

(** [v[:5]], then iterated: a list gives its first five items and a string
    its first five characters; nothing else can be sliced. *)
Definition first_five (v : json) : result (list json) :=
  match v with
  | JArr items => Ok (firstn 5 items)
  | JStr s => Ok (map JStr (chars (take 5 s)))
  | _ => Raise (Exn TypeError "object is not subscriptable")
  end.

Definition review_of (r : json) : result Review :=
  name ← py_get r "displayLink" (JStr "Reviewer");
  snippet ← py_get r "snippet" (JStr EmptyString);
  Ok {| user_name := name; review_rating := 4; text := snippet;
        time_created := None |}.

(** [ReviewsResponse(..., ai_summary=completion.choices[0].message.content)]:
    the summary must be a [str]. *)
Definition summary_content (choices : list (option string)) : result string :=
  c ← index choices 0;
  match c with
  | Some content => Ok content
  | None => Raise (Exn ValidationError "Input should be a valid string")
  end.

(** The loop over the first five organic results. *)
Definition snippets_of (status : Z) (body : string) : result (list Review) :=
  if status =? 200 then
    data ← response_json S body;
    organic ← py_get data "organic" (JArr []);
    items ← first_five organic;
    mapM review_of items
  else Ok [].

Definition reviews_query (restaurant_id location : string) : string :=
  replace restaurant_id "_" " " +:+ " " +:+ location +:+ " restaurant reviews".

Definition summary_prompt (snippets : list Review) : string :=
  "Summarize these restaurant reviews in 2-3 sentences:" +:+ nl
  +:+ join nl (map (fun r => "- " +:+ fmt (text r)) snippets).

Definition get_restaurant_reviews (restaurant_id location : string)
  : Act ReviewsResponse.t :=
  '(status, body) ← post "/search" (reviews_query restaurant_id location) 5;
  snippets ← py (snippets_of status body);
  match snippets with
  | [] => mret {| ReviewsResponse.reviews := [];
                  ReviewsResponse.ai_summary := "No reviews found." |}
  | _ =>
      client ← (fun log => (get_groq_client, log));
      choices ← create 350 (summary_prompt snippets);
      summary ← py (summary_content choices);
      mret {| ReviewsResponse.reviews := snippets;
              ReviewsResponse.ai_summary := summary |}
  end.

End Handlers.

End Tastefind.

(** ** Properties of the restaurant API stated below *)

(** The key [parse_serper_results] deduplicates on. *)
Definition key_of (r : Tastefind.Restaurant.t) : string :=
  Tastefind.name_key (Tastefind.Restaurant.name r).

(** [5.0 < x] *)
Definition above_five (x : pyfloat) : bool :=
  float_lt (Finite 5) x.

(** Services for the examples: the two search endpoints answer [places] and
    [search], every completion request gets [reply], and numbers convert
    exactly. *)
Definition sample_services (places search : result (Z * string))
    (reply : result (list (option string))) : Tastefind.Services :=
  {| Tastefind.serper_post := fun _ path _ _ =>
       if String.eqb path "/places" then places else search;
     Tastefind.groq_create := fun _ _ _ => reply;
     Tastefind.response_json := resp_json;
     Tastefind.float_of_number := fun q => Some (Finite q);
     Tastefind.float_of_str := fun _ => None;
     Tastefind.int_of_number := fun q => Some (Z.quot (Qnum q) (Zpos (Qden q)));
     Tastefind.int_of_str := fun _ => None;
     Tastefind.str_of_value := fun _ => "null";
     Tastefind.str_of_coord := fun _ => "0.0000";
     Tastefind.dumps_restaurants := fun rs =>
       "[" +:+ join ", " (map Tastefind.Restaurant.name rs) +:+ "]";
     Tastefind.str_of_error := fun e =>
       match e with
       | Tastefind.HTTPException _ detail => detail
       | Tastefind.Exception _ message => message
       end |}.

Definition sample_config : Tastefind.Config :=
  {| Tastefind.SERPER_API_KEY := "serper-key"; Tastefind.GROQ_API_KEY := "groq-key" |}.

(** Four places: two share a name up to case and spaces, one has no usable
    name. *)
Definition sample_places : json :=
  JArr [JObj [("title", JStr "Chez Nous"); ("rating", JNum 9)];
        JObj [("title", JStr " chez nous ")];
        JObj [("title", JNum 3)];
        JObj [("title", JStr "Le Zinc"); ("_type", JStr "organic")]].

(** The same, with nothing reachable. *)
Definition offline : Tastefind.Services :=
  sample_services (Raise (Exn TransportError "unreachable"))
    (Raise (Exn TransportError "unreachable")) (Ok []).

(** Number of completion requests in a log. *)
Definition completions (log : list Tastefind.call) : nat :=
  length (List.filter Tastefind.is_completion log).

(** The two search requests of [search_restaurants_serper]. *)
Definition places_call (S : Tastefind.Services) (location : string)
    (cuisine : option string) (lat lng : option pyfloat) (l : Z)
  : Tastefind.call :=
  Tastefind.SerperPost "/places" (Tastefind.search_query S location cuisine lat lng)
    (Z.min (l * 3) 20).

Definition search_call (S : Tastefind.Services) (location : string)
    (cuisine : option string) (lat lng : option pyfloat) (l : Z)
  : Tastefind.call :=
  Tastefind.SerperPost "/search" (Tastefind.search_query S location cuisine lat lng)
    (Z.min (l * 3) 20).

(** A result of the fallback: a dict tagged as local or organic. *)
Definition tagged_result (v : json) : Prop :=
  ∃ ms, v = JObj ms
        ∧ (lookup "_type" ms = Some (JStr "local")
           ∨ lookup "_type" ms = Some (JStr "organic")).

Fixpoint has_linebreak (s : string) : bool :=
  match s with
  | EmptyString => false
  | String c r => Tastefind.is_linebreak c || has_linebreak r
  end.

(** A place with a usable title whose category is a number: it passes the
    deduplication and fails the validation of [Restaurant]. *)
Definition unbuildable (name : string) : json :=
  JObj [("title", JStr name); ("category", JNum 5)].

(** A place that is a dict whose title is a string with the key of [name]. *)
Definition same_name (name : string) (p : json) : Prop :=
  ∃ ms t, p = JObj ms ∧ lookup "title" ms = Some (JStr t)
          ∧ Tastefind.name_key t = Tastefind.name_key name.

(** What a run of [search_restaurants_serper] with limit [l] can give: the
    places of the first request, or the tagged results of the fallback; the
    service error of the fallback is the only HTTP error. *)
Definition search_outcome (S : Tastefind.Services) (location : string)
    (cuisine : option string) (lat lng : option pyfloat) (l : Z)
    (log : list Tastefind.call) (run : Tastefind.outcome json * list Tastefind.call)
  : Prop :=
  let first := places_call S location cuisine lat lng l in
  let second := search_call S location cuisine lat lng l in
  match run with
  | (Tastefind.Return v, log') =>
      (Tastefind.json_truthy v = true ∧ log' = log ++ [first])
      ∨ (∃ items, v = JArr items ∧ Forall tagged_result items
                  ∧ (0 <= l → Z.of_nat (length items) <= l * 3)
                  ∧ log' = log ++ [first; second])
  | (Tastefind.Throw (Tastefind.HTTPException status _), log') =>
      status = 503 ∧ log' = log ++ [first; second]
  | (Tastefind.Throw (Tastefind.Exception _ _), log') =>
      log' = log ++ [first] ∨ log' = log ++ [first; second]
  end.

(** How [POST /api/recommend] can fail: always with an HTTP error whose
    status is 404, 500 or 503, and, unless the error is the one of the
    completion step, without any completion request. *)
Definition recommend_failure (log : list Tastefind.call)
    (run : Tastefind.outcome Tastefind.RecommendationResponse.t * list Tastefind.call)
  : Prop :=
  match run with
  | (Tastefind.Return _, _) => True
  | (Tastefind.Throw e, log') =>
      ∃ status detail,
        e = Tastefind.HTTPException status detail
        ∧ (status = 404 ∨ status = 500 ∨ status = 503)
        ∧ (completions log' = completions log
           ∨ (status = 500 ∧ ∃ message, detail = "AI step failed: " +:+ message))
  end.

(** What a response of [POST /api/recommend] is made of. *)
Definition recommend_success (S : Tastefind.Services)
    (req : Tastefind.RecommendationRequest.t) (log : list Tastefind.call)
    (run : Tastefind.outcome Tastefind.RecommendationResponse.t * list Tastefind.call)
  : Prop :=
  match run with
  | (Tastefind.Throw _, _) => True
  | (Tastefind.Return resp, log') =>
      ∃ l searches prompt,
        Tastefind.RecommendationRequest.limit req = Some l
        ∧ log' = log ++ searches ++ [Tastefind.GroqCreate 1200 prompt]
        ∧ completions searches = 0%nat
        ∧ (1 <= length searches <= 2)%nat
        ∧ NoDup (map key_of (Tastefind.RecommendationResponse.restaurants resp))
        ∧ (1 <= l →
           Tastefind.RecommendationResponse.restaurants resp ≠ []
           ∧ Z.of_nat (length (Tastefind.RecommendationResponse.restaurants resp)) <= l)
        ∧ Tastefind.RecommendationResponse.top_pick resp
          = Tastefind.top_pick_of (Tastefind.RecommendationResponse.ai_recommendation resp)
  end.

(** What [GET /api/search] can give. *)
Definition search_route_outcome (limit : Z) (log : list Tastefind.call)
    (run : Tastefind.outcome (list Tastefind.Restaurant.t) * list Tastefind.call)
  : Prop :=
  completions (snd run) = completions log
  ∧ match fst run with
    | Tastefind.Return rs =>
        Z.of_nat (length rs) <= Z.max limit 1 ∧ NoDup (map key_of rs)
    | Tastefind.Throw (Tastefind.HTTPException status _) => status = 503
    | Tastefind.Throw (Tastefind.Exception _ _) => True
    end.

(** What [GET /api/reviews/{restaurant_id}] can give. *)
Definition reviews_outcome (restaurant_id location : string) (log : list Tastefind.call)
    (run : Tastefind.outcome Tastefind.ReviewsResponse.t * list Tastefind.call)
  : Prop :=
  ∃ rest,
    snd run = log ++ Tastefind.SerperPost "/search"
                       (Tastefind.reviews_query restaurant_id location) 5 :: rest
    ∧ (rest = [] ∨ ∃ prompt, rest = [Tastefind.GroqCreate 350 prompt])
    ∧ match fst run with
      | Tastefind.Return resp =>
          (length (Tastefind.ReviewsResponse.reviews resp) <= 5)%nat
          ∧ Forall (fun r => Tastefind.review_rating r = 4
                             ∧ Tastefind.time_created r = None)
              (Tastefind.ReviewsResponse.reviews resp)
          ∧ (match Tastefind.ReviewsResponse.reviews resp with
             | [] => rest = []
                     ∧ Tastefind.ReviewsResponse.ai_summary resp = "No reviews found."
             | _ => ∃ prompt, rest = [Tastefind.GroqCreate 350 prompt]
             end)
      | Tastefind.Throw _ => True
      end.

(** Services whose search endpoints answer with one place and with one
    organic result, and whose completion provider answers every request. *)
Definition answering : Tastefind.Services :=
  sample_services (Ok (200, js "{'places':[{'title':'Le Zinc'}]}"))
    (Ok (200, js "{'organic':[{'snippet':'A good table.'}]}"))
    (Ok [Some ("Go there." +:+ nl +:+ "TOP_PICK: Le Zinc")]).

(** A configuration without the completion key. *)
Definition keyless : Tastefind.Config :=
  {| Tastefind.SERPER_API_KEY := "serper-key"; Tastefind.GROQ_API_KEY := EmptyString |}.

Definition sample_request : Tastefind.RecommendationRequest.t :=
  {| Tastefind.RecommendationRequest.location := "Paris";
     Tastefind.RecommendationRequest.cuisine := Some "thai";
     Tastefind.RecommendationRequest.budget := Some "medium";
     Tastefind.RecommendationRequest.occasion := Some "casual";
     Tastefind.RecommendationRequest.dietary_restrictions := None;
     Tastefind.RecommendationRequest.radius_meters := Some 5000;
     Tastefind.RecommendationRequest.limit := Some 5;
     Tastefind.RecommendationRequest.lat := None;
     Tastefind.RecommendationRequest.lng := None |}.
(* ====================================================================== *)
(** ** Running computations *)
(* ====================================================================== *)

Section Runs.

Context {A B : Type}.

Lemma run_bind (m : M A) (f : A → M B) log :
  (m ≫= f) log =
  match m log with
  | (Ok a, log') => f a log'
  | (Raise e, log') => (Raise e, log')
  end.
Proof. reflexivity. Qed.

Lemma run_bind_ok (m : M A) (f : A → M B) log a log' :
  m log = (Ok a, log') → (m ≫= f) log = f a log'.
Proof. intros H. rewrite run_bind, H. reflexivity. Qed.

Lemma run_bind_raise (m : M A) (f : A → M B) log e log' :
  m log = (Raise e, log') → (m ≫= f) log = (Raise e, log').
Proof. intros H. rewrite run_bind, H. reflexivity. Qed.

Lemma run_lift (r : result A) log : lift r log = (r, log).
Proof. reflexivity. Qed.

Lemma run_ret (a : A) log : (mret a : M A) log = (Ok a, log).
Proof. reflexivity. Qed.

End Runs.

(** A handler that always returns makes the whole [try] return. *)
Lemma try_except_returns {A} (body : M A) (handler : exn → M A) log :
  (∀ e log1, ∃ a log2, handler e log1 = (Ok a, log2)) →
  ∃ a log', try_except body handler log = (Ok a, log').
Proof.
  intros Hh. unfold try_except.
  destruct (body log) as [[a|e] log1]; eauto.
Qed.

Lemma for_each_app {A B} (xs ys : list A) (acc : B) (body : B → A → M B) log :
  for_each (xs ++ ys) acc body log =
  (acc' ← for_each xs acc body; for_each ys acc' body) log.
Proof.
  revert acc log. induction xs as [|x xs IH]; intros acc log; simpl.
  - reflexivity.
  - rewrite !run_bind. destruct (body acc x log) as [[acc'|e] log1]; [|reflexivity].
    rewrite IH, run_bind. reflexivity.
Qed.

(** A loop whose body always returns, returns. *)
Lemma for_each_returns {A B} (xs : list A) (body : B → A → M B) :
  (∀ acc x log, ∃ acc' log', body acc x log = (Ok acc', log')) →
  ∀ acc log, ∃ acc' log', for_each xs acc body log = (Ok acc', log').
Proof.
  intros Hb. induction xs as [|x xs IH]; intros acc log; simpl.
  - eauto.
  - destruct (Hb acc x log) as (acc1 & log1 & H1).
    rewrite (run_bind_ok _ _ _ _ _ H1). apply IH.
Qed.

(* ====================================================================== *)
(** ** The LLM helper issues one request *)
(* ====================================================================== *)

Lemma llm_structured_run {T} W G system_prompt user_prompt (cls : Model T) t log :
  llm_structured W G system_prompt user_prompt cls t log =
  (structured_reply W (full_system W system_prompt cls) user_prompt cls log,
   log ++ [LlmCall (client_api_key (client G)) GROQ_MODEL t 2048
                   (full_system W system_prompt cls) user_prompt]).
Proof.
  unfold llm_structured, structured_reply, chat_completions_create.
  rewrite run_bind.
  destruct (chat_create W log _ user_prompt) as [choices|e]; [|reflexivity].
  simpl. rewrite run_bind, run_lift.
  destruct (first_content choices) as [content|e]; [|reflexivity].
  simpl. rewrite run_bind, run_lift.
  destruct (strip_fences content) as [raw|e]; reflexivity.
Qed.

Lemma count_app p (l1 l2 : list event) : count p (l1 ++ l2) = (count p l1 + count p l2)%nat.
Proof. unfold count. rewrite List.filter_app, length_app. reflexivity. Qed.

(** C1, as stated, fails: the provider's first reply is not JSON and its
    second would validate, yet [llm_structured] raises after a single request. *)
Lemma C1_no_retry_counterexample : ¬ retries_once_on_invalid_reply.
Proof.
  intros H.
  specialize (H (scripted ["not json"; plan_text] unreachable unreachable)
                (globals "k" "s") "sys" "user" []).
  vm_compute in H. specialize (H eq_refl). discriminate H.
Qed.

(** C1 (amended): every invocation of [llm_structured] issues exactly one
    Completion Provider request, whatever the reply; when the reply, after
    fence stripping, fails schema validation, that validation error is
    raised to the caller and no further request is made. *)
Theorem C1_llm_structured_single_request :
  ∀ {T} (W : World) (G : Globals) (system user : string) (cls : Model T) t log,
    let run := llm_structured W G system user cls t log in
    snd run = log ++ [LlmCall (client_api_key (client G)) GROQ_MODEL t 2048
                              (full_system W system cls) user]
    ∧ count is_llm (snd run) = S (count is_llm log)
    ∧ (∀ choices content raw e,
         chat_create W log (full_system W system cls) user = Ok choices →
         first_content choices = Ok content →
         strip_fences content = Ok raw →
         model_validate_json cls raw = Raise e →
         fst run = Raise e).
Proof.
  intros T W G system user cls t log run. subst run.
  rewrite llm_structured_run. simpl. split; [reflexivity|]. split.
  - rewrite count_app. unfold count. simpl. lia.
  - intros choices content raw e Hc Hf Hs Hv.
    unfold structured_reply. rewrite Hc. simpl. rewrite Hf. simpl.
    rewrite Hs. simpl. exact Hv.
Qed.

(** The amended C1 at a reply that is not JSON. *)
Lemma C1_llm_structured_single_request_witness :
  let W := scripted ["not json"; plan_text] unreachable unreachable in
  let run := llm_structured W (globals "k" "s") "sys" "user"
               (AgentPlan_model sample_floats) default_temperature [] in
  count is_llm (snd run) = 1%nat
  ∧ fst run = Raise (Exn ValidationError "Invalid JSON").
Proof.
  intros W run.
  destruct (C1_llm_structured_single_request W (globals "k" "s") "sys" "user"
              (AgentPlan_model sample_floats) default_temperature []) as (_ & Hn & Hr).
  split; [exact Hn|].
  apply (Hr [Some "not json"] "not json" "not json");
    vm_compute; reflexivity.
Defined.

(* ====================================================================== *)
(** ** What validation guarantees *)
(* ====================================================================== *)

Lemma bind_ok_inv {A B} (r : result A) (f : A → result B) b :
  r ≫= f = Ok b → ∃ a, r = Ok a ∧ f a = Ok b.
Proof. destruct r as [a|e]; simpl; [eauto | discriminate]. Qed.

(** Splits a successful run of a chain of binds into its steps. *)
Ltac bind_inv H :=
  let a := fresh "v" in
  let Ha := fresh "Hv" in
  apply bind_ok_inv in H; destruct H as (a & Ha & H).

Lemma raises_validation_ok {A} (a : A) : raises_validation (Ok a).
Proof. intros e H. discriminate H. Qed.

Lemma raises_validation_invalid {A} msg : raises_validation (@Field.invalid A msg).
Proof. intros e H. injection H as <-. reflexivity. Qed.

Lemma raises_validation_bind {A B} (r : result A) (f : A → result B) :
  raises_validation r → (∀ a, raises_validation (f a)) →
  raises_validation (r ≫= f).
Proof.
  intros Hr Hf e. destruct r as [a|e']; simpl.
  - apply Hf.
  - intros H. apply Hr. injection H as ->. reflexivity.
Qed.

Lemma raises_validation_mapM {A} (f : json → result A) items :
  (∀ j, raises_validation (f j)) → raises_validation (mapM f items).
Proof.
  intros Hf. induction items as [|j items IH]; simpl.
  - apply raises_validation_ok.
  - apply raises_validation_bind; [apply Hf|]. intros a.
    apply raises_validation_bind; [exact IH|]. intros l.
    apply raises_validation_ok.
Qed.

Create HintDb validation.
#[local] Hint Resolve raises_validation_ok raises_validation_invalid : validation.

Lemma as_str_raises j : raises_validation (Field.as_str j).
Proof. destruct j; simpl; auto with validation. Qed.

Lemma str_as_bool_raises s : raises_validation (Field.str_as_bool s).
Proof.
  unfold Field.str_as_bool. cbv zeta.
  destruct (existsb _ Field.false_strings); [auto with validation|].
  destruct (existsb _ Field.true_strings); auto with validation.
Qed.

Lemma as_bool_raises F j : raises_validation (Field.as_bool F j).
Proof.
  destruct j; simpl; auto with validation; [|apply str_as_bool_raises].
  destruct (of_literal F q); auto with validation.
  destruct (Qeq_bool q0 0); [auto with validation|].
  destruct (Qeq_bool q0 1); auto with validation.
Qed.

Lemma as_float_raises F j : raises_validation (Field.as_float F j).
Proof.
  destruct j; simpl; auto with validation.
  destruct (of_string F s); auto with validation.
Qed.

Lemma bounded_raises F lo hi j : raises_validation (Field.bounded F lo hi j).
Proof.
  unfold Field.bounded. apply raises_validation_bind; [apply as_float_raises|].
  intros x. destruct (float_lt (Finite hi) x); [auto with validation|].
  destruct (float_lt x (Finite lo)); auto with validation.
Qed.

Lemma as_list_raises {A} (f : json → result A) j :
  (∀ x, raises_validation (f x)) → raises_validation (Field.as_list f j).
Proof.
  intros Hf. destruct j; simpl; auto with validation.
  apply raises_validation_mapM, Hf.
Qed.

Lemma as_optional_raises {A} (f : json → result A) j :
  (∀ x, raises_validation (f x)) → raises_validation (Field.as_optional f j).
Proof.
  intros Hf. destruct j; simpl; auto with validation;
    (apply raises_validation_bind; [apply Hf | auto with validation]).
Qed.

Lemma as_object_raises j : raises_validation (Field.as_object j).
Proof. destruct j; simpl; auto with validation. Qed.

Lemma required_raises {A} ms name (conv : json → result A) :
  (∀ x, raises_validation (conv x)) → raises_validation (Field.required ms name conv).
Proof. intros Hc. unfold Field.required. destruct (lookup name ms); auto with validation. Qed.

Lemma defaulted_raises {A} ms name (conv : json → result A) d :
  (∀ x, raises_validation (conv x)) → raises_validation (Field.defaulted ms name conv d).
Proof. intros Hc. unfold Field.defaulted. destruct (lookup name ms); auto with validation. Qed.

#[local] Hint Resolve as_str_raises as_bool_raises as_float_raises bounded_raises
  as_object_raises : validation.

Ltac field_cases :=
  repeat first
    [ apply raises_validation_ok
    | apply as_object_raises
    | apply as_str_raises
    | apply as_bool_raises
    | apply bounded_raises
    | apply required_raises; intros ?
    | apply defaulted_raises; intros ?
    | apply as_list_raises; intros ?
    | apply as_optional_raises; intros ?
    | apply raises_validation_bind; [|intros ?] ].

Lemma SearchQuery_raises j : raises_validation (SearchQuery.validate j).
Proof. unfold SearchQuery.validate. field_cases. Qed.


Lemma AgentPlan_raises F j : raises_validation (AgentPlan.validate F j).
Proof. unfold AgentPlan.validate. field_cases. Qed.


Lemma FactList_raises F j : raises_validation (FactList.validate F j).
Proof. unfold FactList.validate. field_cases. Qed.


(** *** Bounds *)



Lemma bounded_out F lo hi j x :
  Field.as_float F j = Ok x →
  ¬ (float_lt x (Finite lo) = false ∧ float_lt (Finite hi) x = false) →
  ∃ e, Field.bounded F lo hi j = Raise e.
Proof.
  intros Hx Hout. unfold Field.bounded. rewrite Hx. unfold mbind, result_bind.
  destruct (float_lt (Finite hi) x) eqn:Hhi; [eexists; reflexivity|].
  destruct (float_lt x (Finite lo)) eqn:Hlo; [eexists; reflexivity|].
  exfalso. apply Hout. auto.
Qed.


Lemma mapM_ok_Forall {A} (f : json → result A) (P : A → Prop) items l :
  (∀ j a, f j = Ok a → P a) → mapM f items = Ok l → Forall P l.
Proof.
  intros Hf. revert l. induction items as [|j items IH]; simpl; intros l H.
  - injection H as <-. constructor.
  - bind_inv H. bind_inv H. injection H as <-.
    constructor; [eapply Hf; eassumption | apply IH; assumption].
Qed.



Lemma model_validate_json_ok_inv {T} (cls : Model T) raw x :
  model_validate_json cls raw = Ok x →
  ∃ j, loads raw = Some j ∧ model_validate cls j = Ok x.
Proof.
  unfold model_validate_json. destruct (loads raw) as [j|]; [eauto|discriminate].
Qed.





(* ====================================================================== *)
(** ** The internet tools absorb their failures *)
(* ====================================================================== *)

Section Tools.

Variable W : World.
Variable G : Globals.

Lemma search_web_returns query num log :
  ∃ hits log', search_web W G query num log = (Ok hits, log').
Proof.
  unfold search_web. destruct (String.eqb _ _).
  - eexists _, _. reflexivity.
  - apply try_except_returns. intros e log1. eexists _, _. reflexivity.
Qed.

Lemma fetch_url_returns url max_chars log :
  ∃ text log', fetch_url W url max_chars log = (Ok text, log').
Proof.
  unfold fetch_url. apply try_except_returns.
  intros e log1. eexists _, _. reflexivity.
Qed.

Lemma search_task_returns raw sq log :
  ∃ raw' log', search_task W G raw sq log = (Ok raw', log').
Proof.
  unfold search_task.
  destruct (search_web_returns (SearchQuery.query sq) default_num_results log)
    as (hits & log1 & H).
  rewrite (run_bind_ok _ _ _ _ _ H). eexists _, _. reflexivity.
Qed.

Lemma step_execute_returns plan log :
  ∃ raw log', step_execute W G plan log = (Ok raw, log').
Proof.
  unfold step_execute.
  destruct (for_each_returns (AgentPlan.search_queries plan) (search_task W G)
              search_task_returns [] log) as (raw & log1 & H).
  rewrite (run_bind_ok _ _ _ _ _ H).
  destruct (fetch_planned plan).
  - destruct (fetch_url_returns (default EmptyString (AgentPlan.target_url plan))
                default_max_chars log1) as (page & log2 & Hp).
    rewrite (run_bind_ok _ _ _ _ _ Hp). eexists _, _. reflexivity.
  - eexists _, _. reflexivity.
Qed.

(** With a search credential, [search_web] issues its request and then
    returns what its body returned, or the empty list if the body raised. *)
Lemma search_web_with_key query num log :
  String.eqb (SERPER_API_KEY G) EmptyString = false →
  search_web W G query num log =
  (Ok match (body ← httpx_post W log query num;
             data ← resp_json body;
             organic ← py_get data "organic" (JArr []);
             items ← py_iter organic;
             mapM hit_of items) with
      | Ok hits => hits
      | Raise _ => []
      end,
   log ++ [search_request G query num]).
Proof.
  intros Hkey. unfold search_web, try_except, post_search, search_request.
  rewrite Hkey, run_bind.
  destruct (httpx_post W log query num) as [body|e]; [|reflexivity].
  simpl. rewrite run_bind, run_lift.
  destruct (resp_json body) as [data|e]; [|reflexivity].
  simpl. rewrite run_bind, run_lift.
  destruct (py_get data "organic" (JArr [])) as [organic|e]; [|reflexivity].
  simpl. rewrite run_bind, run_lift.
  destruct (py_iter organic) as [items|e]; [|reflexivity].
  simpl.
  assert (Hloop : ∀ acc log1,
    for_each items acc
      (fun results r => hit ← lift (hit_of r); mret (results ++ [hit])) log1
    = (match mapM hit_of items with
       | Ok hits => Ok (acc ++ hits)
       | Raise e => Raise e
       end, log1)).
  { induction items as [|r items IH]; intros acc log1; simpl.
    - rewrite app_nil_r. reflexivity.
    - rewrite !run_bind, run_lift. destruct (hit_of r) as [hit|e]; [|reflexivity].
      simpl. rewrite IH. destruct (mapM hit_of items); [|reflexivity].
      simpl. rewrite <- app_assoc. reflexivity. }
  rewrite Hloop. destruct (mapM hit_of items); reflexivity.
Qed.

End Tools.

(* ====================================================================== *)
(** ** The mapping built by the Execute step *)
(* ====================================================================== *)

Lemma dict_get_set_eq d k v : dict_get (dict_set d k v) k = Some v.
Proof.
  induction d as [|[k' v'] d IH]; simpl.
  - rewrite String.eqb_refl. reflexivity.
  - destruct (String.eqb k k') eqn:E; simpl; rewrite E; [reflexivity | exact IH].
Qed.

Lemma dict_get_set_ne d k k' v :
  k ≠ k' → dict_get (dict_set d k v) k' = dict_get d k'.
Proof.
  intros Hne. induction d as [|[k0 v0] d IH]; simpl.
  - apply String.eqb_neq in Hne. rewrite String.eqb_sym, Hne. reflexivity.
  - destruct (String.eqb k k0) eqn:E; simpl.
    + apply String.eqb_eq in E. subst k0.
      assert (String.eqb k' k = false) as -> by (apply String.eqb_neq; congruence).
      reflexivity.
    + rewrite IH. reflexivity.
Qed.

Lemma dict_keys_set d k v k' :
  k' ∈ dict_keys (dict_set d k v) ↔ k' = k ∨ k' ∈ dict_keys d.
Proof.
  unfold dict_keys. induction d as [|[k0 v0] d IH]; simpl.
  - rewrite list_elem_of_singleton.
    split; [auto | intros [H|H]; [exact H | inversion H]].
  - destruct (String.eqb k k0) eqn:E; simpl.
    + apply String.eqb_eq in E. subst k0. rewrite elem_of_cons. tauto.
    + rewrite !elem_of_cons, IH. tauto.
Qed.

Lemma dict_keys_set_NoDup d k v :
  NoDup (dict_keys d) → NoDup (dict_keys (dict_set d k v)).
Proof.
  unfold dict_keys. induction d as [|[k0 v0] d IH]; simpl; intros Hnd.
  - apply NoDup_singleton.
  - apply NoDup_cons in Hnd as [Hk0 Hnd].
    destruct (String.eqb k k0) eqn:E; simpl.
    + apply NoDup_cons. auto.
    + apply NoDup_cons. split; [|auto].
      intros Hin. apply (dict_keys_set d k v k0) in Hin as [->|Hin].
      * rewrite String.eqb_refl in E. discriminate E.
      * exact (Hk0 Hin).
Qed.

Lemma dict_get_keys d k : k ∈ dict_keys d ↔ is_Some (dict_get d k).
Proof.
  unfold dict_keys. induction d as [|[k0 v0] d IH]; simpl.
  - split; [intros H; inversion H | intros [? H]; discriminate H].
  - rewrite elem_of_cons. destruct (String.eqb k k0) eqn:E.
    + apply String.eqb_eq in E. subst. split; eauto.
    + apply String.eqb_neq in E. rewrite IH. tauto.
Qed.

Lemma planned_queries_app pre sq post plan :
  AgentPlan.search_queries plan = pre ++ sq :: post →
  planned_queries plan
  = map SearchQuery.query pre ++ SearchQuery.query sq :: map SearchQuery.query post.
Proof. unfold planned_queries. intros ->. rewrite map_app. reflexivity. Qed.

Section ExecuteLoop.

Variable W : World.
Variable G : Globals.

Lemma search_task_run raw sq log :
  ∃ hits log',
    search_web W G (SearchQuery.query sq) default_num_results log = (Ok hits, log')
    ∧ search_task W G raw sq log
      = (Ok (dict_set raw (SearchQuery.query sq) (Results hits)), log').
Proof.
  destruct (search_web_returns W G (SearchQuery.query sq) default_num_results log)
    as (hits & log1 & H).
  exists hits, log1. split; [exact H|].
  unfold search_task. rewrite (run_bind_ok _ _ _ _ _ H). reflexivity.
Qed.

(** The keys after the loop: those present before, and the queries searched. *)
Lemma search_loop_keys tasks :
  ∀ acc log d log',
    for_each tasks acc (search_task W G) log = (Ok d, log') →
    NoDup (dict_keys acc) →
    NoDup (dict_keys d)
    ∧ ∀ k, k ∈ dict_keys d ↔ k ∈ dict_keys acc ∨ k ∈ map SearchQuery.query tasks.
Proof.
  induction tasks as [|sq tasks IH]; simpl; intros acc log d log' Hrun Hnd.
  - injection Hrun as <- <-. split; [exact Hnd|].
    intros k. split; [auto | intros [H|H]; [exact H | inversion H]].
  - destruct (search_task_run acc sq log) as (hits & log1 & _ & Hstep).
    rewrite (run_bind_ok _ _ _ _ _ Hstep) in Hrun.
    apply IH in Hrun as [Hnd' Hkeys]; [|apply dict_keys_set_NoDup, Hnd].
    split; [exact Hnd'|]. intros k. rewrite Hkeys, dict_keys_set, elem_of_cons.
    tauto.
Qed.

(** An entry whose key is not searched again is still there after the loop. *)
Lemma search_loop_keeps tasks :
  ∀ acc log d log' q v,
    for_each tasks acc (search_task W G) log = (Ok d, log') →
    dict_get acc q = Some v →
    q ∉ map SearchQuery.query tasks →
    dict_get d q = Some v.
Proof.
  induction tasks as [|sq tasks IH]; simpl; intros acc log d log' q v Hrun Hget Hq.
  - injection Hrun as <- <-. exact Hget.
  - destruct (search_task_run acc sq log) as (hits & log1 & _ & Hstep).
    rewrite (run_bind_ok _ _ _ _ _ Hstep) in Hrun.
    apply not_elem_of_cons in Hq as [Hne Hq].
    eapply IH; [exact Hrun| |exact Hq].
    rewrite dict_get_set_ne; [exact Hget | congruence].
Qed.

(** The value under a query is what the search of the last task with that
    query returned. *)
Lemma search_loop_last pre sq post :
  ∀ acc log d log',
    for_each (pre ++ sq :: post) acc (search_task W G) log = (Ok d, log') →
    SearchQuery.query sq ∉ map SearchQuery.query post →
    ∃ acc1 log1 hits log2,
      for_each pre acc (search_task W G) log = (Ok acc1, log1)
      ∧ search_web W G (SearchQuery.query sq) default_num_results log1
        = (Ok hits, log2)
      ∧ dict_get d (SearchQuery.query sq) = Some (Results hits).
Proof.
  intros acc log d log' Hrun Hlast.
  rewrite for_each_app, run_bind in Hrun.
  destruct (for_each_returns pre (search_task W G) (search_task_returns W G) acc log)
    as (acc1 & log1 & Hpre).
  rewrite Hpre in Hrun. simpl in Hrun.
  destruct (search_task_run acc1 sq log1) as (hits & log2 & Hweb & Hstep).
  rewrite (run_bind_ok _ _ _ _ _ Hstep) in Hrun.
  exists acc1, log1, hits, log2. split; [exact Hpre|]. split; [exact Hweb|].
  eapply search_loop_keeps; [exact Hrun| |exact Hlast].
  apply dict_get_set_eq.
Qed.

(** A property of the values that each search establishes and the loop
    keeps. *)
Lemma search_loop_values (P : string → list Hit → Prop) tasks :
  (∀ q log hits log',
      search_web W G q default_num_results log = (Ok hits, log') → P q hits) →
  ∀ acc log d log',
    for_each tasks acc (search_task W G) log = (Ok d, log') →
    (∀ k hits, dict_get acc k = Some (Results hits) → P k hits) →
    ∀ k hits, dict_get d k = Some (Results hits) → P k hits.
Proof.
  intros Hweb. induction tasks as [|sq tasks IH]; simpl; intros acc log d log' Hrun Hacc.
  - injection Hrun as <- <-. exact Hacc.
  - destruct (search_task_run acc sq log) as (hits & log1 & Hs & Hstep).
    rewrite (run_bind_ok _ _ _ _ _ Hstep) in Hrun.
    eapply IH; [exact Hrun|].
    intros k hs Hget.
    destruct (String.eqb_spec (SearchQuery.query sq) k) as [<-|Hne].
    + rewrite dict_get_set_eq in Hget. injection Hget as <-.
      eapply Hweb. exact Hs.
    + rewrite dict_get_set_ne in Hget by exact Hne. eapply Hacc. exact Hget.
Qed.

(** [step_execute] split into its loop and its optional fetch. *)
Lemma step_execute_run plan log :
  ∃ raw log1,
    for_each (AgentPlan.search_queries plan) [] (search_task W G) log = (Ok raw, log1)
    ∧ ((fetch_planned plan = false ∧ step_execute W G plan log = (Ok raw, log1))
       ∨ (fetch_planned plan = true
          ∧ ∃ page log2,
              fetch_url W (default EmptyString (AgentPlan.target_url plan))
                default_max_chars log1 = (Ok page, log2)
              ∧ step_execute W G plan log
                = (Ok (dict_set raw "__url_fetch__" (Page page)), log2))).
Proof.
  destruct (for_each_returns (AgentPlan.search_queries plan) (search_task W G)
              (search_task_returns W G) [] log) as (raw & log1 & Hloop).
  exists raw, log1. split; [exact Hloop|].
  unfold step_execute. rewrite (run_bind_ok _ _ _ _ _ Hloop).
  destruct (fetch_planned plan).
  - right. split; [reflexivity|].
    destruct (fetch_url_returns W (default EmptyString (AgentPlan.target_url plan))
                default_max_chars log1) as (page & log2 & Hp).
    exists page, log2. split; [exact Hp|].
    rewrite (run_bind_ok _ _ _ _ _ Hp). reflexivity.
  - left. split; reflexivity.
Qed.

End ExecuteLoop.

(** Every planned query has a last task that carries it. *)
Lemma last_task_with_query (tasks : list SearchQuery.t) q :
  q ∈ map SearchQuery.query tasks →
  ∃ pre sq post,
    tasks = pre ++ sq :: post
    ∧ SearchQuery.query sq = q
    ∧ q ∉ map SearchQuery.query post.
Proof.
  induction tasks as [|sq tasks IH]; simpl; intros Hin.
  - inversion Hin.
  - destruct (decide (q ∈ map SearchQuery.query tasks)) as [Hlater|Hlast].
    + destruct (IH Hlater) as (pre & sq' & post & -> & Hq & Hpost).
      exists (sq :: pre), sq', post. auto.
    + apply elem_of_cons in Hin as [->|Hin]; [|contradiction].
      exists [], sq, tasks. auto.
Qed.

(* ====================================================================== *)
(** ** Search: the mock result and the absorbed failures *)
(* ====================================================================== *)

Lemma search_web_without_key W G query num log :
  SERPER_API_KEY G = EmptyString →
  search_web W G query num log = (Ok [mock_result query], log).
Proof. intros Hkey. unfold search_web. rewrite Hkey. reflexivity. Qed.

(** C9: when [SERPER_API_KEY] is empty, [search_web] returns, for every
    query and without any request, a list of exactly one result, the mock
    one, titled "Mock Result" and linking to "https://example.com"; the
    Execute step then stores that one fabricated result under every planned
    query other than the fetch key, which is what the Extract step reads. *)
Theorem C9_mock_result_without_search_key :
  ∀ (W : World) (G : Globals),
    SERPER_API_KEY G = EmptyString →
    (∀ query num log,
       ∃ hit, search_web W G query num log = (Ok [hit], log)
              ∧ title hit = JStr "Mock Result"
              ∧ link hit = JStr "https://example.com"
              ∧ hit = mock_result query)
    ∧ (∀ plan log d log',
         step_execute W G plan log = (Ok d, log') →
         ∀ q, q ∈ planned_queries plan → q ≠ "__url_fetch__" →
              dict_get d q = Some (Results [mock_result q])).
Proof.
  intros W G Hkey. split.
  - intros query num log. exists (mock_result query).
    rewrite search_web_without_key by exact Hkey. auto.
  - intros plan log d log' Hrun q Hq Hne.
    destruct (last_task_with_query _ _ Hq) as (pre & sq & post & Htasks & <- & Hlast).
    destruct (step_execute_run W G plan log) as (raw & log1 & Hloop & Hfetch).
    rewrite Htasks in Hloop.
    destruct (search_loop_last W G pre sq post [] log raw log1 Hloop Hlast)
      as (acc1 & l1 & hits & l2 & _ & Hweb & Hget).
    rewrite search_web_without_key in Hweb by exact Hkey.
    injection Hweb as <- _.
    destruct Hfetch as [[_ Hx]|(_ & page & log2 & _ & Hx)];
      rewrite Hx in Hrun; injection Hrun as <- _.
    + exact Hget.
    + rewrite dict_get_set_ne by congruence. exact Hget.
Qed.

(** C9 at a plan with one task, run with an empty search credential. *)
Lemma C9_mock_result_without_search_key_witness :
  let W := scripted [] unreachable unreachable in
  let G := globals "k" EmptyString in
  search_web W G "rust async" 5 []
  = (Ok [{| title := JStr "Mock Result";
            snippet := JStr "Mock search result for 'rust async'";
            link := JStr "https://example.com" |}], []).
Proof.
  intros W G.
  destruct (C9_mock_result_without_search_key W G eq_refl) as [H _].
  destruct (H "rust async" 5 []) as (hit & -> & _ & _ & ->). reflexivity.
Defined.

Lemma hit_of_object ms : ∃ hit, hit_of (JObj ms) = Ok hit.
Proof. eexists. reflexivity. Qed.

Lemma hit_of_not_object r : is_object r = false → ∃ e, hit_of r = Raise e.
Proof. destruct r; simpl; intros H; try discriminate H; eexists; reflexivity. Qed.

Lemma mapM_hit_of_not_objects items :
  forallb is_object items = false → ∃ e, mapM hit_of items = Raise e.
Proof.
  induction items as [|r items IH]; simpl; intros H; [discriminate H|].
  destruct (is_object r) eqn:Hr; simpl in H.
  - destruct r; try discriminate Hr.
    destruct (hit_of_object members) as (hit & ->). simpl.
    destruct (IH H) as (e & ->). eexists. reflexivity.
  - destruct (hit_of_not_object r Hr) as (e & ->). eexists. reflexivity.
Qed.

(** Iterating strings: the loop does not run, or its first round raises. *)
Lemma mapM_hit_of_strings (l : list string) :
  match mapM hit_of (map JStr l) with
  | Ok hits => hits = []
  | Raise _ => True
  end.
Proof. destruct l; simpl; auto. Qed.

(** What the body of [search_web] makes of a document that has not the
    expected shape: an exception, or no result at all. *)
Lemma malformed_document_absorbed data :
  well_formed_results data = false →
  match (organic ← py_get data "organic" (JArr []);
         items ← py_iter organic;
         mapM hit_of items) with
  | Ok hits => hits
  | Raise _ => []
  end = [].
Proof.
  intros Hwf. destruct data; simpl in *; try reflexivity.
  destruct (lookup "organic" members) as [organic|]; [|discriminate Hwf].
  destruct organic; simpl in *; try reflexivity.
  - pose proof (mapM_hit_of_strings (chars s)) as H.
    destruct (mapM hit_of (map JStr (chars s))); [exact H | reflexivity].
  - destruct (mapM_hit_of_not_objects _ Hwf) as (e & ->). reflexivity.
  - pose proof (mapM_hit_of_strings (object_keys members0 [])) as H.
    destruct (mapM hit_of (map JStr (object_keys members0 []))); [exact H | reflexivity].
Qed.

Lemma search_web_absorbs W G query num log :
  String.eqb (SERPER_API_KEY G) EmptyString = false →
  is_ok (httpx_post W log query num) = false
  ∨ (∃ body, httpx_post W log query num = Ok body ∧ malformed_body body = true) →
  search_web W G query num log = (Ok [], log ++ [search_request G query num]).
Proof.
  intros Hkey Hfail. rewrite search_web_with_key by exact Hkey. f_equal. f_equal.
  destruct Hfail as [Hraise|(body & Hbody & Hbad)].
  - destruct (httpx_post W log query num); [discriminate Hraise | reflexivity].
  - rewrite Hbody. simpl. unfold malformed_body in Hbad. unfold resp_json.
    destruct (loads body) as [data|]; [|reflexivity].
    simpl. apply malformed_document_absorbed.
    apply negb_true_iff in Hbad. exact Hbad.
Qed.

(** C3: with a search credential, so that the request is made, a transport
    call that raises or answers with a malformed body (not JSON, or not an
    object whose [organic] member is a list of objects) makes [search_web]
    return the empty list instead of raising; and [step_execute] returns a
    mapping for every plan, whatever the providers do: when the search
    transport raises on every call, every planned query is a key of the
    mapping, every list of search results in it is empty, and every planned
    query other than the fetch key maps to the empty list. *)
Theorem C3_search_failures_absorbed :
  ∀ (W : World) (G : Globals),
    (∀ query num log,
       String.eqb (SERPER_API_KEY G) EmptyString = false →
       is_ok (httpx_post W log query num) = false
       ∨ (∃ body, httpx_post W log query num = Ok body
                  ∧ malformed_body body = true) →
       search_web W G query num log
       = (Ok [], log ++ [search_request G query num]))
    ∧ (∀ plan log,
         ∃ d log',
           step_execute W G plan log = (Ok d, log')
           ∧ (String.eqb (SERPER_API_KEY G) EmptyString = false →
              (∀ l q n, is_ok (httpx_post W l q n) = false) →
              (∀ q, q ∈ planned_queries plan → q ∈ dict_keys d)
              ∧ (∀ k hits, dict_get d k = Some (Results hits) → hits = [])
              ∧ (∀ q, q ∈ planned_queries plan → q ≠ "__url_fetch__" →
                      dict_get d q = Some (Results [])))).
Proof.
  intros W G. split; [intros; apply search_web_absorbs; assumption|].
  intros plan log.
  destruct (step_execute_run W G plan log) as (raw & log1 & Hloop & Hfetch).
  assert (Hd : ∃ d log', step_execute W G plan log = (Ok d, log')
                         ∧ (d = raw ∨ ∃ page, d = dict_set raw "__url_fetch__" (Page page))).
  { destruct Hfetch as [[_ Hx]|(_ & page & log2 & _ & Hx)]; eauto 6. }
  destruct Hd as (d & log' & Hrun & Hshape).
  exists d, log'. split; [exact Hrun|]. intros Hkey Hthrow.
  assert (Hempty : ∀ q l hits l',
            search_web W G q default_num_results l = (Ok hits, l') → hits = []).
  { intros q l hits l' Hweb.
    rewrite (search_web_absorbs W G q default_num_results l Hkey) in Hweb
      by (left; apply Hthrow).
    injection Hweb as <- _. reflexivity. }
  assert (Hraw_keys : ∀ q, q ∈ planned_queries plan → q ∈ dict_keys raw).
  { intros q Hq.
    destruct (search_loop_keys W G _ _ _ _ _ Hloop (NoDup_nil_2)) as [_ Hkeys].
    apply Hkeys. right. exact Hq. }
  assert (Hraw_values : ∀ k hits, dict_get raw k = Some (Results hits) → hits = []).
  { apply (search_loop_values W G (fun _ hits => hits = []) _ Hempty _ _ _ _ Hloop).
    intros k hits H. discriminate H. }
  assert (Hraw_get : ∀ q, q ∈ planned_queries plan → dict_get raw q = Some (Results [])).
  { intros q Hq.
    destruct (last_task_with_query _ _ Hq) as (pre & sq & post & Htasks & <- & Hlast).
    rewrite Htasks in Hloop.
    destruct (search_loop_last W G pre sq post [] log raw log1 Hloop Hlast)
      as (acc1 & l1 & hits & l2 & _ & Hweb & Hget).
    apply Hempty in Hweb. subst hits. exact Hget. }
  destruct Hshape as [->|(page & ->)].
  - auto.
  - split; [|split].
    + intros q Hq. apply dict_keys_set. right. auto.
    + intros k hits Hget.
      destruct (String.eqb_spec "__url_fetch__" k) as [<-|Hne].
      * rewrite dict_get_set_eq in Hget. discriminate Hget.
      * rewrite dict_get_set_ne in Hget by exact Hne. eauto.
    + intros q Hq Hne. rewrite dict_get_set_ne by congruence. auto.
Qed.

(** C3 at a world whose search transport refuses every connection. *)
Lemma C3_search_failures_absorbed_witness :
  let W := scripted [] unreachable (Ok "page") in
  let G := globals "k" "s" in
  search_web W G "q" 5 [] = (Ok [], [SearchCall "s" "q" 5]).
Proof.
  intros W G.
  destruct (C3_search_failures_absorbed W G) as [H _].
  apply (H "q" 5 []); [reflexivity | left; reflexivity].
Defined.

(** A body is not malformed for holding one of the number constants, which
    the reader accepts: its results are returned as from any other
    document. *)
Lemma search_web_reads_constants :
  fst (search_web
         (scripted [] (Ok (js "{'credits':Infinity,'organic':[{'title':'t'}]}"))
            unreachable)
         (globals "k" "s") "q" 5 [])
  = Ok [{| title := JStr "t"; snippet := JStr EmptyString;
           link := JStr EmptyString |}].
Proof. vm_compute. reflexivity. Qed.

(* ====================================================================== *)
(** ** Execute: one entry per distinct query *)
(* ====================================================================== *)






(* ====================================================================== *)
(** ** What a successful completion step returns *)
(* ====================================================================== *)

Lemma structured_reply_ok_inv {T} W system user (cls : Model T) log x :
  structured_reply W system user cls log = Ok x →
  ∃ raw, model_validate_json cls raw = Ok x.
Proof.
  unfold structured_reply. intros H. do 3 bind_inv H. eauto.
Qed.

Lemma step_synthesize_ok_inv W G query facts raw log a log' :
  step_synthesize W G query facts raw log = (Ok a, log') →
  ∃ text, model_validate_json (AgentAnswer_model (floats W)) text = Ok a.
Proof.
  unfold step_synthesize. rewrite run_bind, llm_structured_run.
  destruct (structured_reply _ _ _ _ _) as [x|e] eqn:Hreply; [|discriminate].
  intros H. injection H as <- _.
  eapply structured_reply_ok_inv. exact Hreply.
Qed.

(* ====================================================================== *)
(** ** Fetch: truncated pages and the untruncated placeholder *)
(* ====================================================================== *)

Lemma length_append (s t : string) :
  String.length (s +:+ t) = (String.length s + String.length t)%nat.
Proof. induction s as [|c s IH]; simpl; [reflexivity | rewrite IH; reflexivity]. Qed.

Lemma append_assoc (s t u : string) : (s +:+ t) +:+ u = s +:+ (t +:+ u).
Proof.
  induction s as [|c s IH]; [reflexivity|].
  change (String c ((s +:+ t) +:+ u) = String c (s +:+ (t +:+ u))).
  f_equal. exact IH.
Qed.

Lemma length_take n s : String.length (take n s) = Nat.min n (String.length s).
Proof.
  revert s. induction n as [|n IH]; intros [|c s]; simpl; try reflexivity.
  rewrite IH. reflexivity.
Qed.

(** The length of [s[:k]], for every integer [k]. *)
Lemma length_slice_to s k :
  Z.of_nat (String.length (slice_to s k)) =
  if k <? 0 then Z.max 0 (Z.of_nat (String.length s) + k)
  else Z.min k (Z.of_nat (String.length s)).
Proof.
  unfold slice_to. rewrite length_take.
  destruct (k <? 0) eqn:Hk; [apply Z.ltb_lt in Hk | apply Z.ltb_ge in Hk]; lia.
Qed.

Lemma fetch_url_run W url max_chars log :
  fetch_url W url max_chars log =
  (Ok match (resp_text ← httpx_get W log url; extract_text W resp_text) with
      | Ok page => slice_to page max_chars
      | Raise e => error_placeholder url e
      end,
   log ++ [FetchCall url]).
Proof.
  unfold fetch_url, try_except, get_url. rewrite run_bind.
  destruct (httpx_get W log url) as [resp_text|e]; [|reflexivity].
  simpl. rewrite run_bind, run_lift.
  destruct (extract_text W resp_text) as [page|e]; reflexivity.
Qed.

(** C6, as stated, fails: the page cannot be reached and [max_chars] is 10,
    yet the string returned is 51 characters long. *)
Lemma C6_placeholder_counterexample : ¬ fetch_url_always_truncated.
Proof.
  intros H.
  specialize (H (scripted [] unreachable unreachable) "https://x.test" 10 []
                "[ERROR fetching https://x.test: connection refused]"
                [FetchCall "https://x.test"] eq_refl).
  vm_compute in H. apply H. reflexivity.
Qed.

(** C6 (amended): [fetch_url] issues one request and always returns a
    string.  When the page is fetched and its text extracted, the result is
    that text cut by [text[:max_chars]], so at most [max_chars] characters
    long for every [max_chars >= 0].  When the request or the extraction
    raises, the result is the placeholder "[ERROR fetching <url>: <error>]"
    in full: [max_chars] plays no part in it, and it is at least 19
    characters long. *)
Theorem C6_fetch_url_truncates_pages :
  ∀ (W : World) (url : string) (max_chars : Z) log,
  ∃ text,
    fetch_url W url max_chars log = (Ok text, log ++ [FetchCall url])
    ∧ match (resp_text ← httpx_get W log url; extract_text W resp_text) with
      | Ok page =>
          text = slice_to page max_chars
          ∧ (0 <= max_chars → Z.of_nat (String.length text) <= max_chars)
      | Raise e =>
          text = error_placeholder url e
          ∧ Z.of_nat (String.length text)
            = 19 + Z.of_nat (String.length url)
              + Z.of_nat (String.length (str_of_exn e))
      end.
Proof.
  intros W url max_chars log. rewrite fetch_url_run.
  eexists. split; [reflexivity|].
  destruct (_ ≫= _) as [page|e].
  - split; [reflexivity|]. intros Hk. rewrite length_slice_to.
    destruct (max_chars <? 0) eqn:E; [apply Z.ltb_lt in E|]; lia.
  - split; [reflexivity|]. unfold error_placeholder.
    rewrite !length_append. simpl. lia.
Qed.

(** The amended C6 at a page of 27 characters cut at 12. *)
Lemma C6_fetch_url_truncates_pages_witness :
  let W := scripted [] unreachable (Ok "<p>hi <b>there</b> a<>b < c") in
  ∃ text,
    fetch_url W "u" 12 [] = (Ok text, [FetchCall "u"])
    ∧ text = " hi  there  "
    ∧ Z.of_nat (String.length text) <= 12.
Proof.
  intros W.
  destruct (C6_fetch_url_truncates_pages W "u" 12 []) as (text & Hrun & Hcase).
  exists text. split; [exact Hrun|].
  change (text = slice_to " hi  there  a<>b < c" 12
          ∧ (0 <= 12 → Z.of_nat (String.length text) <= 12)) in Hcase.
  destruct Hcase as [Htext Hlen].
  split; [rewrite Htext; reflexivity | apply Hlen; lia].
Defined.

(* ====================================================================== *)
(** ** Synthesize: which list of sources is deduplicated *)
(* ====================================================================== *)

(** C7, as stated, fails: the provider replies with an answer that lists
    the same URL twice; the reply validates and is returned as it is. *)
Lemma C7_repeated_sources_counterexample : ¬ synthesized_sources_distinct.
Proof.
  intros H.
  specialize (H (scripted [repeated_sources_text] unreachable unreachable)
                (globals "k" "s") "q" [] [] []).
  vm_compute in H.
  specialize (H _ _ eq_refl).
  apply NoDup_cons in H as [Hin _]. apply Hin. left.
Qed.

Lemma known_sources_spec facts s :
  s ∈ known_sources facts ↔ ∃ f, f ∈ facts ∧ ExtractedFact.source f = s.
Proof.
  unfold known_sources. rewrite elem_of_elements, elem_of_list_to_set.
  rewrite list_elem_of_In, in_map_iff.
  split; intros (f & H1 & H2).
  - exists f. rewrite list_elem_of_In. auto.
  - exists f. rewrite <- list_elem_of_In. auto.
Qed.

(** C7 (amended): the Synthesize step deduplicates the sources of the facts
    it is given, and that list, in which every fact source occurs exactly
    once, is what it writes after "Known sources: " at the end of the prompt
    of its single request.  The answer it returns is the provider's reply as
    validated against [AgentAnswer]; the [sources] of that answer are not
    compared with one another. *)
Theorem C7_known_sources_deduplicated :
  ∀ (W : World) (G : Globals) (query : string) (facts : list ExtractedFact.t)
    (raw : raw_dict) log,
    NoDup (known_sources facts)
    ∧ (∀ s, s ∈ known_sources facts ↔
            ∃ f, f ∈ facts ∧ ExtractedFact.source f = s)
    ∧ (∃ before,
         synthesize_prompt W query facts
         = before +:+ "Known sources: " +:+ str_of_strings W (known_sources facts))
    ∧ (∃ system,
         snd (step_synthesize W G query facts raw log)
         = log ++ [LlmCall (client_api_key (client G)) GROQ_MODEL
                           default_temperature 2048 system
                           (synthesize_prompt W query facts)])
    ∧ (∀ a log', step_synthesize W G query facts raw log = (Ok a, log') →
                 ∃ text, model_validate_json (AgentAnswer_model (floats W)) text = Ok a).
Proof.
  intros W G query facts raw log.
  split; [unfold known_sources; apply (NoDup_elements (C:=gset string))|].
  split; [apply known_sources_spec|].
  split; [|split].
  - unfold synthesize_prompt.
    exists ("Original question: " +:+ query +:+ nl +:+ nl
            +:+ "Extracted facts:" +:+ nl +:+ dumps_facts W facts +:+ nl +:+ nl).
    rewrite !append_assoc. reflexivity.
  - eexists. unfold step_synthesize. rewrite run_bind, llm_structured_run.
    destruct (structured_reply _ _ _ _ _); reflexivity.
  - intros a log'. apply step_synthesize_ok_inv.
Qed.

(** The amended C7 at three facts from two sources. *)
Lemma C7_known_sources_deduplicated_witness :
  let fact_from s := {| ExtractedFact.fact := "f"; ExtractedFact.source := s;
                        ExtractedFact.confidence := Finite 1 |} in
  let facts := [fact_from "https://a.test"; fact_from "https://b.test";
                fact_from "https://a.test"] in
  NoDup (known_sources facts) ∧ "https://a.test" ∈ known_sources facts.
Proof.
  intros fact_from facts.
  destruct (C7_known_sources_deduplicated
              (scripted [] unreachable unreachable) (globals "k" "s") "q" facts [] [])
    as (Hnd & Hspec & _).
  split; [exact Hnd|].
  apply Hspec. exists (fact_from "https://a.test"). split; [left | reflexivity].
Defined.

(* ====================================================================== *)
(** ** Start-up: the credential is never checked *)
(* ====================================================================== *)

Lemma extends_ret {A} (a : A) : extends (mret a : M A).
Proof. intros log r log' H. injection H as _ <-. exists []. rewrite app_nil_r. reflexivity. Qed.

Lemma extends_lift {A} (r : result A) : extends (lift r).
Proof. intros log r' log' H. injection H as _ <-. exists []. rewrite app_nil_r. reflexivity. Qed.

Lemma extends_bind {A B} (m : M A) (f : A → M B) :
  extends m → (∀ a, extends (f a)) → extends (m ≫= f).
Proof.
  intros Hm Hf log r log' H. rewrite run_bind in H.
  destruct (m log) as [[a|e] log1] eqn:Hrun.
  - destruct (Hm _ _ _ Hrun) as (s1 & ->).
    destruct (Hf a _ _ _ H) as (s2 & ->).
    exists (s1 ++ s2). rewrite app_assoc. reflexivity.
  - injection H as _ <-. eapply Hm. exact Hrun.
Qed.

Lemma extends_try_except {A} (body : M A) (handler : exn → M A) :
  extends body → (∀ e, extends (handler e)) → extends (try_except body handler).
Proof.
  intros Hb Hh log r log' H. unfold try_except in H.
  destruct (body log) as [[a|e] log1] eqn:Hrun.
  - injection H as _ <-. eapply Hb. exact Hrun.
  - destruct (Hb _ _ _ Hrun) as (s1 & ->).
    destruct (Hh e _ _ _ H) as (s2 & ->).
    exists (s1 ++ s2). rewrite app_assoc. reflexivity.
Qed.

Lemma extends_for_each {A B} (xs : list A) (body : B → A → M B) :
  (∀ acc x, extends (body acc x)) → ∀ acc, extends (for_each xs acc body).
Proof.
  intros Hb. induction xs as [|x xs IH]; intros acc; simpl.
  - apply extends_ret.
  - apply extends_bind; [apply Hb | intros acc'; apply IH].
Qed.

Lemma extends_llm_structured {T} W G system user (cls : Model T) t :
  extends (llm_structured W G system user cls t).
Proof.
  intros log r log' H. rewrite llm_structured_run in H.
  injection H as _ <-. eauto.
Qed.

Lemma extends_search_web W G query num : extends (search_web W G query num).
Proof.
  intros log r log' H.
  destruct (String.eqb (SERPER_API_KEY G) EmptyString) eqn:Hkey.
  - apply String.eqb_eq in Hkey. rewrite search_web_without_key in H by exact Hkey.
    injection H as _ <-. exists []. rewrite app_nil_r. reflexivity.
  - rewrite search_web_with_key in H by exact Hkey. injection H as _ <-. eauto.
Qed.

Lemma extends_fetch_url W url max_chars : extends (fetch_url W url max_chars).
Proof.
  intros log r log' H. rewrite fetch_url_run in H. injection H as _ <-. eauto.
Qed.

Lemma extends_step_execute W G plan : extends (step_execute W G plan).
Proof.
  unfold step_execute. apply extends_bind.
  - apply extends_for_each. intros acc sq. unfold search_task.
    apply extends_bind; [apply extends_search_web | intros; apply extends_ret].
  - intros raw. destruct (fetch_planned plan); [|apply extends_ret].
    apply extends_bind; [apply extends_fetch_url | intros; apply extends_ret].
Qed.

Lemma extends_step_extract W G query raw : extends (step_extract W G query raw).
Proof.
  unfold step_extract. apply extends_bind; [apply extends_lift|].
  intros [lines sources].
  apply extends_bind; [apply extends_llm_structured | intros; apply extends_ret].
Qed.

Lemma extends_step_synthesize W G query facts raw :
  extends (step_synthesize W G query facts raw).
Proof.
  unfold step_synthesize.
  apply extends_bind; [apply extends_llm_structured | intros; apply extends_ret].
Qed.

(** The first request of a run is the planner's. *)
Lemma run_agent_starts_with_plan W G query :
  ∃ rest,
    snd (run_agent W G query [])
    = LlmCall (client_api_key (client G)) GROQ_MODEL default_temperature 2048
        (full_system W
           ("You are a research planning agent. "
            +:+ "Given a user query, decide what web searches to run to answer it thoroughly.")
           (AgentPlan_model (floats W)))
        ("User query: " +:+ query) :: rest.
Proof.
  unfold run_agent. rewrite run_bind. unfold step_plan at 1.
  rewrite llm_structured_run. simpl app.
  destruct (structured_reply _ _ _ _ _) as [plan|e]; [|eexists; reflexivity].
  match goal with |- ∃ rest, snd (?m ?l) = _ =>
    assert (Hext : extends m); [|destruct (m l) as [r log'] eqn:Hrun]
  end.
  - apply extends_bind; [apply extends_step_execute|]. intros raw.
    apply extends_bind; [apply extends_step_extract|]. intros facts.
    apply extends_bind; [apply extends_step_synthesize|]. intros a.
    apply extends_ret.
  - destruct (Hext _ _ _ Hrun) as (suffix & ->). eexists. reflexivity.
Qed.

(** C8, as stated, fails: with an empty environment the module loads, the
    planner's request is issued, and the error that ends the run is the
    provider's. *)
Lemma C8_no_startup_check_counterexample : ¬ fails_fast_without_credential.
Proof.
  intros H.
  destruct (H (scripted [] unreachable unreachable) ∅ (lookup_empty _)) as (e & He).
  vm_compute in He. discriminate He.
Qed.

(** C8 (amended): loading the module never fails on a missing credential.
    When [GROQ_API_KEY] is not in the environment the key is the placeholder
    "YOUR_GROQ_API_KEY_HERE", the client is constructed with it, and the
    program runs the pipeline: its first request is the planner's completion
    request, issued under that placeholder key.  A missing [SERPER_API_KEY]
    becomes the empty string. *)
Theorem C8_placeholder_credential :
  ∀ (environ : gmap string string),
  ∃ G,
    module_init environ = Ok G
    ∧ (environ !! "GROQ_API_KEY" = None →
       GROQ_API_KEY G = "YOUR_GROQ_API_KEY_HERE"
       ∧ client_api_key (client G) = "YOUR_GROQ_API_KEY_HERE")
    ∧ (environ !! "SERPER_API_KEY" = None → SERPER_API_KEY G = EmptyString)
    ∧ (∀ W : World,
         program W environ = run_agent W G main_query []
         ∧ ∃ system rest,
             snd (program W environ)
             = LlmCall (client_api_key (client G)) GROQ_MODEL
                 default_temperature 2048 system
                 ("User query: " +:+ main_query) :: rest).
Proof.
  intros environ. eexists. split; [reflexivity|]. simpl.
  split; [|split].
  - intros Hmissing. unfold getenv. rewrite Hmissing. auto.
  - intros Hmissing. unfold getenv. rewrite Hmissing. reflexivity.
  - intros W. unfold program. simpl. split; [reflexivity|].
    match goal with |- context [run_agent W ?G _ _] =>
      destruct (run_agent_starts_with_plan W G main_query) as (rest & Hrest)
    end.
    eexists _, rest. exact Hrest.
Qed.

(** The amended C8 at the empty environment. *)
Lemma C8_placeholder_credential_witness :
  ∃ G, module_init ∅ = Ok G
       ∧ client_api_key (client G) = "YOUR_GROQ_API_KEY_HERE".
Proof.
  destruct (C8_placeholder_credential ∅) as (G & Hinit & Hkey & _).
  exists G. split; [exact Hinit|]. apply Hkey. vm_compute. reflexivity.
Defined.

(* ====================================================================== *)
(** ** Fence stripping *)
(* ====================================================================== *)

Lemma partition_cons sep c r :
  partition sep (String c r) =
  if String.prefix sep (String c r)
  then Some (EmptyString, drop (String.length sep) (String c r))
  else match partition sep r with
       | Some (b, a) => Some (String c b, a)
       | None => None
       end.
Proof. reflexivity. Qed.

Lemma partition_none_inv sep c r :
  partition sep (String c r) = None →
  String.prefix sep (String c r) = false ∧ partition sep r = None.
Proof.
  rewrite partition_cons. destruct (String.prefix sep (String c r)); [discriminate|].
  destruct (partition sep r) as [[b a]|]; [discriminate | auto].
Qed.

(** A text that does not start with [p] still does not once a character
    foreign to [p] and anything else are appended. *)
Lemma prefix_app_foreign p : ∀ s x t,
  p ≠ EmptyString → avoids x p →
  String.prefix p s = false →
  String.prefix p (s +:+ String x t) = false.
Proof.
  induction p as [|a p IH]; intros s x t Hne Hav Hs; [contradiction|].
  destruct Hav as [Hax Hp]. destruct s as [|b s].
  - change (EmptyString +:+ String x t) with (String x t). simpl.
    destruct (ascii_dec a x); [contradiction | reflexivity].
  - change (String b s +:+ String x t) with (String b (s +:+ String x t)).
    simpl in *. destruct (ascii_dec a b); [|reflexivity].
    destruct p as [|a' p']; [destruct s; discriminate Hs|].
    apply IH; [discriminate | exact Hp | exact Hs].
Qed.

Lemma prefix_app_keeps p : ∀ s t,
  String.prefix p s = true → String.prefix p (s +:+ t) = true.
Proof.
  induction p as [|a p IH]; intros s t Hs.
  - destruct (s +:+ t); reflexivity.
  - destruct s as [|b s]; [discriminate Hs|].
    change (String b s +:+ t) with (String b (s +:+ t)).
    simpl in *. destruct (ascii_dec a b); [apply IH; exact Hs | discriminate Hs].
Qed.

Lemma avoids_newline_fence : avoids (ascii_of_nat 10) fence.
Proof. repeat split; discriminate. Qed.

(** In a document without a fence marker, followed by a line feed and a
    closing fence, the first marker is the closing one. *)
Lemma partition_closing_fence J :
  partition fence J = None →
  partition fence (J +:+ nl +:+ fence) = Some (J +:+ nl, EmptyString).
Proof.
  induction J as [|c J IH]; intros Hfree; [reflexivity|].
  apply partition_none_inv in Hfree as [Hhere Hlater].
  change (String c J +:+ nl +:+ fence) with (String c (J +:+ nl +:+ fence)).
  rewrite partition_cons.
  change (String c (J +:+ nl +:+ fence))
    with (String c J +:+ String (ascii_of_nat 10) fence).
  rewrite (prefix_app_foreign fence (String c J) (ascii_of_nat 10) fence);
    [|discriminate|exact avoids_newline_fence|exact Hhere].
  rewrite (IH Hlater). reflexivity.
Qed.

Lemma prefix_empty s : String.prefix EmptyString s = true.
Proof. destruct s; reflexivity. Qed.

Lemma prefix_app_self p s : String.prefix p (p +:+ s) = true.
Proof.
  induction p as [|a p IH]; [apply prefix_empty|].
  change (String a p +:+ s) with (String a (p +:+ s)). simpl.
  destruct (ascii_dec a a); [exact IH | contradiction].
Qed.

Lemma partition_opening_fence x :
  partition fence (fence +:+ x) = Some (EmptyString, x).
Proof.
  change (fence +:+ x) with (String "`" (String "`" (String "`" x))).
  rewrite partition_cons.
  change (String "`" (String "`" (String "`" x))) with (fence +:+ x).
  rewrite prefix_app_self. reflexivity.
Qed.

Lemma split_between_fences body :
  partition fence (body +:+ fence) = Some (body, EmptyString) →
  index (split (fence +:+ body +:+ fence) fence) 1 = Ok body.
Proof.
  intros Hclose. unfold split.
  assert (Hlen : ∃ n, String.length (fence +:+ body +:+ fence) = S (S n)).
  { rewrite !length_append. simpl. eexists. reflexivity. }
  destruct Hlen as (n & ->).
  cbn [split_fuel]. rewrite partition_opening_fence, Hclose. reflexivity.
Qed.

Lemma rstrip_app_kept s t :
  t ≠ EmptyString → rstrip t = t → rstrip (s +:+ t) = s +:+ t.
Proof.
  intros Hne Ht. induction s as [|c s IH]; [exact Ht|].
  change (String c s +:+ t) with (String c (s +:+ t)). simpl. rewrite IH.
  destruct (s +:+ t) eqn:E; [|reflexivity].
  destruct s; [|discriminate E]. simpl in E. contradiction.
Qed.

Lemma rstrip_app_newline s : rstrip (s +:+ nl) = rstrip s.
Proof.
  induction s as [|c s IH]; [reflexivity|].
  change (String c s +:+ nl) with (String c (s +:+ nl)). simpl. rewrite IH.
  reflexivity.
Qed.

Lemma strip_app_newline s : strip (s +:+ nl) = strip s.
Proof.
  unfold strip. induction s as [|c s IH]; [reflexivity|].
  change (String c s +:+ nl) with (String c (s +:+ nl)). simpl.
  destruct (isspace c); [exact IH|].
  change (String c (s +:+ nl)) with (String c s +:+ nl).
  apply rstrip_app_newline.
Qed.

Lemma rstrip_idempotent s : rstrip (rstrip s) = rstrip s.
Proof.
  induction s as [|c s IH]; [reflexivity|]. simpl.
  destruct (rstrip s) as [|c' r'] eqn:E.
  - destruct (isspace c) eqn:Hc; simpl; [reflexivity | rewrite Hc; reflexivity].
  - simpl in *. rewrite IH. reflexivity.
Qed.

(** What [lstrip] returns starts with a character that is not whitespace. *)
Lemma lstrip_head s :
  match lstrip s with
  | EmptyString => True
  | String c _ => isspace c = false
  end.
Proof.
  induction s as [|c s IH]; simpl; [exact I|].
  destruct (isspace c) eqn:Hc; [exact IH | exact Hc].
Qed.

Lemma strip_idempotent s : strip (strip s) = strip s.
Proof.
  unfold strip. pose proof (lstrip_head s) as Hhead.
  destruct (lstrip s) as [|c r]; [reflexivity|].
  assert (Hl : lstrip (rstrip (String c r)) = rstrip (String c r)).
  { simpl. destruct (rstrip r); simpl; rewrite Hhead; simpl; rewrite ?Hhead; reflexivity. }
  rewrite Hl. apply rstrip_idempotent.
Qed.

Lemma rstrip_is_prefix s : ∃ w, s = rstrip s +:+ w.
Proof.
  induction s as [|c s (w & IH)]; [exists EmptyString; reflexivity|]. simpl.
  destruct (rstrip s) as [|c' r'] eqn:E.
  - destruct (isspace c).
    + exists (String c s). reflexivity.
    + exists s. reflexivity.
  - exists w. change (String c (String c' r') +:+ w) with (String c (String c' r' +:+ w)).
    rewrite <- IH. reflexivity.
Qed.

Lemma partition_none_lstrip sep s :
  sep ≠ EmptyString → partition sep s = None → partition sep (lstrip s) = None.
Proof.
  intros Hsep. induction s as [|c s IH]; intros H; [exact H|]. simpl.
  destruct (isspace c); [|exact H].
  apply IH. apply partition_none_inv in H as [_ H]. exact H.
Qed.

Lemma partition_none_prefix sep s :
  sep ≠ EmptyString → partition sep s = None → String.prefix sep s = false.
Proof.
  intros Hsep H. destruct s as [|c r].
  - destruct sep; [contradiction | reflexivity].
  - apply partition_none_inv in H as [H _]. exact H.
Qed.

(** A document without a fence marker does not look fenced once stripped. *)
Lemma fence_free_not_fenced J :
  partition fence J = None → startswith (strip J) fence = false.
Proof.
  intros Hfree. unfold startswith, strip.
  apply (partition_none_lstrip fence) in Hfree; [|discriminate].
  apply (partition_none_prefix fence) in Hfree; [|discriminate].
  destruct (rstrip_is_prefix (lstrip J)) as (w & Hw).
  destruct (String.prefix fence (rstrip (lstrip J))) eqn:E; [|reflexivity].
  apply (prefix_app_keeps _ _ w) in E. rewrite <- Hw, Hfree in E. discriminate E.
Qed.

Lemma strip_fences_unfold content :
  strip_fences content =
  (raw ← (if startswith (strip content) fence
          then raw ← index (split (strip content) fence) 1;
               Ok (if startswith raw "json" then slice_from raw 4 else raw)
          else Ok (strip content));
   Ok (strip raw)).
Proof. reflexivity. Qed.

(** Where fence stripping is transparent: a document that contains no fence
    marker reaches validation as the same text, its own text stripped,
    whether the reply is the document or the document between fences, with
    the [json] tag or without. *)
Lemma strip_fences_fence_free J tag :
  partition fence J = None → tag = EmptyString ∨ tag = "json" →
  strip_fences J = Ok (strip J)
  ∧ strip_fences (fenced tag J) = Ok (strip J).
Proof.
  intros Hfree Htag. split.
  - rewrite strip_fences_unfold, (fence_free_not_fenced J Hfree). simpl.
    rewrite strip_idempotent. reflexivity.
  - assert (Hstrip : strip (fenced tag J) = fence +:+ (tag +:+ nl +:+ J +:+ nl) +:+ fence).
    { unfold strip.
      assert (lstrip (fenced tag J) = fenced tag J) as -> by reflexivity.
      assert (fenced tag J = (fence +:+ tag +:+ nl +:+ J +:+ nl) +:+ fence) as ->
        by (unfold fenced; rewrite !append_assoc; reflexivity).
      rewrite rstrip_app_kept by (try discriminate; reflexivity).
      rewrite !append_assoc. reflexivity. }
    assert (Hclose : partition fence ((tag +:+ nl +:+ J +:+ nl) +:+ fence)
                     = Some (tag +:+ nl +:+ J +:+ nl, EmptyString)).
    { pose proof (partition_closing_fence J Hfree) as H.
      destruct Htag as [-> | ->].
      - change ((EmptyString +:+ nl +:+ J +:+ nl) +:+ fence)
          with (String (ascii_of_nat 10) ((J +:+ nl) +:+ fence)).
        rewrite partition_cons. rewrite append_assoc, H. reflexivity.
      - change (("json" +:+ nl +:+ J +:+ nl) +:+ fence)
          with (String "j" (String "s" (String "o" (String "n"
                  (String (ascii_of_nat 10) ((J +:+ nl) +:+ fence)))))).
        rewrite !partition_cons. rewrite append_assoc, H. reflexivity. }
    rewrite strip_fences_unfold, Hstrip. unfold startswith at 1.
    rewrite prefix_app_self.
    rewrite (split_between_fences _ Hclose). simpl mbind.
    destruct Htag as [-> | ->].
    + change (startswith (EmptyString +:+ nl +:+ J +:+ nl) "json") with false. cbv iota.
      simpl. f_equal.
      change (strip (nl +:+ J +:+ nl)) with (strip (J +:+ nl)).
      apply strip_app_newline.
    + unfold startswith. rewrite prefix_app_self.
      change (slice_from ("json" +:+ nl +:+ J +:+ nl) 4) with (nl +:+ J +:+ nl).
      simpl. f_equal.
      change (strip (nl +:+ J +:+ nl)) with (strip (J +:+ nl)).
      apply strip_app_newline.
Qed.

(** Fence stripping is not transparent on every document that validates. *)
Lemma fences_not_transparent : ¬ fences_are_transparent.
Proof.
  intros H.
  destruct (H quoted_command_text
              {| ExtractedFact.fact := "run ```ls``` first";
                 ExtractedFact.source := "https://x.test";
                 ExtractedFact.confidence := Finite (1 # 2) |}
              eq_refl "json" (or_intror eq_refl)) as [_ Hfenced].
  vm_compute in Hfenced. discriminate Hfenced.
Qed.

(** C5, at a document the code mishandles: the fact text quotes a command
    between fence markers.  The document validates, and as a bare reply it
    is returned as the validated fact.  Between fences, with the [json] tag
    or without, [split] cuts the reply at the first marker inside the fact
    text: validation receives the truncated text and [llm_structured]
    raises a validation error instead of returning the same fact. *)
Theorem C5_fence_inside_document_truncated :
  (∃ f, model_validate_json (ExtractedFact_model sample_floats) quoted_command_text = Ok f
        ∧ ExtractedFact.fact f = "run ```ls``` first"
        ∧ fact_reply quoted_command_text = Ok f)
  ∧ strip_fences (fenced "json" quoted_command_text) = Ok (js "{'fact':'run")
  ∧ strip_fences (fenced EmptyString quoted_command_text) = Ok (js "{'fact':'run")
  ∧ fact_reply (fenced "json" quoted_command_text)
    = Raise (Exn ValidationError "Invalid JSON")
  ∧ fact_reply (fenced EmptyString quoted_command_text)
    = Raise (Exn ValidationError "Invalid JSON").
Proof.
  split.
  - eexists. split; [vm_compute; reflexivity|]. split; vm_compute; reflexivity.
  - repeat split; vm_compute; reflexivity.
Qed.

(* ====================================================================== *)
(** ** Fence stripping never fails *)
(* ====================================================================== *)

Lemma prefix_split p : ∀ s, String.prefix p s = true → ∃ x, s = p +:+ x.
Proof.
  induction p as [|a p IH]; intros s H.
  - exists s. reflexivity.
  - destruct s as [|b s]; [discriminate H|]. simpl in H.
    destruct (ascii_dec a b) as [->|]; [|discriminate H].
    destruct (IH s H) as (x & ->). exists x. reflexivity.
Qed.

Lemma split_fuel_nonempty fuel sep s : split_fuel fuel sep s ≠ [].
Proof.
  destruct fuel as [|fuel]; simpl; [discriminate|].
  destruct (partition sep s) as [[b a]|]; discriminate.
Qed.

(** The subscript [1] of [raw.split(fence)[1]] is always in range: the text
    starts with the marker, so the split has at least two parts.  Hence
    [strip_fences] returns a text for every reply. *)
Theorem strip_fences_returns :
  ∀ content : string, ∃ raw, strip_fences content = Ok raw.
Proof.
  intros content. rewrite strip_fences_unfold.
  destruct (startswith (strip content) fence) eqn:Hfenced; [|eexists; reflexivity].
  unfold startswith in Hfenced. apply prefix_split in Hfenced as (x & Hx).
  rewrite Hx. unfold split.
  assert (Hlen : ∃ n, String.length (fence +:+ x) = S n).
  { rewrite length_append. simpl. eexists. reflexivity. }
  destruct Hlen as (n & ->). cbn [split_fuel].
  rewrite partition_opening_fence.
  pose proof (split_fuel_nonempty n fence x) as Hne.
  destruct (split_fuel n fence x) as [|part parts]; [contradiction|].
  eexists. reflexivity.
Qed.

(** The fence-free case of fence stripping, at a document between fences
    with the [json] tag. *)
Lemma strip_fences_fence_free_witness :
  strip_fences (js "{'goal':'g'}") = Ok (js "{'goal':'g'}")
  ∧ strip_fences (fenced "json" (js "{'goal':'g'}")) = Ok (js "{'goal':'g'}").
Proof.
  exact (strip_fences_fence_free (js "{'goal':'g'}") "json" eq_refl
           (or_intror eq_refl)).
Defined.

(* ====================================================================== *)
(** ** The requests of a run *)
(* ====================================================================== *)

Lemma search_web_log W G query num log :
  snd (search_web W G query num log)
  = log ++ (if String.eqb (SERPER_API_KEY G) EmptyString then []
            else [SearchCall (SERPER_API_KEY G) query num]).
Proof.
  destruct (String.eqb (SERPER_API_KEY G) EmptyString) eqn:Hkey.
  - apply String.eqb_eq in Hkey.
    rewrite search_web_without_key by exact Hkey. simpl. rewrite app_nil_r. reflexivity.
  - rewrite search_web_with_key by exact Hkey. reflexivity.
Qed.

Lemma search_loop_log W G tasks : ∀ acc log,
  snd (for_each tasks acc (search_task W G) log)
  = log ++ (if String.eqb (SERPER_API_KEY G) EmptyString then []
            else map (fun sq => SearchCall (SERPER_API_KEY G) (SearchQuery.query sq)
                                  default_num_results) tasks).
Proof.
  induction tasks as [|sq tasks IH]; intros acc log; simpl.
  - destruct (String.eqb _ _); rewrite app_nil_r; reflexivity.
  - destruct (search_task_run W G acc sq log) as (hits & log1 & Hweb & Hstep).
    rewrite (run_bind_ok _ _ _ _ _ Hstep), IH.
    pose proof (search_web_log W G (SearchQuery.query sq) default_num_results log) as Hlog.
    rewrite Hweb in Hlog. simpl in Hlog. rewrite Hlog.
    destruct (String.eqb _ _); rewrite <- app_assoc; reflexivity.
Qed.

Lemma step_execute_log W G plan log :
  snd (step_execute W G plan log) = log ++ execute_requests G plan.
Proof.
  unfold execute_requests.
  destruct (step_execute_run W G plan log) as (raw & log1 & Hloop & Hfetch).
  pose proof (search_loop_log W G (AgentPlan.search_queries plan) [] log) as Hlog.
  unfold raw_dict in Hlog. rewrite Hloop in Hlog. simpl in Hlog. subst log1.
  destruct Hfetch as [[Hno Hrun]|(Hyes & page & log2 & Hpage & Hrun)].
  - rewrite Hrun, Hno. simpl. rewrite app_nil_r. reflexivity.
  - rewrite Hrun, Hyes. simpl. rewrite fetch_url_run in Hpage.
    injection Hpage as _ <-. rewrite <- app_assoc. reflexivity.
Qed.

Lemma execute_requests_no_llm G plan : count is_llm (execute_requests G plan) = 0%nat.
Proof.
  unfold execute_requests. rewrite count_app.
  assert (Hs : ∀ tasks, count is_llm
            (map (fun sq => SearchCall (SERPER_API_KEY G) (SearchQuery.query sq)
                              default_num_results) tasks) = 0%nat)
    by (induction tasks; simpl; auto).
  destruct (String.eqb _ _); destruct (fetch_planned plan); rewrite ?Hs; reflexivity.
Qed.

Lemma execute_requests_fetches G plan :
  count is_fetch (execute_requests G plan)
  = (if fetch_planned plan then 1%nat else 0%nat).
Proof.
  unfold execute_requests. rewrite count_app.
  assert (Hs : ∀ tasks, count is_fetch
            (map (fun sq => SearchCall (SERPER_API_KEY G) (SearchQuery.query sq)
                              default_num_results) tasks) = 0%nat)
    by (induction tasks; simpl; auto).
  destruct (String.eqb _ _); destruct (fetch_planned plan); rewrite ?Hs; reflexivity.
Qed.

(** The Execute step issues, in this order, one search request per planned
    task (none without a search credential), each for 5 results, and then
    one fetch request when a fetch is planned; it issues nothing else. *)
Theorem step_execute_requests :
  ∀ (W : World) (G : Globals) (plan : AgentPlan.t) log,
    snd (step_execute W G plan log) = log ++ execute_requests G plan
    ∧ count is_llm (execute_requests G plan) = 0%nat
    ∧ count is_search (execute_requests G plan)
      = (if String.eqb (SERPER_API_KEY G) EmptyString then 0%nat
         else length (AgentPlan.search_queries plan))
    ∧ count is_fetch (execute_requests G plan)
      = (if fetch_planned plan then 1%nat else 0%nat).
Proof.
  intros W G plan log. split; [|split; [|split]].
  - apply step_execute_log.
  - apply execute_requests_no_llm.
  - unfold execute_requests. rewrite count_app.
    assert (Hs : ∀ tasks, count is_search
              (map (fun sq => SearchCall (SERPER_API_KEY G) (SearchQuery.query sq)
                                default_num_results) tasks) = length tasks).
    { induction tasks as [|sq tasks IH]; [reflexivity|].
      unfold count in *. simpl. rewrite IH. reflexivity. }
    destruct (String.eqb _ _); destruct (fetch_planned plan); rewrite ?Hs;
      unfold count; simpl; lia.
  - apply execute_requests_fetches.
Qed.

Lemma dict_set_Forall (P : string * raw_value → Prop) d k v :
  (∀ k', String.eqb k k' = true → P (k', v)) → P (k, v) →
  Forall P d → Forall P (dict_set d k v).
Proof.
  intros Hsame Hnew. induction d as [|[k0 v0] d IH]; simpl; intros Hd.
  - constructor; [exact Hnew | constructor].
  - apply Forall_cons in Hd as [H0 Hd].
    destruct (String.eqb k k0) eqn:E.
    + constructor; [apply Hsame, E | exact Hd].
    + constructor; [exact H0 | apply IH, Hd].
Qed.

(** What the Execute step hands to the Extract step: search results under
    every key but the fetch key. *)
Lemma step_execute_entries W G plan log d log' :
  step_execute W G plan log = (Ok d, log') → Forall results_entry d.
Proof.
  intros Hrun.
  destruct (step_execute_run W G plan log) as (raw & log1 & Hloop & Hfetch).
  assert (Hraw : Forall results_entry raw).
  { clear Hfetch Hrun. revert Hloop.
    assert (Hgen : ∀ tasks acc l d1 l1,
              Forall results_entry acc →
              for_each tasks acc (search_task W G) l = (Ok d1, l1) →
              Forall results_entry d1).
    { induction tasks as [|sq tasks IH]; simpl; intros acc l d1 l1 Hacc H.
      - injection H as <- _. exact Hacc.
      - destruct (search_task_run W G acc sq l) as (hits & l2 & _ & Hstep).
        rewrite (run_bind_ok _ _ _ _ _ Hstep) in H.
        eapply IH; [|exact H].
        apply dict_set_Forall; [| |exact Hacc]; intros; right; eexists; reflexivity. }
    apply Hgen. constructor. }
  destruct Hfetch as [[_ Hx]|(_ & page & log2 & _ & Hx)];
    rewrite Hx in Hrun; injection Hrun as <- _.
  - exact Hraw.
  - apply dict_set_Forall; [| |exact Hraw].
    + intros k' Hk. apply String.eqb_eq in Hk. subst k'. left. reflexivity.
    + left. reflexivity.
Qed.

Lemma extract_context_ok W d :
  Forall results_entry d → ∃ lines sources, extract_context W d = Ok (lines, sources).
Proof.
  unfold extract_context.
  remember (@nil string, @nil json) as st eqn:E. clear E. revert st.
  induction d as [|[k v] d IH]; intros [lines sources] Hd; simpl.
  - eauto.
  - apply Forall_cons in Hd as [Hkv Hd].
    destruct (String.eqb k "__url_fetch__") eqn:Hk.
    + apply IH, Hd.
    + destruct Hkv as [Hfetch|(hits & Hv)]; simpl in *.
      * subst k. discriminate Hk.
      * subst v. apply IH, Hd.
Qed.

Lemma extractor_user_ok W query d :
  Forall results_entry d → ∃ user, extractor_user W query d = Ok user.
Proof.
  intros Hd. destruct (extract_context_ok W d Hd) as (lines & sources & Hctx).
  unfold extractor_user. rewrite Hctx. eexists. reflexivity.
Qed.

(** Once its prompt is built, the Extract step is its completion request
    and the validation of the reply. *)
Lemma step_extract_run W G query d log user :
  extractor_user W query d = Ok user →
  step_extract W G query d log
  = (match completion_reply W extractor_system user (FactList_model (floats W)) log with
     | Ok fact_list => Ok (FactList.facts fact_list)
     | Raise e => Raise e
     end,
     log ++ [completion_request W G extractor_system user (FactList_model (floats W))]).
Proof.
  unfold extractor_user, step_extract. intros Huser.
  rewrite run_bind, run_lift.
  destruct (extract_context W d) as [[lines sources]|e]; [|discriminate Huser].
  injection Huser as <-. cbn beta iota.
  rewrite run_bind, llm_structured_run.
  unfold completion_reply, completion_request, extractor_system.
  destruct (structured_reply _ _ _ _ _); reflexivity.
Qed.

(** On the mapping returned by the Execute step, the Extract step never
    fails while building its context: it always reaches its completion
    request, issues exactly that one request, and fails only if that
    request or the validation of its reply fails. *)
Theorem step_extract_after_execute :
  ∀ (W : World) (G : Globals) (plan : AgentPlan.t) (query : string) log d log1,
    step_execute W G plan log = (Ok d, log1) →
    ∃ system user,
      step_extract W G query d log1
      = (match structured_reply W system user (FactList_model (floats W)) log1 with
         | Ok fact_list => Ok (FactList.facts fact_list)
         | Raise e => Raise e
         end,
         log1 ++ [LlmCall (client_api_key (client G)) GROQ_MODEL
                          default_temperature 2048 system user]).
Proof.
  intros W G plan query log d log1 Hrun.
  apply step_execute_entries in Hrun.
  destruct (extractor_user_ok W query d Hrun) as (user & Huser).
  exists (full_system W extractor_system (FactList_model (floats W))), user.
  apply step_extract_run, Huser.
Qed.

(** The Extract step after an Execute step without search credential. *)
Lemma step_extract_after_execute_witness :
  let W := scripted [facts_text] unreachable unreachable in
  let G := globals "k" EmptyString in
  let plan := {| AgentPlan.goal := "g";
                 AgentPlan.search_queries :=
                   [{| SearchQuery.query := "q"; SearchQuery.reason := "r" |}];
                 AgentPlan.needs_url_fetch := false;
                 AgentPlan.target_url := None |} in
  ∃ facts, fst (step_extract W G "q" [("q", Results [mock_result "q"])] [])
           = Ok facts ∧ length facts = 1%nat.
Proof.
  intros W G plan.
  destruct (step_extract_after_execute W G plan "q" []
              [("q", Results [mock_result "q"])] [] eq_refl)
    as (system & user & Hrun).
  eexists. rewrite Hrun. split; vm_compute; reflexivity.
Defined.

Lemma execute_requests_structured G plan :
  Forall (structured_request G) (execute_requests G plan).
Proof.
  unfold execute_requests. apply Forall_app. split.
  - destruct (String.eqb _ _); [constructor|].
    induction (AgentPlan.search_queries plan); simpl; constructor; simpl; auto.
  - destruct (fetch_planned plan); repeat constructor.
Qed.

Lemma step_execute_full W G plan log :
  ∃ raw, step_execute W G plan log = (Ok raw, log ++ execute_requests G plan).
Proof.
  destruct (step_execute_returns W G plan log) as (raw & log' & Hrun).
  pose proof (step_execute_log W G plan log) as Hlog.
  rewrite Hrun in Hlog. simpl in Hlog. subst log'. eauto.
Qed.

Lemma step_plan_run W G query log :
  step_plan W G query log
  = (completion_reply W planner_system (planner_user query)
       (AgentPlan_model (floats W)) log,
     log ++ [completion_request W G planner_system (planner_user query)
               (AgentPlan_model (floats W))]).
Proof. unfold step_plan. rewrite llm_structured_run. reflexivity. Qed.

Lemma step_synthesize_run W G query facts raw log :
  step_synthesize W G query facts raw log
  = (completion_reply W synthesizer_system (synthesize_prompt W query facts)
       (AgentAnswer_model (floats W)) log,
     log ++ [completion_request W G synthesizer_system
               (synthesize_prompt W query facts) (AgentAnswer_model (floats W))]).
Proof.
  unfold step_synthesize. rewrite run_bind, llm_structured_run.
  unfold completion_reply, completion_request, synthesizer_system.
  destruct (structured_reply _ _ _ _ _); reflexivity.
Qed.

(** A run of the pipeline, step by step, as a function of what the
    provider's replies give. *)
Lemma run_agent_trace W G query log :
  let F := floats W in
  let c1 := completion_request W G planner_system (planner_user query)
              (AgentPlan_model F) in
  match completion_reply W planner_system (planner_user query) (AgentPlan_model F) log with
  | Raise e => run_agent W G query log = (Raise e, log ++ [c1])
  | Ok plan =>
      ∃ raw user2,
        step_execute W G plan (log ++ [c1])
        = (Ok raw, log ++ c1 :: execute_requests G plan)
        ∧ extractor_user W query raw = Ok user2
        ∧ let log2 := log ++ c1 :: execute_requests G plan in
          let c2 := completion_request W G extractor_system user2 (FactList_model F) in
          match completion_reply W extractor_system user2 (FactList_model F) log2 with
          | Raise e => run_agent W G query log = (Raise e, log2 ++ [c2])
          | Ok fact_list =>
              let facts := FactList.facts fact_list in
              let c3 := completion_request W G synthesizer_system
                          (synthesize_prompt W query facts) (AgentAnswer_model F) in
              match completion_reply W synthesizer_system
                      (synthesize_prompt W query facts) (AgentAnswer_model F)
                      (log2 ++ [c2]) with
              | Raise e => run_agent W G query log = (Raise e, log2 ++ [c2; c3])
              | Ok a => run_agent W G query log = (Ok a, log2 ++ [c2; c3])
              end
          end
  end.
Proof.
  intros F c1. subst F. unfold run_agent. rewrite run_bind, step_plan_run. fold c1.
  destruct (completion_reply W planner_system _ _ log) as [plan|e]; [|reflexivity].
  destruct (step_execute_full W G plan (log ++ [c1])) as (raw & Hexec).
  assert (Hlog : (log ++ [c1]) ++ execute_requests G plan
                 = log ++ c1 :: execute_requests G plan)
    by (rewrite <- app_assoc; reflexivity).
  rewrite Hlog in Hexec.
  destruct (extractor_user_ok W query raw (step_execute_entries _ _ _ _ _ _ Hexec))
    as (user2 & Huser).
  exists raw, user2. split; [exact Hexec|]. split; [exact Huser|].
  cbv zeta. rewrite run_bind, Hexec, run_bind, (step_extract_run W G query raw _ user2 Huser).
  destruct (completion_reply W extractor_system user2 _ _) as [fact_list|e];
    [|reflexivity].
  rewrite run_bind, step_synthesize_run.
  destruct (completion_reply W synthesizer_system _ _ _) as [a|e];
    rewrite <- app_assoc; reflexivity.
Qed.



Lemma run_agent_log :
  ∀ (W : World) (G : Globals) (query : string) log,
  let F := floats W in
  let c1 := completion_request W G planner_system (planner_user query)
              (AgentPlan_model F) in
  ∃ suffix,
    snd (run_agent W G query log) = log ++ suffix
    ∧ Forall (structured_request G) suffix
    ∧ (count is_llm suffix <= 3)%nat
    ∧ (is_ok (fst (run_agent W G query log)) = true → count is_llm suffix = 3%nat)
    ∧ match completion_reply W planner_system (planner_user query)
              (AgentPlan_model F) log with
      | Raise _ => suffix = [c1]
      | Ok plan =>
          ∃ raw user2,
            fst (step_execute W G plan (log ++ [c1])) = Ok raw
            ∧ extractor_user W query raw = Ok user2
            ∧ let c2 := completion_request W G extractor_system user2
                          (FactList_model F) in
              match completion_reply W extractor_system user2 (FactList_model F)
                      (log ++ c1 :: execute_requests G plan) with
              | Raise _ => suffix = c1 :: execute_requests G plan ++ [c2]
              | Ok fact_list =>
                  suffix = c1 :: execute_requests G plan
                           ++ [c2; completion_request W G synthesizer_system
                                     (synthesize_prompt W query (FactList.facts fact_list))
                                     (AgentAnswer_model F)]
              end
      end.
Proof.
  intros W G query log F c1. subst F.
  pose proof (run_agent_trace W G query log) as Htrace. cbv zeta in Htrace. fold c1 in Htrace.
  assert (Hc1 : structured_request G c1) by (repeat split).
  pose proof (execute_requests_structured G) as Hreqs.
  pose proof (execute_requests_no_llm G) as Hllm.
  destruct (completion_reply W planner_system _ _ log) as [plan|e].
  2:{ exists [c1]. rewrite Htrace. cbn [fst snd is_ok].
      split; [reflexivity|]. split; [repeat constructor; exact Hc1|].
      split; [unfold count; simpl; lia|]. split; [discriminate|reflexivity]. }
  destruct Htrace as (raw & user2 & Hexec & Huser & Htrace). cbv zeta in Htrace.
  set (c2 := completion_request W G extractor_system user2 _) in *.
  assert (Hc2 : structured_request G c2) by (repeat split).
  destruct (completion_reply W extractor_system user2 _ _) as [fact_list|e] eqn:Hext.
  2:{ exists (c1 :: execute_requests G plan ++ [c2]). rewrite Htrace. cbn [fst snd is_ok].
      split; [rewrite <- app_assoc; reflexivity|].
      split.
      { constructor; [exact Hc1|]. apply Forall_app. split; [apply Hreqs|].
        repeat constructor; exact Hc2. }
      split.
      { change (c1 :: execute_requests G plan ++ [c2])
          with ([c1] ++ execute_requests G plan ++ [c2]).
        rewrite !count_app, Hllm. unfold count. simpl. lia. }
      split; [discriminate|].
      exists raw, user2. rewrite Hexec. cbv zeta. fold c2. rewrite Hext. auto. }
  set (c3 := completion_request W G synthesizer_system _ _) in *.
  assert (Hc3 : structured_request G c3) by (repeat split).
  exists (c1 :: execute_requests G plan ++ [c2; c3]).
  assert (Hcount : count is_llm (c1 :: execute_requests G plan ++ [c2; c3]) = 3%nat).
  { change (c1 :: execute_requests G plan ++ [c2; c3])
      with ([c1] ++ execute_requests G plan ++ [c2; c3]).
    rewrite !count_app, Hllm. reflexivity. }
  assert (Hsnd : snd (run_agent W G query log)
                 = log ++ c1 :: execute_requests G plan ++ [c2; c3]).
  { destruct (completion_reply W synthesizer_system _ _ _); rewrite Htrace;
      cbn [snd]; rewrite <- app_assoc; reflexivity. }
  split; [exact Hsnd|].
  split.
  { constructor; [exact Hc1|]. apply Forall_app. split; [apply Hreqs|].
    repeat constructor; assumption. }
  split; [rewrite Hcount; lia|]. split; [intros _; exact Hcount|].
  exists raw, user2. rewrite Hexec. cbv zeta. fold c2. rewrite Hext. auto.
Qed.


(* ====================================================================== *)
(** ** Search results of a well-formed response *)
(* ====================================================================== *)




(* ====================================================================== *)
(** ** The regular expression of [fetch_url] *)
(* ====================================================================== *)

Lemma tag_end_shorter s : ∀ seen rest,
  tag_end s seen = Some rest →
  (String.length rest + (if seen then 1 else 2) <= String.length s)%nat.
Proof.
  induction s as [|c s IH]; simpl; intros seen rest H; [discriminate H|].
  destruct (Ascii.eqb c ">").
  - destruct seen; [|discriminate H]. injection H as <-. lia.
  - apply IH in H. destruct seen; lia.
Qed.

Lemma re_sub_tags_fuel_length fuel : ∀ s,
  (String.length (re_sub_tags_fuel fuel s) <= String.length s)%nat.
Proof.
  induction fuel as [|fuel IH]; intros s; [destruct s; simpl; lia|].
  destruct s as [|c r]; simpl; [lia|].
  destruct (Ascii.eqb c "<").
  - destruct (tag_end r false) as [rest|] eqn:Htag; simpl.
    + apply tag_end_shorter in Htag. specialize (IH rest). lia.
    + specialize (IH r). lia.
  - simpl. specialize (IH r). lia.
Qed.

Lemma re_sub_tags_fuel_plain fuel : ∀ s,
  has_char "<" s = false → re_sub_tags_fuel fuel s = s.
Proof.
  induction fuel as [|fuel IH]; intros s H; [destruct s; reflexivity|].
  destruct s as [|c r]; [reflexivity|]. simpl in *.
  apply orb_false_iff in H as [Hc Hr]. rewrite Hc. rewrite IH by exact Hr. reflexivity.
Qed.

(** Without BeautifulSoup, the text [fetch_url] extracts from a page is
    never longer than the page, and a page without any [<] is returned
    unchanged up to the cut at [max_chars]. *)
Theorem fetch_url_regex_fallback :
  ∀ (W : World) (url : string) (max_chars : Z) log page,
    bs4_get_text W = None →
    httpx_get W log url = Ok page →
    fetch_url W url max_chars log
    = (Ok (slice_to (re_sub_tags page) max_chars), log ++ [FetchCall url])
    ∧ (String.length (re_sub_tags page) <= String.length page)%nat
    ∧ (has_char "<" page = false → re_sub_tags page = page).
Proof.
  intros W url max_chars log page Hbs Hget.
  rewrite fetch_url_run, Hget. simpl. unfold extract_text. rewrite Hbs.
  split; [reflexivity|]. split.
  - apply re_sub_tags_fuel_length.
  - apply re_sub_tags_fuel_plain.
Qed.

(** The fallback at a small page. *)
Lemma fetch_url_regex_fallback_witness :
  fetch_url (scripted [] unreachable (Ok "<h1>Menu</h1>open")) "u" 4000 []
  = (Ok " Menu open", [FetchCall "u"]).
Proof.
  destruct (fetch_url_regex_fallback
              (scripted [] unreachable (Ok "<h1>Menu</h1>open")) "u" 4000 []
              "<h1>Menu</h1>open" eq_refl eq_refl) as (Hrun & _).
  exact Hrun.
Defined.

Lemma tag_end_seen_none s : tag_end s true = None ↔ has_char ">" s = false.
Proof.
  induction s as [|c s IH]; simpl; [tauto|].
  destruct (Ascii.eqb c ">"); simpl; [split; discriminate | exact IH].
Qed.

Lemma re_sub_tags_fuel_no_close fuel : ∀ s,
  has_char ">" s = false → re_sub_tags_fuel fuel s = s.
Proof.
  induction fuel as [|fuel IH]; intros s H; [destruct s; reflexivity|].
  destruct s as [|c r]; [reflexivity|]. simpl in *.
  apply orb_false_iff in H as [Hc Hr].
  assert (Hnone : tag_end r false = None).
  { destruct r as [|c' r']; [reflexivity|]. simpl in *.
    apply orb_false_iff in Hr as [Hc' Hr']. rewrite Hc'.
    apply tag_end_seen_none. exact Hr'. }
  rewrite Hnone, IH by exact Hr. destruct (Ascii.eqb c "<"); reflexivity.
Qed.

(** Where the pattern does not match right after a [<], it does not match
    there after the substitution either. *)
Lemma tag_end_none_kept fuel r :
  tag_end r false = None → tag_end (re_sub_tags_fuel fuel r) false = None.
Proof.
  intros H. destruct r as [|c r']; [destruct fuel; exact H|].
  simpl in H. destruct (Ascii.eqb c ">") eqn:Hc.
  - destruct fuel as [|fuel]; simpl; [rewrite Hc; reflexivity|].
    assert (Ascii.eqb c "<" = false) as ->.
    { apply Ascii.eqb_eq in Hc. subst c. reflexivity. }
    simpl. rewrite Hc. reflexivity.
  - apply tag_end_seen_none in H.
    rewrite re_sub_tags_fuel_no_close; [simpl; rewrite Hc; apply tag_end_seen_none, H|].
    simpl. rewrite Hc. exact H.
Qed.

Lemma re_sub_tags_fuel_no_tag fuel : ∀ s,
  (String.length s <= fuel)%nat → has_tag (re_sub_tags_fuel fuel s) = false.
Proof.
  induction fuel as [|fuel IH]; intros s Hlen.
  - destruct s; [reflexivity | simpl in Hlen; lia].
  - destruct s as [|c r]; [reflexivity|]. simpl in Hlen. simpl.
    destruct (Ascii.eqb c "<") eqn:Hc.
    + destruct (tag_end r false) as [rest|] eqn:Htag.
      * simpl. apply IH. apply tag_end_shorter in Htag. lia.
      * simpl. rewrite Hc, (tag_end_none_kept fuel r Htag). simpl.
        apply IH. lia.
    + simpl. rewrite Hc. simpl. apply IH. lia.
Qed.

(** The substitution leaves no markup tag behind: in its result the pattern
    matches nowhere. *)
Theorem re_sub_tags_no_tag : ∀ s : string, has_tag (re_sub_tags s) = false.
Proof. intros s. apply re_sub_tags_fuel_no_tag. lia. Qed.

(* ====================================================================== *)
(** ** Plans that plan no fetch *)
(* ====================================================================== *)

Lemma defaulted_ok_inv {A} ms name (conv : json → result A) d a :
  Field.defaulted ms name conv d = Ok a →
  (lookup name ms = None ∧ a = d) ∨ (∃ v, lookup name ms = Some v ∧ conv v = Ok a).
Proof.
  unfold Field.defaulted. destruct (lookup name ms) as [v|]; intros H.
  - right. eauto.
  - left. injection H as <-. auto.
Qed.

(** A validated plan plans a fetch exactly when its document gives
    [needs_url_fetch] a value that the validation reads as true, be it
    [true], the number 1 or a string such as ['yes'], and gives
    [target_url] a string that is not empty.  In every other case, the
    member omitted, read as false, or the URL omitted, null or empty, the
    Execute step issues no fetch request; and it issues exactly one when
    a fetch is planned. *)
Theorem plan_without_fetch :
  ∀ (F : Floats) (raw : string) (plan : AgentPlan.t) (ms : list (string * json)),
    model_validate_json (AgentPlan_model F) raw = Ok plan →
    loads raw = Some (JObj ms) →
    (fetch_planned plan = true
     ↔ (∃ v, lookup "needs_url_fetch" ms = Some v ∧ Field.as_bool F v = Ok true)
       ∧ (∃ s, lookup "target_url" ms = Some (JStr s) ∧ s ≠ EmptyString))
    ∧ ∀ W G log, count is_fetch (snd (step_execute W G plan log))
                 = (count is_fetch log + if fetch_planned plan then 1 else 0)%nat.
Proof.
  intros F raw plan ms Hvalid Hraw. split.
  - apply model_validate_json_ok_inv in Hvalid as (j & Hj & Hvalid).
    rewrite Hraw in Hj. injection Hj as <-.
    simpl in Hvalid. unfold AgentPlan.validate in Hvalid. simpl in Hvalid.
    do 4 bind_inv Hvalid. injection Hvalid as <-.
    unfold fetch_planned. simpl.
    apply defaulted_ok_inv in Hv1. apply defaulted_ok_inv in Hv2.
    rewrite andb_true_iff. split.
    + intros [Hneeds Hurl]. split.
      * destruct Hv1 as [[_ ->]|(x & Hx & Hb)]; [discriminate Hneeds|].
        subst v1. eauto.
      * destruct Hv2 as [[_ ->]|(x & Hx & Hb)]; [discriminate Hurl|].
        unfold Field.as_optional in Hb.
        destruct x; simpl in Hb; try discriminate Hb;
          [injection Hb as <-; discriminate Hurl|].
        injection Hb as <-. exists s. split; [exact Hx|].
        simpl in Hurl. apply negb_true_iff, String.eqb_neq in Hurl. exact Hurl.
    + intros [(x & Hx & Hb) (s & Hs & Hne)]. split.
      * destruct Hv1 as [[Hnone _]|(x' & Hx' & Hb')]; [congruence|].
        rewrite Hx in Hx'. injection Hx' as <-. rewrite Hb in Hb'.
        injection Hb' as <-. reflexivity.
      * destruct Hv2 as [[Hnone _]|(x' & Hx' & Hb')]; [congruence|].
        rewrite Hs in Hx'. injection Hx' as <-. simpl in Hb'. injection Hb' as <-.
        simpl. apply negb_true_iff, String.eqb_neq. exact Hne.
  - intros W G log. rewrite step_execute_log, count_app, execute_requests_fetches.
    reflexivity.
Qed.

(** Two plans: one asks for the fetch with the number 1 and gives no URL,
    and plans no fetch; one asks with the string ['Yes'] and gives a URL,
    and plans the fetch. *)
Lemma plan_without_fetch_witness :
  (∃ plan, model_validate_json (AgentPlan_model sample_floats)
             (js "{'goal':'g','search_queries':[],'needs_url_fetch':1,'target_url':null}")
           = Ok plan
           ∧ fetch_planned plan = false)
  ∧ (∃ plan, model_validate_json (AgentPlan_model sample_floats)
               (js "{'goal':'g','search_queries':[],'needs_url_fetch':'Yes','target_url':'u'}")
             = Ok plan
             ∧ fetch_planned plan = true).
Proof.
  split.
  - eexists. split; [reflexivity|].
    destruct (plan_without_fetch sample_floats
                (js "{'goal':'g','search_queries':[],'needs_url_fetch':1,'target_url':null}")
                _ [("goal", JStr "g"); ("search_queries", JArr []);
                   ("needs_url_fetch", JNum 1); ("target_url", JNull)]
                eq_refl eq_refl) as [Hiff _].
    apply not_true_is_false. intros Hyes.
    apply Hiff in Hyes as [_ (s & Hs & _)]. discriminate Hs.
  - eexists. split; [reflexivity|].
    destruct (plan_without_fetch sample_floats
                (js "{'goal':'g','search_queries':[],'needs_url_fetch':'Yes','target_url':'u'}")
                _ [("goal", JStr "g"); ("search_queries", JArr []);
                   ("needs_url_fetch", JStr "Yes"); ("target_url", JStr "u")]
                eq_refl eq_refl) as [Hiff _].
    apply Hiff. split.
    + exists (JStr "Yes"). split; reflexivity.
    + exists "u". split; [reflexivity|discriminate].
Defined.

(* ====================================================================== *)
(** ** Facts handed to the Synthesize step *)
(* ====================================================================== *)



(* ====================================================================== *)
(** ** Credentials taken from the environment *)
(* ====================================================================== *)

(** When [GROQ_API_KEY] is set in the environment, the client is built with
    its value and every completion request of the program is issued under
    that key, to model llama3-70b-8192. *)
Theorem environment_key_used :
  ∀ (environ : gmap string string) (W : World) (k : string),
    environ !! "GROQ_API_KEY" = Some k →
    ∃ G, module_init environ = Ok G
         ∧ client_api_key (client G) = k
         ∧ SERPER_API_KEY G = getenv environ "SERPER_API_KEY" EmptyString
         ∧ Forall (fun ev => is_llm ev = true →
                             ∃ system user,
                               ev = LlmCall k GROQ_MODEL default_temperature 2048
                                      system user)
                  (snd (program W environ)).
Proof.
  intros environ W k Hset. eexists. split; [reflexivity|]. simpl.
  split; [unfold getenv; rewrite Hset; reflexivity|].
  split; [reflexivity|].
  unfold program. simpl.
  match goal with |- context [run_agent W ?G _ _] =>
    destruct (run_agent_log W G main_query []) as (suffix & -> & Hall & _)
  end.
  simpl. eapply Forall_impl; [exact Hall|].
  intros [key model t mt system user| |] Hev Hllm; try discriminate Hllm.
  simpl in Hev. destruct Hev as (-> & -> & -> & ->).
  exists system, user. simpl. unfold getenv. rewrite Hset. reflexivity.
Qed.

(** The program under an environment that sets the key to "gsk-test". *)
Lemma environment_key_used_witness :
  ∃ G, module_init {[ "GROQ_API_KEY" := "gsk-test" ]} = Ok G
       ∧ client_api_key (client G) = "gsk-test".
Proof.
  destruct (environment_key_used {[ "GROQ_API_KEY" := "gsk-test" ]}
              (scripted [] unreachable unreachable) "gsk-test")
    as (G & Hinit & Hkey & _).
  - vm_compute. reflexivity.
  - exists G. split; [exact Hinit | exact Hkey].
Defined.

(** ** The restaurant API ([main.py]) *)

Section TastefindFacts.

Import Tastefind.

Lemma py_min_capped x : above_five (py_min x (Finite 5)) = false.
Proof.
  unfold above_five, py_min.
  destruct (float_lt (Finite 5) x) eqn:E; [reflexivity | exact E].
Qed.

Lemma build_some i name d r :
  build i name d = Some r →
  Restaurant.name r = name
  ∧ above_five (Restaurant.rating r) = false
  ∧ Restaurant.price r = Some "$$"
  ∧ length (Restaurant.categories r) = 1%nat.
Proof.
  unfold build.
  destruct (as_string (d_category d)) as [category|]; [|discriminate].
  destruct (as_string (d_address d)) as [address|]; [|discriminate].
  destruct (as_optional_string (d_phone d)) as [phone|]; [|discriminate].
  cbn. intros [= <-]. cbn.
  split; [reflexivity|]. split; [apply py_min_capped|]. split; reflexivity.
Qed.

Lemma parse_place_some S i p seen seen' r :
  parse_place S i p seen = (seen', Some r) →
  (key_of r ∉ seen) ∧ key_of r ≠ EmptyString ∧ seen' = {[key_of r]} ∪ seen
  ∧ above_five (Restaurant.rating r) = false
  ∧ Restaurant.price r = Some "$$"
  ∧ length (Restaurant.categories r) = 1%nat.
Proof.
  unfold parse_place.
  destruct p as [| | | | | |ms]; try discriminate.
  destruct (draft S i ms) as [d|]; [|discriminate].
  destruct (as_string (d_name d)) as [name|]; [|discriminate].
  cbv zeta.
  destruct (bool_decide (name_key name ∈ seen)) eqn:Hin; [discriminate|].
  destruct (String.eqb (name_key name) EmptyString) eqn:He; [discriminate|].
  cbn [orb]. intros [= <- Hb].
  apply build_some in Hb as (Hn & Hr & Hp & Hc).
  unfold key_of. rewrite Hn.
  apply bool_decide_eq_false in Hin. apply String.eqb_neq in He.
  repeat split; assumption.
Qed.

Lemma parse_place_none S i p seen seen' :
  parse_place S i p seen = (seen', None) → seen ⊆ seen'.
Proof.
  unfold parse_place.
  destruct p as [| | | | | |ms]; try (intros [= <-]; reflexivity).
  destruct (draft S i ms) as [d|]; [|intros [= <-]; reflexivity].
  destruct (as_string (d_name d)) as [name|]; [|intros [= <-]; reflexivity].
  cbv zeta.
  destruct (_ || _); [intros [= <-]; reflexivity|].
  intros [= <- _]. apply union_subseteq_r.
Qed.

Lemma parse_loop_length S limit : ∀ places i seen rs,
  Z.of_nat (length rs) < limit ∨ rs = [] →
  Z.of_nat (length (parse_loop S limit places i seen rs)) <= Z.max limit 1
  ∧ (length (parse_loop S limit places i seen rs) <= length rs + length places)%nat.
Proof.
  induction places as [|p rest IH]; intros i seen rs Hrs; cbn [parse_loop].
  - split; [|cbn; lia]. destruct Hrs as [H| ->]; cbn; lia.
  - destruct (parse_place S i p seen) as [seen' [r|]].
    + cbv zeta. rewrite List.length_app. cbn [length].
      destruct (Z.leb_spec limit (Z.of_nat (length rs + 1))) as [Hle|Hlt].
      * rewrite List.length_app. cbn [length].
        split; [|lia]. destruct Hrs as [H| ->]; cbn in *; lia.
      * destruct (IH (Datatypes.S i) seen' (rs ++ [r])) as [H1 H2].
        { left. rewrite List.length_app. cbn [length]. lia. }
        split; [exact H1|]. rewrite List.length_app in H2. cbn [length] in *. lia.
    + destruct (IH (Datatypes.S i) seen' rs Hrs) as [H1 H2].
      split; [exact H1|]. cbn [length]. lia.
Qed.

Lemma parse_loop_invariant S limit (P : Restaurant.t → Prop) :
  (∀ i p seen seen' r, parse_place S i p seen = (seen', Some r) → P r) →
  ∀ places i seen rs,
  NoDup (map key_of rs) → (∀ r, r ∈ rs → key_of r ∈ seen) → Forall P rs →
  NoDup (map key_of (parse_loop S limit places i seen rs))
  ∧ Forall P (parse_loop S limit places i seen rs).
Proof.
  intros HP.
  induction places as [|p rest IH]; intros i seen rs Hnd Hseen Hall; cbn [parse_loop].
  - split; assumption.
  - destruct (parse_place S i p seen) as [seen' [r|]] eqn:Hp.
    + cbv zeta.
      pose proof (HP _ _ _ _ _ Hp) as HPr.
      apply parse_place_some in Hp as (Hnew & _ & -> & _).
      assert (Hnd' : NoDup (map key_of (rs ++ [r]))).
      { rewrite List.map_app. apply NoDup_app. split; [exact Hnd|]. split.
        - intros k Hk Hk'. cbn in Hk'. apply list_elem_of_singleton in Hk'. subst k.
          apply list_elem_of_fmap in Hk as (r' & Hk & Hr'). apply Hnew.
          rewrite Hk. apply Hseen, Hr'.
        - cbn. apply NoDup_singleton. }
      assert (Hall' : Forall P (rs ++ [r])).
      { apply Forall_app. split; [exact Hall|]. constructor; [exact HPr|constructor]. }
      destruct (limit <=? _); [split; assumption|].
      apply IH; try assumption.
      intros r' Hr'. apply elem_of_app in Hr' as [Hr'|Hr'].
      * apply elem_of_union_r. apply Hseen, Hr'.
      * apply list_elem_of_singleton in Hr'. subst r'.
        apply elem_of_union_l. apply elem_of_singleton. reflexivity.
    + apply parse_place_none in Hp.
      apply IH; try assumption.
      intros r' Hr'. apply Hp, Hseen, Hr'.
Qed.

Lemma parse_results_length S places limit rs :
  parse_serper_results S places limit = Ok rs →
  Z.of_nat (length rs) <= Z.max limit 1.
Proof.
  unfold parse_serper_results.
  destruct (py_iter places) as [items|e]; [|discriminate].
  cbn. intros [= <-].
  apply (parse_loop_length S limit items 0 ∅ []). right. reflexivity.
Qed.

Lemma parse_results_distinct S places limit rs :
  parse_serper_results S places limit = Ok rs →
  NoDup (map key_of rs) ∧ Forall (fun r => key_of r ≠ EmptyString) rs.
Proof.
  unfold parse_serper_results.
  destruct (py_iter places) as [items|e]; [|discriminate].
  cbn. intros [= <-].
  apply parse_loop_invariant.
  - intros i p seen seen' r Hp. apply parse_place_some in Hp. tauto.
  - cbn. constructor.
  - intros r Hr. apply elem_of_nil in Hr. destruct Hr.
  - constructor.
Qed.

(** On a list of places the parser never
    raises, whatever the places are; it returns at most [limit] restaurants,
    or one when [limit] is below one, since the length is tested after the
    append; and never more than there are places. *)
Theorem parse_serper_results_bounded :
  ∀ (S : Services) (items : list json) (limit : Z),
  ∃ rs, parse_serper_results S (JArr items) limit = Ok rs
        ∧ Z.of_nat (length rs) <= Z.max limit 1
        ∧ (length rs <= length items)%nat.
Proof.
  intros S items limit. eexists. split; [reflexivity|].
  destruct (parse_loop_length S limit items 0 ∅ []) as [H1 H2]; [right; reflexivity|].
  split; [exact H1|exact H2].
Qed.

(** The restaurants returned have pairwise
    distinct names up to case and surrounding whitespace, and none has a
    name that is empty once stripped. *)
Theorem parse_serper_results_distinct_names :
  ∀ (S : Services) (places : json) (limit : Z) (rs : list Restaurant.t),
  parse_serper_results S places limit = Ok rs →
  NoDup (map key_of rs) ∧ Forall (fun r => key_of r ≠ EmptyString) rs.
Proof. exact parse_results_distinct. Qed.

(** No restaurant returned is rated above 5,
    whatever the provider sent; each has the price of the medium budget,
    whatever budget was asked for, and exactly one category. *)
Theorem parse_serper_results_fields :
  ∀ (S : Services) (places : json) (limit : Z) (rs : list Restaurant.t),
  parse_serper_results S places limit = Ok rs →
  Forall (fun r => above_five (Restaurant.rating r) = false
                   ∧ Restaurant.price r = BUDGET_PRICE "medium"
                   ∧ length (Restaurant.categories r) = 1%nat) rs.
Proof.
  intros S places limit rs. unfold parse_serper_results.
  destruct (py_iter places) as [items|e]; [|discriminate].
  cbn. intros [= <-].
  apply (parse_loop_invariant S limit
           (fun r => above_five (Restaurant.rating r) = false
                     ∧ Restaurant.price r = BUDGET_PRICE "medium"
                     ∧ length (Restaurant.categories r) = 1%nat)).
  - intros i p seen seen' r Hp. apply parse_place_some in Hp. tauto.
  - cbn. constructor.
  - intros r Hr. apply elem_of_nil in Hr. destruct Hr.
  - constructor.
Qed.

Lemma parse_serper_results_distinct_names_witness :
  ∃ rs, parse_serper_results offline sample_places 5 = Ok rs
        ∧ NoDup (map key_of rs) ∧ Forall (fun r => key_of r ≠ EmptyString) rs.
Proof.
  eexists. split; [reflexivity|].
  exact (parse_serper_results_distinct_names offline sample_places 5 _ eq_refl).
Defined.

Lemma parse_serper_results_fields_witness :
  ∃ rs, parse_serper_results offline sample_places 5 = Ok rs
        ∧ Forall (fun r => above_five (Restaurant.rating r) = false
                           ∧ Restaurant.price r = BUDGET_PRICE "medium"
                           ∧ length (Restaurant.categories r) = 1%nat) rs.
Proof.
  eexists. split; [reflexivity|].
  exact (parse_serper_results_fields offline sample_places 5 _ eq_refl).
Defined.

(* ---------------------------------------------------------------------- *)
(** *** A name is remembered even when its restaurant is dropped *)

Lemma draft_name S i ms d :
  draft S i ms = Some d →
  d_name d = member ms "title" (JStr ("Restaurant " +:+ str_of_nat (i + 1))).
Proof.
  unfold draft. cbv zeta.
  destruct (is_str _ "organic").
  - destruct (as_string (member ms "title" _)); [|discriminate].
    cbn. intros [= <-]. reflexivity.
  - destruct (is_str _ "local").
    + destruct (float_or_zero S _); [|discriminate]. cbn.
      destruct (int_or_zero S _); [|discriminate]. cbn.
      destruct (as_string (member ms "title" _)); [|discriminate]. cbn.
      destruct (as_string (member ms "address" _)); [|discriminate]. cbn.
      intros [= <-]. reflexivity.
    + destruct (float_or_zero S _); [|discriminate]. cbn.
      destruct (int_or_zero S _); [|discriminate]. cbn.
      destruct (json_truthy _).
      * cbn. intros [= <-]. reflexivity.
      * destruct (as_string (member ms "title" _)); [|discriminate].
        cbn. intros [= <-]. reflexivity.
Qed.

Lemma parse_place_seen S i p seen name :
  same_name name p → name_key name ∈ seen → parse_place S i p seen = (seen, None).
Proof.
  intros (ms & t & -> & Htitle & Hkey) Hseen. unfold parse_place.
  destruct (draft S i ms) as [d|] eqn:Hd; [|reflexivity].
  rewrite (draft_name _ _ _ _ Hd). unfold member. rewrite Htitle. cbn [as_string].
  cbv zeta. rewrite Hkey. rewrite (bool_decide_eq_true_2 _ Hseen). reflexivity.
Qed.

Lemma parse_loop_seen S limit name : ∀ rest i seen rs,
  Forall (same_name name) rest → name_key name ∈ seen →
  parse_loop S limit rest i seen rs = rs.
Proof.
  induction rest as [|p rest IH]; intros i seen rs Hall Hseen; [reflexivity|].
  inversion Hall as [|? ? Hp Hrest]; subst.
  cbn [parse_loop]. rewrite (parse_place_seen S i p seen name Hp Hseen).
  apply IH; assumption.
Qed.

Lemma parse_place_unbuildable S i name seen :
  name_key name ∉ seen → name_key name ≠ EmptyString →
  parse_place S i (unbuildable name) seen = ({[name_key name]} ∪ seen, None).
Proof.
  intros Hnew Hne. unfold parse_place, unbuildable.
  change (draft S i [("title", JStr name); ("category", JNum 5)])
    with (Some {| d_name := JStr name; d_address := JStr EmptyString;
                  d_rating := Finite 0; d_review_count := 0; d_phone := JNull;
                  d_category := JNum 5; d_maps_url := maps_search name |}).
  cbn [as_string d_name]. cbv zeta.
  rewrite (bool_decide_eq_false_2 _ Hnew).
  apply String.eqb_neq in Hne. rewrite Hne. reflexivity.
Qed.

(** The name of a place enters the set of seen names before the restaurant
    is validated.  So when a place with a usable name fails the validation,
    here because its category is a number, every later place with the same
    name is skipped as a duplicate, and the name is lost. *)
Theorem failed_place_blocks_name :
  ∀ (S : Services) (name : string) (rest : list json) (limit : Z),
  name_key name ≠ EmptyString →
  Forall (same_name name) rest →
  parse_serper_results S (JArr (unbuildable name :: rest)) limit = Ok [].
Proof.
  intros S name rest limit Hne Hrest.
  unfold parse_serper_results. cbn [py_iter]. cbn [mbind result_bind].
  f_equal. cbn [parse_loop].
  rewrite parse_place_unbuildable; [|apply not_elem_of_empty|exact Hne].
  apply (parse_loop_seen S limit name); [exact Hrest|].
  apply elem_of_union_l, elem_of_singleton. reflexivity.
Qed.

Lemma failed_place_blocks_name_witness :
  parse_serper_results offline
    (JArr [unbuildable "Le Zinc"; JObj [("title", JStr "le zinc")]]) 5 = Ok [].
Proof.
  apply (failed_place_blocks_name offline "Le Zinc" [JObj [("title", JStr "le zinc")]] 5).
  - discriminate.
  - constructor; [|constructor].
    exists [("title", JStr "le zinc")], "le zinc". repeat split; reflexivity.
Defined.

(* ---------------------------------------------------------------------- *)
(** *** The search *)

(** [lat and lng] is false when either coordinate is zero, so a position on
    the equator or on the prime meridian is searched by the location text. *)
Theorem zero_coordinate_ignored :
  ∀ (S : Services) (location : string) (cuisine : option string)
    (other : option pyfloat),
  search_query S location cuisine (Some (Finite 0)) other
  = search_query S location cuisine None None
  ∧ search_query S location cuisine other (Some (Finite 0))
    = search_query S location cuisine None None.
Proof.
  intros S location cuisine other. unfold search_query, has_coordinates. split.
  - destruct other as [b|]; reflexivity.
  - destruct other as [a|]; [|reflexivity]. cbn [float_truthy].
    rewrite andb_false_r. reflexivity.
Qed.

Lemma lookup_map_absent k v : ∀ ms,
  existsb (fun m => String.eqb k (fst m)) ms = false →
  lookup k (map (fun m : string * json =>
                   if String.eqb k (fst m) then (fst m, v) else m) ms) = None.
Proof.
  induction ms as [|[k' x] ms IH]; [reflexivity|].
  cbn [existsb map fst]. intros H. apply orb_false_iff in H as [Hk Hms].
  rewrite Hk. cbn [lookup]. rewrite (IH Hms), Hk. reflexivity.
Qed.

Lemma lookup_obj_set ms k v : lookup k (obj_set ms k v) = Some v.
Proof.
  unfold obj_set. destruct (existsb _ ms) eqn:Hex.
  - induction ms as [|[k' x] ms IH]; [discriminate|].
    cbn [existsb map fst] in *.
    destruct (existsb _ ms) eqn:Hms.
    + cbn [lookup]. destruct (String.eqb k k'); cbn [lookup]; rewrite (IH eq_refl);
        reflexivity.
    + rewrite orb_false_r in Hex. rewrite Hex. cbn [lookup fst].
      rewrite (lookup_map_absent k v ms Hms), Hex. reflexivity.
  - clear Hex. induction ms as [|[k' x] ms IH].
    + cbn. rewrite String.eqb_refl. reflexivity.
    + cbn [app lookup]. rewrite IH. reflexivity.
Qed.

Lemma tagged_ok data key tag items :
  tagged data key tag = Ok items →
  Forall (fun v => ∃ ms, v = JObj ms ∧ lookup "_type" ms = Some (JStr tag)) items.
Proof.
  unfold tagged. intros H. bind_inv H. bind_inv H.
  eapply mapM_ok_Forall; [|exact H].
  intros j a Hj. destruct j; try discriminate Hj.
  injection Hj as <-. eexists. split; [reflexivity|]. apply lookup_obj_set.
Qed.

Lemma length_list_slice_to {A} (l : list A) k :
  0 <= k → Z.of_nat (length (list_slice_to l k)) <= k.
Proof.
  intros Hk. unfold list_slice_to. rewrite List.length_firstn.
  destruct (Z.ltb_spec k 0); lia.
Qed.

Lemma combined_results_ok S body l v :
  combined_results S body l = Ok v →
  ∃ items, v = JArr items ∧ Forall tagged_result items
           ∧ (0 <= l → Z.of_nat (length items) <= l * 3).
Proof.
  unfold combined_results. intros H. bind_inv H. bind_inv H. bind_inv H.
  injection H as <-. eexists. split; [reflexivity|]. split.
  - unfold list_slice_to. apply Forall_take. apply Forall_app. split.
    + eapply Forall_impl; [eapply tagged_ok; eassumption|].
      intros item (ms & -> & Hitem). exists ms. auto.
    + eapply Forall_impl; [eapply tagged_ok; eassumption|].
      intros item (ms & -> & Hitem). exists ms. auto.
  - intros Hl. apply length_list_slice_to. lia.
Qed.

Lemma found_places_some S status body places :
  found_places S status body = Ok (Some places) → json_truthy places = true.
Proof.
  unfold found_places. destruct (status =? 200); [|discriminate].
  intros H. bind_inv H. bind_inv H. bind_inv H.
  destruct (json_truthy _) eqn:Ht; [|discriminate].
  injection H as <-. exact Ht.
Qed.

Lemma fallback_search_run S query l log :
  match fallback_search S query l log with
  | (Return v, log') =>
      (∃ items, v = JArr items ∧ Forall tagged_result items
                ∧ (0 <= l → Z.of_nat (length items) <= l * 3))
      ∧ log' = log ++ [SerperPost "/search" query (Z.min (l * 3) 20)]
  | (Throw (HTTPException status _), log') =>
      status = 503 ∧ log' = log ++ [SerperPost "/search" query (Z.min (l * 3) 20)]
  | (Throw (Exception _ _), log') =>
      log' = log ++ [SerperPost "/search" query (Z.min (l * 3) 20)]
  end.
Proof.
  unfold fallback_search, mbind, Act_bind, post.
  destruct (serper_post S log "/search" query _) as [[status body]|e]; [|reflexivity].
  destruct (negb (status =? 200)); [split; reflexivity|].
  unfold py. destruct (combined_results S body l) as [v|e] eqn:Hv; [|reflexivity].
  split; [|reflexivity]. eapply combined_results_ok, Hv.
Qed.

Lemma search_restaurants_serper_run :
  ∀ (S : Services) (location : string) (cuisine budget : option string) (l : Z)
    (lat lng : option pyfloat) (log : list call),
  search_outcome S location cuisine lat lng l log
    (search_restaurants_serper S location cuisine budget (Some l) lat lng log).
Proof.
  intros S location cuisine budget l lat lng log.
  unfold search_outcome, search_restaurants_serper, places_call, search_call.
  cbv zeta. unfold mbind at 1, Act_bind at 1, post at 1.
  destruct (serper_post S log "/places" _ _) as [[status body]|e]; [|left; reflexivity].
  unfold mbind at 1, Act_bind at 1, py at 1.
  destruct (found_places S status body) as [[places|]|e] eqn:Hfound.
  - left. split; [|reflexivity]. eapply found_places_some, Hfound.
  - pose proof (fallback_search_run S (search_query S location cuisine lat lng) l
                  (log ++ [SerperPost "/places" (search_query S location cuisine lat lng)
                             (Z.min (l * 3) 20)])) as Hrun.
    destruct (fallback_search S _ l _) as [[v|[status' d|cls msg]] log'].
    + right. destruct Hrun as ((items & -> & Hall & Hlen) & ->).
      exists items. rewrite <- app_assoc. auto.
    + destruct Hrun as (-> & ->). rewrite <- app_assoc. auto.
    + right. rewrite Hrun, <- app_assoc. reflexivity.
  - left. reflexivity.
Qed.


(** A search makes one request to [/places] and, when that gives no places,
    one to [/search], both for [min(3 * limit, 20)] results.  It returns
    either places that are truthy or a list of results each tagged local or
    organic, at most [3 * limit] of them; the only HTTP error it raises
    is the 503 of a fallback that was not answered with 200. *)
Theorem search_restaurants_serper_outcomes :
  ∀ (S : Services) (location : string) (cuisine budget : option string) (l : Z)
    (lat lng : option pyfloat) (log : list call),
  search_outcome S location cuisine lat lng l log
    (search_restaurants_serper S location cuisine budget (Some l) lat lng log).
Proof. exact search_restaurants_serper_run. Qed.

(* ---------------------------------------------------------------------- *)
(** *** The top pick *)

Lemma is_linebreak_not_lf c : is_linebreak c = false → (code c =? 10) = false.
Proof.
  unfold is_linebreak. cbv zeta. intros H.
  destruct (Z.eqb_spec (code c) 10) as [E|]; [|reflexivity].
  rewrite E in H. discriminate H.
Qed.

Lemma lines_from_one_line : ∀ b f,
  has_linebreak b = false → b ≠ EmptyString → lines_from f b = [b].
Proof.
  induction b as [|c r IH]; intros f Hb Hne; [contradiction|].
  cbn [has_linebreak] in Hb. apply orb_false_iff in Hb as [Hc Hr].
  cbn [lines_from]. rewrite (is_linebreak_not_lf c Hc), andb_false_r, Hc.
  destruct r as [|c' r']; [reflexivity|].
  rewrite (IH false Hr); [reflexivity|discriminate].
Qed.

Lemma lines_from_last_line b :
  has_linebreak b = false → b ≠ EmptyString →
  ∀ a f, ∃ before, lines_from f (a +:+ String "010" b) = before ++ [b]
                   ∧ (f = false → before ≠ []).
Proof.
  intros Hb Hne. induction a as [|c a IH]; intros f.
  - change (EmptyString +:+ String "010" b) with (String "010" b).
    cbn [lines_from]. destruct f.
    + exists []. split; [|discriminate].
      change (true && (code "010" =? 10)) with true. cbv iota.
      apply lines_from_one_line; assumption.
    + exists [EmptyString]. split; [|discriminate].
      change (false && (code "010" =? 10)) with false. cbv iota.
      change (is_linebreak "010") with true. cbv iota.
      rewrite lines_from_one_line; [reflexivity|assumption|assumption].
  - change (String c a +:+ String "010" b) with (String c (a +:+ String "010" b)).
    cbn [lines_from].
    destruct (f && (code c =? 10)).
    + destruct (IH false) as (before & -> & Hbefore). exists before. auto.
    + destruct (is_linebreak c).
      * destruct (IH (code c =? 13)) as (before & -> & _).
        exists (EmptyString :: before). split; [reflexivity|discriminate].
      * destruct (IH false) as (before & -> & Hbefore).
        destruct before as [|l ls]; [destruct (Hbefore eq_refl eq_refl)|].
        exists (String c l :: ls). split; [reflexivity|discriminate].
Qed.

Lemma top_pick_of_last_line body line :
  has_linebreak line = false →
  startswith (strip line) "TOP_PICK:" = true →
  top_pick_of (body +:+ nl +:+ line)
  = Some (strip (replace (strip line) "TOP_PICK:" EmptyString)).
Proof.
  intros Hline Hstart.
  assert (Hne : line ≠ EmptyString) by (intros ->; discriminate Hstart).
  unfold top_pick_of, splitlines.
  change (nl +:+ line) with (String "010" line).
  destruct (lines_from_last_line line Hline Hne body false) as (before & -> & _).
  rewrite rev_unit. cbn [List.find]. rewrite Hstart. reflexivity.
Qed.

(** The pick is read off the last line when that line carries the marker,
    whatever precedes it, other marker lines included. *)
Theorem top_pick_last_line_wins :
  ∀ body line : string,
  has_linebreak line = false →
  startswith (strip line) "TOP_PICK:" = true →
  top_pick_of (body +:+ nl +:+ line)
  = Some (strip (replace (strip line) "TOP_PICK:" EmptyString)).
Proof. exact top_pick_of_last_line. Qed.

Lemma top_pick_last_line_wins_witness :
  top_pick_of ("TOP_PICK: Le Zinc" +:+ nl +:+ "  TOP_PICK:Chez Nous ")
  = Some "Chez Nous".
Proof.
  exact (top_pick_last_line_wins "TOP_PICK: Le Zinc" "  TOP_PICK:Chez Nous "
           eq_refl eq_refl).
Defined.

Lemma has_linebreak_app a b :
  has_linebreak (a +:+ b) = has_linebreak a || has_linebreak b.
Proof.
  induction a as [|c a IH]; [reflexivity|].
  change (String c a +:+ b) with (String c (a +:+ b)).
  cbn [has_linebreak]. rewrite IH, orb_assoc. reflexivity.
Qed.

Lemma strip_fixed_rstrip name : strip name = name → rstrip name = name.
Proof.
  intros H. rewrite <- H at 1. unfold strip. rewrite rstrip_idempotent. exact H.
Qed.

(** A reply that ends with the line asked for in the prompt, the marker, one
    space and a name, gives that name back, provided the name has no line
    break, no surrounding whitespace and does not contain the marker. *)
Theorem top_pick_round_trip :
  ∀ body name : string,
  has_linebreak name = false →
  strip name = name →
  partition "TOP_PICK:" name = None →
  top_pick_of (body +:+ nl +:+ "TOP_PICK: " +:+ name) = Some name.
Proof.
  intros body name Hline Hstrip Hfree.
  destruct name as [|c name'] eqn:Hname.
  { rewrite top_pick_of_last_line; reflexivity. }
  rewrite <- Hname in *.
  assert (Hne : name ≠ EmptyString) by (rewrite Hname; discriminate).
  assert (Hs : strip ("TOP_PICK: " +:+ name) = "TOP_PICK: " +:+ name).
  { unfold strip.
    change (lstrip ("TOP_PICK: " +:+ name)) with ("TOP_PICK: " +:+ name).
    apply rstrip_app_kept; [exact Hne|apply strip_fixed_rstrip, Hstrip]. }
  rewrite top_pick_of_last_line.
  - rewrite Hs. f_equal. unfold replace, split.
    assert (Hlen : ∃ n, String.length ("TOP_PICK: " +:+ name) = Datatypes.S n).
    { rewrite length_append. cbn. eexists. reflexivity. }
    destruct Hlen as (n & ->). cbn [split_fuel].
    change ("TOP_PICK: " +:+ name) with ("TOP_PICK:" +:+ String " " name) at 1.
    assert (Hopen : partition "TOP_PICK:" ("TOP_PICK:" +:+ String " " name)
                    = Some (EmptyString, String " " name)).
    { change ("TOP_PICK:" +:+ String " " name)
        with (String "T" ("OP_PICK:" +:+ String " " name)).
      rewrite partition_cons.
      change (String "T" ("OP_PICK:" +:+ String " " name))
        with ("TOP_PICK:" +:+ String " " name).
      rewrite prefix_app_self. reflexivity. }
    rewrite Hopen.
    assert (Hrest : split_fuel n "TOP_PICK:" (String " " name) = [String " " name]).
    { destruct n; [reflexivity|]. cbn [split_fuel]. rewrite partition_cons.
      change (String.prefix "TOP_PICK:" (String " " name)) with false. cbv iota.
      rewrite Hfree. reflexivity. }
    rewrite Hrest. cbn [join].
    change (EmptyString +:+ EmptyString +:+ String " " name) with (String " " name).
    exact Hstrip.
  - rewrite has_linebreak_app, Hline. reflexivity.
  - rewrite Hs. apply (prefix_app_self "TOP_PICK:" (String " " name)).
Qed.

Lemma top_pick_round_trip_witness :
  top_pick_of ("# Picks" +:+ nl +:+ "TOP_PICK: Chez Nous") = Some "Chez Nous".
Proof.
  exact (top_pick_round_trip "# Picks" "Chez Nous" eq_refl eq_refl eq_refl).
Defined.

(* ---------------------------------------------------------------------- *)
(** *** The routes *)

Lemma completions_app l1 l2 :
  completions (l1 ++ l2) = (completions l1 + completions l2)%nat.
Proof. unfold completions. rewrite List.filter_app, List.length_app. reflexivity. Qed.

Lemma guarded_search_run S location cuisine budget limit lat lng log :
  match try_except_exception true
          (search_restaurants_serper S location cuisine budget limit lat lng)
          (fun e => throw (HTTPException 500 ("Search failed: " +:+ str_of_error S e)))
          log with
  | (Return v, log') =>
      ∃ l searches, limit = Some l ∧ log' = log ++ searches
                    ∧ completions searches = 0%nat
                    ∧ (1 <= length searches <= 2)%nat
  | (Throw e, log') =>
      completions log' = completions log
      ∧ ∃ status detail, e = HTTPException status detail
                         ∧ (status = 500 ∨ status = 503)
  end.
Proof.
  destruct limit as [l|].
  - pose proof (search_restaurants_serper_run S location cuisine budget l lat lng log)
      as Hrun.
    unfold search_outcome in Hrun. cbv zeta in Hrun.
    unfold try_except_exception.
    destruct (search_restaurants_serper S location cuisine budget (Some l) lat lng log)
      as [[v|[status d|cls msg]] log'].
    + exists l.
      destruct Hrun as [[_ ->]|(items & _ & _ & _ & ->)]; eexists;
        (split; [reflexivity|]); (split; [reflexivity|]); cbn; split; lia.
    + destruct Hrun as (-> & ->). split; [rewrite completions_app; cbn; lia|].
      eauto.
    + unfold throw. split; [|eauto].
      destruct Hrun as [-> | ->]; rewrite completions_app; cbn; lia.
  - cbn. split; [reflexivity|eauto].
Qed.

Lemma ask_llama_run S C rs req log :
  match ask_llama S C rs req log with
  | (Return (full_text, pick), log') =>
      GROQ_API_KEY C ≠ EmptyString
      ∧ log' = log ++ [GroqCreate 1200 (recommendation_prompt S rs req)]
      ∧ pick = top_pick_of full_text
  | (Throw _, log') =>
      log' = log
      ∨ (GROQ_API_KEY C ≠ EmptyString
         ∧ log' = log ++ [GroqCreate 1200 (recommendation_prompt S rs req)])
  end.
Proof.
  unfold ask_llama. cbv zeta. unfold mbind at 1, Act_bind at 1, get_groq_client.
  destruct (String.eqb (GROQ_API_KEY C) EmptyString) eqn:Hkey; [left; reflexivity|].
  apply String.eqb_neq in Hkey.
  unfold mbind at 1, Act_bind at 1, create.
  destruct (groq_create S log 1200 _) as [choices|e]; [|right; auto].
  unfold mbind at 1, Act_bind at 1, py.
  destruct (message_content choices) as [full_text|e]; [|right; auto].
  cbn. auto.
Qed.

Lemma NoDup_list_slice_to {A} (l : list A) k : NoDup l → NoDup (list_slice_to l k).
Proof.
  intros H. unfold list_slice_to.
  exact (sublist_NoDup _ l H (sublist_take _ _)).
Qed.

Lemma map_list_slice_to {A B} (f : A → B) (l : list A) k :
  map f (list_slice_to l k) = list_slice_to (map f l) k.
Proof.
  unfold list_slice_to. rewrite List.length_map. symmetry. apply List.firstn_map.
Qed.

Lemma recommend_restaurants_run S C req log run :
  recommend_restaurants S C req log = run →
  recommend_failure log run
  ∧ recommend_success S req log run
  ∧ (GROQ_API_KEY C = EmptyString →
     is_return (fst run) = false ∧ completions (snd run) = completions log).
Proof.
  intros Hrun. unfold recommend_restaurants in Hrun.
  unfold mbind at 1, Act_bind at 1 in Hrun.
  pose proof (guarded_search_run S (RecommendationRequest.location req)
                (RecommendationRequest.cuisine req) (RecommendationRequest.budget req)
                (RecommendationRequest.limit req) (RecommendationRequest.lat req)
                (RecommendationRequest.lng req) log) as Hsearch.
  destruct (try_except_exception true _ _ log) as [[places|e] log1].
  2:{ subst run. destruct Hsearch as (Hc & status & detail & -> & Hs).
      split; [|split; [exact I|auto]].
      exists status, detail. split; [reflexivity|]. split; [tauto|auto]. }
  destruct Hsearch as (l & searches & Hl & -> & Hc & Hn).
  assert (Hquiet : completions (log ++ searches) = completions log)
    by (rewrite completions_app; lia).
  destruct (negb (json_truthy places)).
  { subst run. split; [|split; [exact I|auto]].
    exists 404. eexists. split; [reflexivity|]. auto. }
  unfold mbind at 1, Act_bind at 1 in Hrun. rewrite Hl in Hrun.
  unfold try_except_exception at 1, py at 1 in Hrun.
  pose proof (parse_results_distinct S places (l * 2)) as Hdistinct.
  destruct (parse_serper_results S places (l * 2)) as [all|e].
  2:{ subst run. split; [|split; [exact I|auto]].
      exists 500. eexists. split; [reflexivity|]. auto. }
  destruct all as [|r all].
  { subst run. split; [|split; [exact I|auto]].
    exists 404. eexists. split; [reflexivity|]. auto. }
  unfold mbind at 1, Act_bind at 1, try_except_exception at 1 in Hrun.
  pose proof (ask_llama_run S C (r :: all) req (log ++ searches)) as Hask.
  destruct (ask_llama S C (r :: all) req (log ++ searches))
    as [[[full_text pick]|e] log2].
  - subst run. destruct Hask as (Hkey & -> & ->).
    split; [exact I|]. split; [|intros Hno; contradiction].
    exists l, searches, (recommendation_prompt S (r :: all) req).
    split; [exact Hl|]. split; [rewrite <- app_assoc; reflexivity|].
    split; [exact Hc|]. split; [exact Hn|].
    destruct (Hdistinct _ eq_refl) as [Hnd _].
    cbn [RecommendationResponse.restaurants RecommendationResponse.top_pick
         RecommendationResponse.ai_recommendation].
    split; [|split; [|reflexivity]].
    + rewrite map_list_slice_to. apply NoDup_list_slice_to, Hnd.
    + intros Hpos. unfold list_slice_to. rewrite List.length_firstn.
      destruct (Z.ltb_spec l 0) as [|_]; [lia|]. cbn [length].
      split; [|lia].
      replace (Z.to_nat (Z.min l (Z.of_nat (Datatypes.S (length all)))))
        with (Datatypes.S (Z.to_nat (Z.min l (Z.of_nat (Datatypes.S (length all))) - 1)))
        by lia.
      discriminate.
  - assert (Hfail : run = (Throw (HTTPException 500
                                    ("AI step failed: " +:+ str_of_error S e)), log2)).
    { subst run. destruct e; reflexivity. }
    clear Hrun. subst run.
    split; [|split; [exact I|]].
    + exists 500. eexists. split; [reflexivity|]. split; [auto|]. right.
      split; [reflexivity|]. eexists. reflexivity.
    + intros Hno. split; [reflexivity|].
      destruct Hask as [->|[Hkey _]]; [exact Hquiet|contradiction].
Qed.

(** Every failure of [POST /api/recommend] is an HTTP error with status 404,
    500 or 503: no other exception leaves the handler.  Unless the error is
    the one of the completion step, no completion request was made. *)
Theorem recommend_restaurants_failures :
  ∀ (S : Services) (C : Config) (req : RecommendationRequest.t) (log : list call),
  recommend_failure log (recommend_restaurants S C req log).
Proof. intros S C req log. apply (recommend_restaurants_run S C req log). reflexivity. Qed.

(** A response of [POST /api/recommend] comes after one or two search
    requests followed by exactly one completion request for 1200 tokens.
    Its restaurants have distinct names; when the limit is at least one
    there is at least one of them and at most the limit; and the top pick is
    the one read off the recommendation text. *)
Theorem recommend_restaurants_success :
  ∀ (S : Services) (C : Config) (req : RecommendationRequest.t) (log : list call),
  recommend_success S req log (recommend_restaurants S C req log).
Proof. intros S C req log. apply (recommend_restaurants_run S C req log). reflexivity. Qed.

(** [GET /api/search] never asks for a completion; it returns at most
    [limit] restaurants (one when the limit is below one), with distinct
    names; its only HTTP error is the 503 of the search. *)
Theorem search_restaurants_outcomes :
  ∀ (S : Services) (location : string) (cuisine budget : option string) (limit : Z)
    (log : list call),
  search_route_outcome limit log (search_restaurants S location cuisine budget limit log).
Proof.
  intros S location cuisine budget limit log.
  unfold search_route_outcome.
  remember (search_restaurants S location cuisine budget limit log) as run eqn:Hrun.
  unfold search_restaurants in Hrun. unfold mbind at 1, Act_bind at 1 in Hrun.
  pose proof (search_restaurants_serper_run S location cuisine budget limit None None log)
    as Hsearch.
  unfold search_outcome in Hsearch. cbv zeta in Hsearch.
  destruct (search_restaurants_serper S location cuisine budget (Some limit) None None log)
    as [[places|[status d|cls msg]] log1].
  - assert (Hquiet : completions log1 = completions log).
    { destruct Hsearch as [[_ ->]|(items & _ & _ & _ & ->)];
        rewrite completions_app; cbn; lia. }
    unfold mbind at 1, Act_bind at 1, py at 1 in Hrun.
    pose proof (parse_results_distinct S places limit) as Hdistinct.
    pose proof (parse_results_length S places limit) as Hlength.
    destruct (parse_serper_results S places limit) as [rs|e]; subst run; cbn [fst snd].
    + split; [exact Hquiet|]. split; [apply Hlength; reflexivity|].
      apply (Hdistinct rs eq_refl).
    + split; [exact Hquiet|exact I].
  - subst run. cbn [fst snd]. destruct Hsearch as (-> & ->).
    split; [rewrite completions_app; cbn; lia|reflexivity].
  - subst run. cbn [fst snd]. split; [|exact I].
    destruct Hsearch as [-> | ->]; rewrite completions_app; cbn; lia.
Qed.

Lemma review_of_fields r review :
  review_of r = Ok review → review_rating review = 4 ∧ time_created review = None.
Proof.
  unfold review_of. intros H. bind_inv H. bind_inv H. injection H as <-.
  split; reflexivity.
Qed.

Lemma mapM_length {A} (f : json → result A) : ∀ items l,
  mapM f items = Ok l → length l = length items.
Proof.
  induction items as [|j items IH]; simpl; intros l H.
  - injection H as <-. reflexivity.
  - bind_inv H. bind_inv H. injection H as <-. cbn. f_equal. apply IH. assumption.
Qed.

Lemma snippets_of_ok S status body snippets :
  snippets_of S status body = Ok snippets →
  (length snippets <= 5)%nat
  ∧ Forall (fun r => review_rating r = 4 ∧ time_created r = None) snippets.
Proof.
  unfold snippets_of. destruct (status =? 200).
  - intros H. bind_inv H. bind_inv H. bind_inv H. split.
    + rewrite (mapM_length _ _ _ H).
      destruct v0; try discriminate Hv1.
      * destruct s as [|c s]; injection Hv1 as <-; [cbn; lia|discriminate H].
      * injection Hv1 as <-. rewrite List.length_firstn. lia.
    + eapply mapM_ok_Forall; [|exact H]. intros j a. apply review_of_fields.
  - intros [= <-]. split; [cbn; lia|constructor].
Qed.

Lemma get_restaurant_reviews_run S C restaurant_id location log run :
  get_restaurant_reviews S C restaurant_id location log = run →
  reviews_outcome restaurant_id location log run
  ∧ (GROQ_API_KEY C = EmptyString → completions (snd run) = completions log).
Proof.
  intros Hrun. unfold get_restaurant_reviews in Hrun.
  unfold mbind at 1, Act_bind at 1, post at 1 in Hrun.
  assert (Hone : completions
                   (log ++ [SerperPost "/search" (reviews_query restaurant_id location) 5])
                 = completions log) by (rewrite completions_app; cbn; lia).
  unfold reviews_outcome.
  destruct (serper_post S log "/search" _ 5) as [[status body]|e].
  2:{ subst run. split; [|intros _; exact Hone].
      exists []. cbn. auto. }
  unfold mbind at 1, Act_bind at 1, py at 1 in Hrun.
  pose proof (snippets_of_ok S status body) as Hsnippets.
  destruct (snippets_of S status body) as [snippets|e].
  2:{ subst run. split; [|intros _; exact Hone].
      exists []. cbn. auto. }
  destruct (Hsnippets _ eq_refl) as [Hlen Hall]. clear Hsnippets.
  destruct snippets as [|r snippets].
  { subst run. split; [|intros _; exact Hone].
    exists []. cbn. split; [reflexivity|]. split; [auto|].
    split; [lia|]. split; [constructor|]. auto. }
  unfold mbind at 1, Act_bind at 1, get_groq_client in Hrun.
  destruct (String.eqb (GROQ_API_KEY C) EmptyString) eqn:Hkey.
  { subst run. split; [|intros _; exact Hone].
    exists []. cbn. auto. }
  apply String.eqb_neq in Hkey.
  unfold mbind at 1, Act_bind at 1, create at 1 in Hrun.
  destruct (groq_create S _ 350 _) as [choices|e].
  2:{ subst run. split; [|intros Hno; contradiction].
      eexists. cbn. rewrite <- app_assoc. split; [reflexivity|]. eauto. }
  unfold mbind at 1, Act_bind at 1, py at 1 in Hrun.
  destruct (summary_content choices) as [summary|e]; subst run.
  - split; [|intros Hno; contradiction].
    eexists. cbn. rewrite <- app_assoc. split; [reflexivity|]. split; [eauto|].
    split; [exact Hlen|]. split; [exact Hall|]. eauto.
  - split; [|intros Hno; contradiction].
    eexists. cbn. rewrite <- app_assoc. split; [reflexivity|]. eauto.
Qed.

(** [GET /api/reviews/{restaurant_id}] first sends one search for 5 results
    and then at most one completion request, for 350 tokens.  A response
    holds at most 5 reviews, each rated 4; without reviews it carries the
    fixed text and no completion was requested, and with reviews exactly
    one was. *)
Theorem get_restaurant_reviews_outcomes :
  ∀ (S : Services) (C : Config) (restaurant_id location : string) (log : list call),
  reviews_outcome restaurant_id location log
    (get_restaurant_reviews S C restaurant_id location log).
Proof.
  intros S C restaurant_id location log.
  apply (get_restaurant_reviews_run S C restaurant_id location log). reflexivity.
Qed.

(** Without a completion key neither route ever sends a completion request:
    the recommendation fails, and the reviews are summarised only when there
    are none. *)
Theorem no_completion_without_key :
  ∀ (S : Services) (C : Config) (req : RecommendationRequest.t)
    (restaurant_id location : string) (log : list call),
  GROQ_API_KEY C = EmptyString →
  is_return (fst (recommend_restaurants S C req log)) = false
  ∧ completions (snd (recommend_restaurants S C req log)) = completions log
  ∧ completions (snd (get_restaurant_reviews S C restaurant_id location log))
    = completions log.
Proof.
  intros S C req restaurant_id location log Hkey.
  destruct (recommend_restaurants_run S C req log _ eq_refl) as (_ & _ & Hrec).
  destruct (Hrec Hkey) as [H1 H2].
  destruct (get_restaurant_reviews_run S C restaurant_id location log _ eq_refl)
    as (_ & Hrev).
  split; [exact H1|]. split; [exact H2|exact (Hrev Hkey)].
Qed.

(** With services that answer every request, the empty key is what stops
    both routes: the recommendation fails at the completion step and the
    reviews at the construction of the client, neither with a completion
    request; with a key, the same services give a recommendation after one
    completion request. *)
Lemma no_completion_without_key_witness :
  (is_return (fst (recommend_restaurants answering keyless sample_request [])) = false
   ∧ completions (snd (recommend_restaurants answering keyless sample_request []))
     = completions []
   ∧ completions (snd (get_restaurant_reviews answering keyless "le_zinc" "Paris" []))
     = completions [])
  ∧ fst (recommend_restaurants answering keyless sample_request [])
    = Throw (HTTPException 500 "AI step failed: GROQ_API_KEY not configured.")
  ∧ fst (get_restaurant_reviews answering keyless "le_zinc" "Paris" [])
    = Throw (HTTPException 500 "GROQ_API_KEY not configured.")
  ∧ is_return (fst (recommend_restaurants answering sample_config sample_request []))
    = true
  ∧ completions (snd (recommend_restaurants answering sample_config sample_request []))
    = 1%nat.
Proof.
  split.
  - exact (no_completion_without_key answering keyless sample_request "le_zinc" "Paris"
             [] eq_refl).
  - repeat split; vm_compute; reflexivity.
Defined.

End TastefindFacts.
